(** * Bazaar pipeline: order-book snapshots, OHLCV candles and the read service

    A shallow embedding of [backend.py] (filter, snapshot store, candle
    aggregation, retention sweep) and of [api.py] (the three read
    endpoints), followed by the properties proved about them.

    Modelling conventions.
    - A Python exception is a value of [exn]; code that may raise lives in
      the [result] monad.  [try ... except Exception] is a [match] on it.
    - [datetime] values are microseconds since 0001-01-01T00:00:00
      ([datetime.min]); [datetime.now()] is an explicit argument, and in
      [Backend.Clocked] a reading of a clock that is threaded as state.
    - A [string] is the UTF-8 encoding of a text; [int] and [VARCHAR]
      count and read characters, not bytes.
    - JSON numbers that Python reads as [float] are exact rationals [Q];
      JSON integers are [Z].
    - A PostgreSQL table is the list of its rows.  [DECIMAL(15,2)] values
      are integers counting hundredths; [BIGINT], [INT] and [VARCHAR(50)]
      are range-checked where a statement assigns to them, and a failed
      statement raises (psycopg2 turns the server error into an
      exception).  The [SERIAL] column [candles.id] is never read by the
      program and is left out.
    - psycopg2 adapts the parameters of a statement before it sends it
      and refuses a text that holds NUL with [ValueError].  The store
      models this where it sends texts it was given ([Backend.mogrify]).
      A table holds no such text, so statements whose text parameters
      come from a table are always sent; the read handlers are modelled
      for product texts psycopg2 can send, and the properties that
      describe a completed query say so ([sendable]). *)

From Stdlib Require Import ZArith QArith List String Ascii Bool Lia.
From Stdlib Require Import Permutation Sorted.
Import ListNotations.
Open Scope string_scope.
Open Scope list_scope.
Open Scope Z_scope.

Set Implicit Arguments.

(** ** Python runtime *)

Module Py.

Inductive exn : Type :=
| KeyError (key : string)
| TypeError
| ValueError (arg : string)
| OverflowError
| OperationalError (msg : string)
| DataError (column : string)
| IntegrityError (column : string).

Inductive result (A : Type) : Type :=
| Ok (a : A)
| Raise (e : exn).

Arguments Ok {A} a.
Arguments Raise {A} e.

Definition bind {A B : Type} (m : result A) (k : A -> result B) : result B :=
  match m with
  | Ok a => k a
  | Raise e => Raise e
  end.

(** [d[key]] on a field that may be absent from the dict. *)
Definition getitem {A : Type} (key : string) (field : option A) : result A :=
  match field with
  | Some v => Ok v
  | None => Raise (KeyError key)
  end.

(** [d.get(key, default)]. *)
Definition get {A : Type} (field : option A) (default : A) : A :=
  match field with
  | Some v => v
  | None => default
  end.

(** [enumerate(xs, start)]. *)
Fixpoint enumerate {A : Type} (xs : list A) (start : Z) : list (Z * A) :=
  match xs with
  | [] => []
  | x :: xs' => (start, x) :: enumerate xs' (start + 1)
  end.

(** *** [datetime] and [timedelta] *)

Definition datetime : Type := Z.

Definition datetime_max : datetime := 3652059 * 86400 * 1000000 - 1.

Definition timedelta_max_days : Z := 999999999.

(** [timedelta(seconds=s)], in microseconds; the constructor normalises
    to days and refuses more than 999999999 of them. *)
Definition timedelta (seconds : Z) : result Z :=
  let days := seconds / 86400 in
  if (days <? - timedelta_max_days) || (timedelta_max_days <? days)
  then Raise OverflowError
  else Ok (seconds * 1000000).

Definition timedelta_minutes (minutes : Z) : result Z := timedelta (minutes * 60).
Definition timedelta_hours (hours : Z) : result Z := timedelta (hours * 3600).

(** [dt - delta]: the result must be a representable [datetime]. *)
Definition datetime_sub (dt : datetime) (delta : Z) : result datetime :=
  let r := dt - delta in
  if (r <? 0) || (datetime_max <? r) then Raise OverflowError else Ok r.

(** *** Text

    A [string] holds the UTF-8 encoding of a Python [str] or of a
    PostgreSQL text value: a character is one byte, two, three or four. *)

Definition byte (c : ascii) : Z := Z.of_nat (nat_of_ascii c).

(** The text contains the character NUL. *)
Fixpoint has_nul (s : string) : bool :=
  match s with
  | EmptyString => false
  | String c s' => (byte c =? 0) || has_nul s'
  end.

(** Bytes [10xxxxxx] continue the character begun before them. *)
Definition is_continuation (c : ascii) : bool := (128 <=? byte c) && (byte c <? 192).

(** [len(s)]: the number of characters. *)
Fixpoint char_length (s : string) : nat :=
  match s with
  | EmptyString => O
  | String c s' => if is_continuation c then char_length s' else S (char_length s')
  end.

(** The first [n] characters of a text, and the text after them. *)
Fixpoint take_chars (n : nat) (s : string) : string :=
  match s with
  | EmptyString => EmptyString
  | String c s' =>
      if is_continuation c then String c (take_chars n s')
      else match n with
           | O => EmptyString
           | S n' => String c (take_chars n' s')
           end
  end.

Fixpoint drop_chars (n : nat) (s : string) : string :=
  match s with
  | EmptyString => EmptyString
  | String c s' =>
      if is_continuation c then drop_chars n s'
      else match n with
           | O => s
           | S n' => drop_chars n' s'
           end
  end.

Definition replacement : Z := 0xFFFD.

(** A lead byte announces the number of continuation bytes, the bits it
    contributes and the least code point of that length. *)
Definition lead (b : Z) : option (nat * Z * Z) :=
  if (0xC0 <=? b) && (b <? 0xE0) then Some (1%nat, b mod 32, 0x80)
  else if (0xE0 <=? b) && (b <? 0xF0) then Some (2%nat, b mod 16, 0x800)
  else if (0xF0 <=? b) && (b <? 0xF8) then Some (3%nat, b mod 8, 0x10000)
  else None.

(** A decoded value is a character unless it is overlong, a surrogate or
    beyond U+10FFFF. *)
Definition scalar (low : Z) (cp : Z) : Z :=
  if (cp <? low) || ((0xD800 <=? cp) && (cp <=? 0xDFFF)) || (0x10FFFF <? cp)
  then replacement else cp.

(** The code points of a text; [need] continuation bytes are still
    awaited for the character whose bits so far are [acc].  Bytes that
    form no character decode to U+FFFD. *)
Fixpoint decode_from (need : nat) (acc : Z) (low : Z) (s : list ascii) : list Z :=
  match s with
  | [] => match need with
          | O => []
          | S _ => [replacement]
          end
  | c :: s' =>
      let b := byte c in
      let fresh :=
        if b <? 128 then b :: decode_from 0 0 0 s'
        else match lead b with
             | Some (n, a, lo) => decode_from n a lo s'
             | None => replacement :: decode_from 0 0 0 s'
             end in
      match need with
      | O => fresh
      | S need' =>
          if is_continuation c
          then match need' with
               | O => scalar low (acc * 64 + b mod 64) :: decode_from 0 0 0 s'
               | S _ => decode_from need' (acc * 64 + b mod 64) low s'
               end
          else replacement :: fresh
      end
  end.

Definition decode (s : string) : list Z := decode_from 0 0 0 (list_ascii_of_string s).

(** *** [int(str)]

    Base-10 parsing as CPython 3.11 does it.  A text with a character
    beyond ASCII is first rewritten ([_PyUnicode_TransformDecimalAndSpaceToASCII]):
    a Unicode decimal digit becomes its ASCII digit, Unicode whitespace
    becomes a space, and anything else ends the text with a question
    mark.  The ASCII text is then read ([PyLong_FromString]): whitespace
    [\t\n\v\f\r] and space is skipped on both ends, one sign is allowed,
    digits may be separated by single underscores, and at most 4300
    digits are read.  Anything else raises [ValueError]. *)

(** First code points of the runs [0 .. 9] of decimal digits (Unicode 14.0). *)
Definition decimal_starts : list Z :=
  [0x30; 0x660; 0x6F0; 0x7C0; 0x966; 0x9E6; 0xA66; 0xAE6; 0xB66; 0xBE6; 0xC66;
   0xCE6; 0xD66; 0xDE6; 0xE50; 0xED0; 0xF20; 0x1040; 0x1090; 0x17E0; 0x1810;
   0x1946; 0x19D0; 0x1A80; 0x1A90; 0x1B50; 0x1BB0; 0x1C40; 0x1C50; 0xA620;
   0xA8D0; 0xA900; 0xA9D0; 0xA9F0; 0xAA50; 0xABF0; 0xFF10; 0x104A0; 0x10D30;
   0x11066; 0x110F0; 0x11136; 0x111D0; 0x112F0; 0x11450; 0x114D0; 0x11650;
   0x116C0; 0x11730; 0x118E0; 0x11950; 0x11C50; 0x11D50; 0x11DA0; 0x16A60;
   0x16AC0; 0x16B50; 0x1D7CE; 0x1D7D8; 0x1D7E2; 0x1D7EC; 0x1D7F6; 0x1E140;
   0x1E2F0; 0x1E950; 0x1FBF0].

(** [Py_UNICODE_TODECIMAL]. *)
Definition decimal_of (ch : Z) : option Z :=
  match find (fun first => (first <=? ch) && (ch <? first + 10)) decimal_starts with
  | Some first => Some (ch - first)
  | None => None
  end.

(** [Py_UNICODE_ISSPACE] beyond ASCII. *)
Definition is_unicode_space (ch : Z) : bool :=
  existsb (Z.eqb ch) [0x85; 0xA0; 0x1680; 0x2028; 0x2029; 0x202F; 0x205F; 0x3000]
  || ((0x2000 <=? ch) && (ch <=? 0x200A)).

Fixpoint transform_loop (text : list Z) : list Z :=
  match text with
  | [] => []
  | ch :: text' =>
      if ch <? 127 then ch :: transform_loop text'
      else if is_unicode_space ch then 32 :: transform_loop text'
      else match decimal_of ch with
           | Some d => (48 + d) :: transform_loop text'
           | None => [63]
           end
  end.

(** An ASCII text is read as it is. *)
Definition transform (text : list Z) : list Z :=
  if forallb (fun ch => ch <? 128) text then text else transform_loop text.

(** [Py_ISSPACE]. *)
Definition is_space (ch : Z) : bool := ((9 <=? ch) && (ch <=? 13)) || (ch =? 32).

Definition digit_of (ch : Z) : option Z :=
  if (48 <=? ch) && (ch <=? 57) then Some (ch - 48) else None.

Fixpoint lstrip (s : list Z) : list Z :=
  match s with
  | c :: s' => if is_space c then lstrip s' else s
  | [] => []
  end.

Definition strip (s : list Z) : list Z :=
  rev (lstrip (rev (lstrip s))).

(** [digits acc after_digit s]: [after_digit] says whether the previous
    character was a digit (an underscore must sit between two digits). *)
Fixpoint digits (acc : Z) (after_digit : bool) (s : list Z) : option Z :=
  match s with
  | [] => if after_digit then Some acc else None
  | c :: s' =>
      match digit_of c with
      | Some d => digits (acc * 10 + d) true s'
      | None =>
          if (c =? 95) && after_digit
          then match s' with
               | c' :: _ => match digit_of c' with
                            | Some _ => digits acc false s'
                            | None => None
                            end
               | [] => None
               end
          else None
      end
  end.

(** CPython's default limit on the digits of a decimal literal. *)
Definition max_str_digits : nat := 4300.

Definition count_digits (s : list Z) : nat :=
  List.length (filter (fun c => match digit_of c with
                                | Some _ => true
                                | None => false
                                end) s).

Definition parse_int (s : string) : option Z :=
  let text := strip (transform (decode s)) in
  if (max_str_digits <? count_digits text)%nat then None
  else
    match text with
    | [] => None
    | c :: s' =>
        if c =? 45 then option_map Z.opp (digits 0 false s')
        else if c =? 43 then digits 0 false s'
        else digits 0 false (c :: s')
    end.

Definition int (s : string) : result Z :=
  match parse_int s with
  | Some n => Ok n
  | None => Raise (ValueError s)
  end.

End Py.

Import Py.

Notation "x <- m ;; k" := (bind m (fun x => k))
  (at level 61, m at next level, right associativity).

(** ** PostgreSQL column types and aggregates *)

Module Sql.

Definition bigint_min : Z := - 2 ^ 63.
Definition bigint_max : Z := 2 ^ 63 - 1.
Definition int_min : Z := - 2 ^ 31.
Definition int_max : Z := 2 ^ 31 - 1.

Definition to_bigint (column : string) (v : Z) : result Z :=
  if (bigint_min <=? v) && (v <=? bigint_max) then Ok v else Raise (DataError column).

Definition to_int (column : string) (v : Z) : result Z :=
  if (int_min <=? v) && (v <=? int_max) then Ok v else Raise (DataError column).

(** Rounding of a numeric to scale 2, ties away from zero; the result
    counts hundredths. *)
Definition round_hundredths (q : Q) : Z :=
  let n := Qnum q * 100 in
  let d := Zpos (Qden q) in
  Z.sgn n * ((2 * Z.abs n + d) / (2 * d)).

(** Assignment to [DECIMAL(15,2)]: at most 13 digits before the point. *)
Definition to_decimal_15_2 (column : string) (q : Q) : result Z :=
  let h := round_hundredths q in
  if Z.abs h <? 10 ^ 15 then Ok h else Raise (DataError column).

Fixpoint all_spaces (s : string) : bool :=
  match s with
  | EmptyString => true
  | String c s' => (nat_of_ascii c =? 32)%nat && all_spaces s'
  end.

(** Assignment to [VARCHAR(n)], [n] counting characters: excess
    characters are dropped when they are all spaces, and rejected
    otherwise.  No text value holds NUL. *)
Definition to_varchar (n : nat) (column : string) (s : string) : result string :=
  if has_nul s then Raise (DataError column)
  else if (char_length s <=? n)%nat then Ok s
  else if all_spaces (drop_chars n s)
       then Ok (take_chars n s)
       else Raise (DataError column).

(** Aggregates skip NULLs and give NULL on no input. *)
Definition agg (op : Z -> Z -> Z) (xs : list (option Z)) : option Z :=
  fold_left (fun acc x =>
               match acc, x with
               | None, _ => x
               | Some _, None => acc
               | Some a, Some b => Some (op a b)
               end) xs None.

Definition MAX : list (option Z) -> option Z := agg Z.max.
Definition MIN : list (option Z) -> option Z := agg Z.min.
Definition SUM : list (option Z) -> option Z := agg Z.add.

Definition COUNT_star {A : Type} (rows : list A) : Z := Z.of_nat (List.length rows).

Definition COALESCE (v : option Z) (default : Z) : Z :=
  match v with
  | Some x => x
  | None => default
  end.

(** [ORDER BY ... ASC] under the strict order [lt], as a stable
    insertion sort. *)
Section OrderBy.
Variable A : Type.
Variable lt : A -> A -> bool.

Fixpoint insert_sorted (x : A) (l : list A) : list A :=
  match l with
  | [] => [x]
  | y :: l' => if lt x y then x :: l else y :: insert_sorted x l'
  end.

Fixpoint order_by (l : list A) : list A :=
  match l with
  | [] => []
  | x :: l' => insert_sorted x (order_by l')
  end.
End OrderBy.

Definition asc {A : Type} (key : A -> Z) (a b : A) : bool := key a <? key b.

End Sql.

Import Sql.

(** ** backend.py *)

Module Backend.

(** *** Upstream JSON

    [{"products": {id: {"buy_summary": [level, ...], "sell_summary": [...]}}}].
    A field is [None] when its key is absent from the dict; the products
    dict is the list of its items in iteration order. *)

Record level : Type := mkLevel {
  pricePerUnit : option Q;
  amount : option Z;
  orders : option Z
}.

Record product_data : Type := mkProductData {
  buy_summary : option (list level);
  sell_summary : option (list level)
}.

Record bazaar : Type := mkBazaar {
  products : option (list (string * product_data))
}.

(** The dict built at lines 107-112. *)
Record product_info : Type := mkProductInfo {
  product_id : string;
  timestamp : datetime;
  buy_orders : list level;
  sell_orders : list level
}.

Definition Qltb (x y : Q) : bool := negb (Qle_bool y x).

Definition min_price : Q := 7 # 10.

(** *** filter_and_extract_products *)

(** The [for] loop of lines 94-113; [timestamp] was read once, before
    the loop (line 92). *)
Fixpoint filter_loop (timestamp : datetime) (items : list (string * product_data))
         (filtered_products : list product_info) : result (list product_info) :=
  match items with
  | [] => Ok filtered_products
  | (product_id, product_data) :: items' =>
      let buy_summary := get (buy_summary product_data) [] in
      let sell_summary := get (sell_summary product_data) [] in
      match buy_summary, sell_summary with
      | [], _ => filter_loop timestamp items' filtered_products
      | _, [] => filter_loop timestamp items' filtered_products
      | buy0 :: _, sell0 :: _ =>
          top_buy_price <- getitem "pricePerUnit" (pricePerUnit buy0) ;;
          top_sell_price <- getitem "pricePerUnit" (pricePerUnit sell0) ;;
          if Qltb top_buy_price min_price || Qltb top_sell_price min_price
          then filter_loop timestamp items' filtered_products
          else
            let product_info :=
              {| product_id := product_id;
                 timestamp := timestamp;
                 buy_orders := firstn 5 buy_summary;
                 sell_orders := firstn 5 sell_summary |} in
            filter_loop timestamp items' (filtered_products ++ [product_info])
      end
  end.

(** [data] is [None] when the fetch returned [None]; [now] is the value
    of [datetime.now()] at line 92. *)
Definition filter_and_extract_products (now : datetime) (data : option bazaar)
  : result (list product_info) :=
  match data with
  | None => Ok []
  | Some d =>
      match products d with
      | None => Ok []
      | Some items => filter_loop now items []
      end
  end.

(** *** The clock

    [datetime.now()] reads a clock that moves on between readings.  In
    [Clocked] the clock is state: [clock n] is what reading number [n]
    returns, and code that may read it is given the number of readings
    made so far and returns the new number. *)

Module Clocked.

Definition clock : Type := nat -> datetime.

Definition timed (A : Type) : Type := nat -> A * nat.

Definition ret {A : Type} (a : A) : timed A := fun n => (a, n).

Definition datetime_now (c : clock) : timed datetime := fun n => (c n, S n).

Definition tbind {A B : Type} (m : timed A) (k : A -> timed B) : timed B :=
  fun n => let (a, n') := m n in k a n'.

(** The [for] loop of lines 94-113, which has the clock at hand. *)
Fixpoint filter_loop (c : clock) (timestamp : datetime) (items : list (string * product_data))
         (filtered_products : list product_info) : timed (result (list product_info)) :=
  match items with
  | [] => ret (Ok filtered_products)
  | (product_id, product_data) :: items' =>
      let buy_summary := get (buy_summary product_data) [] in
      let sell_summary := get (sell_summary product_data) [] in
      match buy_summary, sell_summary with
      | [], _ => filter_loop c timestamp items' filtered_products
      | _, [] => filter_loop c timestamp items' filtered_products
      | buy0 :: _, sell0 :: _ =>
          match getitem "pricePerUnit" (pricePerUnit buy0) with
          | Raise e => ret (Raise e)
          | Ok top_buy_price =>
              match getitem "pricePerUnit" (pricePerUnit sell0) with
              | Raise e => ret (Raise e)
              | Ok top_sell_price =>
                  if Qltb top_buy_price min_price || Qltb top_sell_price min_price
                  then filter_loop c timestamp items' filtered_products
                  else
                    let product_info :=
                      {| product_id := product_id;
                         timestamp := timestamp;
                         buy_orders := firstn 5 buy_summary;
                         sell_orders := firstn 5 sell_summary |} in
                    filter_loop c timestamp items' (filtered_products ++ [product_info])
              end
          end
      end
  end.

(** Lines 86-116: the clock is read at line 92, after the early return. *)
Definition filter_and_extract_products (c : clock) (data : option bazaar)
  : timed (result (list product_info)) :=
  match data with
  | None => ret (Ok [])
  | Some d =>
      match products d with
      | None => ret (Ok [])
      | Some items =>
          tbind (datetime_now c) (fun timestamp => filter_loop c timestamp items [])
      end
  end.

End Clocked.

(** *** Tables *)

Inductive side : Type := BUY | SELL.

Definition side_eqb (a b : side) : bool :=
  match a, b with
  | BUY, BUY | SELL, SELL => true
  | _, _ => false
  end.

Module Snap.
(** A row of [order_book_snapshot]; [price] counts hundredths. *)
Record row : Type := mk {
  product_id : string;
  timestamp : datetime;
  side : Backend.side;
  rank : Z;
  price : Z;
  amount : Z;
  orders : Z
}.

(** PRIMARY KEY (product_id, timestamp, side, rank). *)
Definition same_key (a b : row) : bool :=
  String.eqb (product_id a) (product_id b)
  && (timestamp a =? timestamp b)
  && side_eqb (side a) (side b)
  && (rank a =? rank b).
End Snap.

Module Candle.
(** A row of [candles]; only [product_id] and [timestamp] are NOT NULL. *)
Record row : Type := mk {
  product_id : string;
  timestamp : datetime;
  open : option Z;
  high : option Z;
  low : option Z;
  close : option Z;
  buy_volume : option Z;
  sell_volume : option Z
}.

(** UNIQUE (product_id, timestamp). *)
Definition same_key (a b : row) : bool :=
  String.eqb (product_id a) (product_id b) && (timestamp a =? timestamp b).
End Candle.

Record DB : Type := mkDB {
  order_book_snapshot : list Snap.row;
  candles : list Candle.row
}.

(** *** store_order_book_snapshot *)

(** The parameter tuple appended to [rows] (lines 137-145, 148-156). *)
Record params : Type := mkParams {
  p_product_id : string;
  p_timestamp : datetime;
  p_side : side;
  p_rank : Z;
  p_price : Q;
  p_amount : Z;
  p_orders : Z
}.

Fixpoint side_rows (product_id : string) (timestamp : datetime) (sd : side)
         (ranked : list (Z * level)) : result (list params) :=
  match ranked with
  | [] => Ok []
  | (rank, order) :: ranked' =>
      price <- getitem "pricePerUnit" (pricePerUnit order) ;;
      amount <- getitem "amount" (amount order) ;;
      orders <- getitem "orders" (orders order) ;;
      rest <- side_rows product_id timestamp sd ranked' ;;
      Ok ({| p_product_id := product_id; p_timestamp := timestamp; p_side := sd;
             p_rank := rank; p_price := price; p_amount := amount;
             p_orders := orders |} :: rest)
  end.

(** Lines 131-156: the rows of all products, in order. *)
Fixpoint build_rows (products : list product_info) : result (list params) :=
  match products with
  | [] => Ok []
  | product :: products' =>
      buys <- side_rows (product_id product) (timestamp product) BUY
                        (enumerate (buy_orders product) 1) ;;
      sells <- side_rows (product_id product) (timestamp product) SELL
                         (enumerate (sell_orders product) 1) ;;
      rest <- build_rows products' ;;
      Ok (buys ++ sells ++ rest)
  end.

(** The [VALUES] tuple assigned to the columns of [order_book_snapshot]. *)
Definition snapshot_row (p : params) : result Snap.row :=
  product_id <- to_varchar 50 "product_id" (p_product_id p) ;;
  rank <- to_int "rank" (p_rank p) ;;
  price <- to_decimal_15_2 "price" (p_price p) ;;
  amount <- to_bigint "amount" (p_amount p) ;;
  orders <- to_int "orders" (p_orders p) ;;
  Ok (Snap.mk product_id (p_timestamp p) (p_side p) rank price amount orders).

(** [INSERT INTO order_book_snapshot ... ON CONFLICT DO NOTHING]. *)
Definition insert_snapshot (p : params) (tbl : list Snap.row) : result (list Snap.row) :=
  r <- snapshot_row p ;;
  Ok (if existsb (Snap.same_key r) tbl then tbl else tbl ++ [r]).

(** [cur.mogrify(sql, args)]: psycopg2 adapts the parameters before
    anything is sent, and refuses a text that contains NUL.  The other
    parameters of a tuple (a [datetime], the literal side, numbers) are
    always adapted. *)
Definition mogrify (p : params) : result params :=
  if has_nul (p_product_id p) then Raise (ValueError (p_product_id p)) else Ok p.

Fixpoint mogrify_page (page : list params) : result (list params) :=
  match page with
  | [] => Ok []
  | p :: page' =>
      sql <- mogrify p ;;
      sqls <- mogrify_page page' ;;
      Ok (sql :: sqls)
  end.

(** [_paginate(seq, page_size)]: [page] holds, last first, the rows of the
    page being filled and [room] is the number of rows it can still take. *)
Fixpoint paginate_from (page_size room : nat) (page : list params) (rows : list params)
  : list (list params) :=
  match rows with
  | [] => match page with
          | [] => []
          | _ :: _ => [rev page]
          end
  | p :: rows' =>
      match room with
      | S room' => paginate_from page_size room' (p :: page) rows'
      | O => rev page :: paginate_from page_size (page_size - 1) [p] rows'
      end
  end.

Definition paginate (rows : list params) (page_size : nat) : list (list params) :=
  paginate_from page_size page_size [] rows.

(** [cur.execute(b";".join(sqls))]: the statements of one page, in order. *)
Fixpoint execute_page (sqls : list params) (tbl : list Snap.row) : result (list Snap.row) :=
  match sqls with
  | [] => Ok tbl
  | p :: sqls' => tbl' <- insert_snapshot p tbl ;; execute_page sqls' tbl'
  end.

Fixpoint execute_pages (pages : list (list params)) (tbl : list Snap.row)
  : result (list Snap.row) :=
  match pages with
  | [] => Ok tbl
  | page :: pages' =>
      sqls <- mogrify_page page ;;
      tbl' <- execute_page sqls tbl ;;
      execute_pages pages' tbl'
  end.

(** [execute_batch(cur, sql, argslist)] with its default [page_size=100]:
    each page is adapted as a whole and then sent as one command. *)
Definition execute_batch (rows : list params) (tbl : list Snap.row) : result (list Snap.row) :=
  execute_pages (paginate rows 100) tbl.

(** The result is the committed store; on [Raise] nothing was committed
    and the store is still [db]. *)
Definition store_order_book_snapshot (products : list product_info) (db : DB) : result DB :=
  match products with
  | [] => Ok db
  | _ =>
      rows <- build_rows products ;;
      tbl <- execute_batch rows (order_book_snapshot db) ;;
      Ok {| order_book_snapshot := tbl; candles := candles db |}
  end.

(** *** generate_candles *)

(** [SELECT DISTINCT product_id FROM order_book_snapshot WHERE timestamp >= %s]. *)
Definition products_in_window (cutoff_time : datetime) (tbl : list Snap.row) : list string :=
  nodup string_dec
        (map Snap.product_id (filter (fun r => cutoff_time <=? Snap.timestamp r) tbl)).

(** The [WHERE] clause shared by the two per-product queries. *)
Definition top_of_book (product_id : string) (cutoff_time : datetime) (sd : side)
           (r : Snap.row) : bool :=
  String.eqb (Snap.product_id r) product_id
  && (cutoff_time <=? Snap.timestamp r)
  && side_eqb (Snap.side r) sd
  && (Snap.rank r =? 1).

(** A row of the CTE [price_sequence]. *)
Record seq_row : Type := mkSeq {
  q_timestamp : datetime;
  q_price : Z;
  q_amount : Z;
  row_num : Z;
  total_rows : Z
}.

Definition price_sequence (product_id : string) (cutoff_time : datetime)
           (tbl : list Snap.row) : list seq_row :=
  let selected :=
    order_by (asc Snap.timestamp) (filter (top_of_book product_id cutoff_time BUY) tbl) in
  let total := COUNT_star selected in
  map (fun nr : Z * Snap.row =>
         {| q_timestamp := Snap.timestamp (snd nr);
            q_price := Snap.price (snd nr);
            q_amount := Snap.amount (snd nr);
            row_num := fst nr;
            total_rows := total |})
      (enumerate selected 1).

(** [CASE WHEN c THEN v END]. *)
Definition case_when (c : bool) (v : Z) : option Z := if c then Some v else None.

(** The row fetched at line 222. *)
Record ohlc : Type := mkOhlc {
  first_timestamp : option datetime;
  last_timestamp : option datetime;
  open_price : option Z;
  high_price : option Z;
  low_price : option Z;
  close_price : option Z;
  buy_volume : option Z;
  data_points : Z
}.

Definition ohlc_query (product_id : string) (cutoff_time : datetime)
           (tbl : list Snap.row) : ohlc :=
  let ps := price_sequence product_id cutoff_time tbl in
  {| first_timestamp :=
       MAX (map (fun q => case_when (row_num q =? 1) (q_timestamp q)) ps);
     last_timestamp :=
       MAX (map (fun q => case_when (row_num q =? total_rows q) (q_timestamp q)) ps);
     open_price := MAX (map (fun q => case_when (row_num q =? 1) (q_price q)) ps);
     high_price := MAX (map (fun q => Some (q_price q)) ps);
     low_price := MIN (map (fun q => Some (q_price q)) ps);
     close_price :=
       MAX (map (fun q => case_when (row_num q =? total_rows q) (q_price q)) ps);
     buy_volume := SUM (map (fun q => Some (q_amount q)) ps);
     data_points := COUNT_star ps |}.

(** Lines 229-238; [COALESCE] already excludes NULL, so [or 0] only maps 0 to 0. *)
Definition sell_volume_query (product_id : string) (cutoff_time : datetime)
           (tbl : list Snap.row) : Z :=
  let v := COALESCE
             (SUM (map (fun r => Some (Snap.amount r))
                       (filter (top_of_book product_id cutoff_time SELL) tbl))) 0 in
  if v =? 0 then 0 else v.

Fixpoint upsert (c : Candle.row) (tbl : list Candle.row) : list Candle.row :=
  match tbl with
  | [] => [c]
  | r :: tbl' =>
      if Candle.same_key r c
      then {| Candle.product_id := Candle.product_id r;
              Candle.timestamp := Candle.timestamp r;
              Candle.open := Candle.open c;
              Candle.high := Candle.high c;
              Candle.low := Candle.low c;
              Candle.close := Candle.close c;
              Candle.buy_volume := Candle.buy_volume c;
              Candle.sell_volume := Candle.sell_volume c |} :: tbl'
      else r :: upsert c tbl'
  end.

Definition to_bigint_null (column : string) (v : option Z) : result (option Z) :=
  match v with
  | None => Ok None
  | Some x => y <- to_bigint column x ;; Ok (Some y)
  end.

(** The [VALUES] tuple of lines 256-257 assigned to the columns of
    [candles].  The prices and the product id are read from columns of
    the same types; the two volumes are sums and are range-checked. *)
Definition candle_row (product_id : string) (candle_timestamp : option datetime)
           (r : ohlc) (sell_volume : Z) : result Candle.row :=
  ts <- match candle_timestamp with
        | Some t => Ok t
        | None => Raise (IntegrityError "timestamp")
        end ;;
  bv <- to_bigint_null "buy_volume" (buy_volume r) ;;
  sv <- to_bigint "sell_volume" sell_volume ;;
  Ok {| Candle.product_id := product_id;
        Candle.timestamp := ts;
        Candle.open := open_price r;
        Candle.high := high_price r;
        Candle.low := low_price r;
        Candle.close := close_price r;
        Candle.buy_volume := bv;
        Candle.sell_volume := Some sv |}.

(** [INSERT INTO candles ... ON CONFLICT (product_id, timestamp) DO UPDATE SET ...]
    (lines 244-257). *)
Definition insert_candle (product_id : string) (candle_timestamp : option datetime)
           (r : ohlc) (sell_volume : Z) (tbl : list Candle.row) : result (list Candle.row) :=
  c <- candle_row product_id candle_timestamp r sell_volume ;;
  Ok (upsert c tbl).

(** The [for] loop of lines 193-259 over the candle table. *)
Fixpoint candle_loop (cutoff_time : datetime) (snaps : list Snap.row)
         (products : list string) (tbl : list Candle.row) (candles_created : Z)
  : result (list Candle.row * Z) :=
  match products with
  | [] => Ok (tbl, candles_created)
  | product_id :: products' =>
      let result := ohlc_query product_id cutoff_time snaps in
      match first_timestamp result with
      | None => candle_loop cutoff_time snaps products' tbl candles_created
      | Some _ =>
          let sell_volume := sell_volume_query product_id cutoff_time snaps in
          let candle_timestamp := last_timestamp result in
          tbl' <- insert_candle product_id candle_timestamp result sell_volume tbl ;;
          candle_loop cutoff_time snaps products' tbl' (candles_created + 1)
      end
  end.

(** [DELETE FROM order_book_snapshot WHERE timestamp < %s]. *)
Definition delete_older (cutoff_time : datetime) (tbl : list Snap.row) : list Snap.row :=
  filter (fun r => negb (Snap.timestamp r <? cutoff_time)) tbl.

(** Line 181. *)
Definition cutoff (now : datetime) (interval_minutes : Z) : result datetime :=
  delta <- timedelta_minutes interval_minutes ;;
  datetime_sub now delta.

(** What a pass commits and prints. *)
Record pass : Type := mkPass {
  committed : DB;
  candles_created : Z;
  deleted_rows : Z
}.

(** On [Raise] nothing was committed and the store is still [db]. *)
Definition generate_candles (now : datetime) (interval_minutes : Z) (db : DB) : result pass :=
  cutoff_time <- cutoff now interval_minutes ;;
  let snaps := order_book_snapshot db in
  let products := products_in_window cutoff_time snaps in
  looped <- candle_loop cutoff_time snaps products (candles db) 0 ;;
  let kept := delete_older cutoff_time snaps in
  Ok {| committed := {| order_book_snapshot := kept; candles := fst looped |};
        candles_created := snd looped;
        deleted_rows := COUNT_star snaps - COUNT_star kept |}.

End Backend.

(** ** api.py *)

Module Api.

Import Backend.

(** The store as a request finds it. *)
Inductive store : Type :=
| Unreachable (msg : string)
| Reachable (db : DB).

(** Calls made on the store, in order. *)
Inductive op : Type :=
| Connect
| Execute (statement : string)
| Close.

(** Handler code: it may raise, and it leaves a trace of store calls. *)
Definition io (A : Type) : Type := list op -> result A * list op.

Definition ret {A : Type} (a : A) : io A := fun t => (Ok a, t).

Definition lift {A : Type} (r : result A) : io A := fun t => (r, t).

Definition iobind {A B : Type} (m : io A) (k : A -> io B) : io B :=
  fun t =>
    match m t with
    | (Ok a, t') => k a t'
    | (Raise e, t') => (Raise e, t')
    end.

Notation "x <~ m ;; k" := (iobind m (fun x => k))
  (at level 61, m at next level, right associativity).

Definition get_db (s : store) : io DB :=
  fun t =>
    (match s with
     | Unreachable msg => Raise (OperationalError msg)
     | Reachable db => Ok db
     end, t ++ [Connect]).

(** [cur.execute(statement, ...)] followed by the fetch, for parameters
    psycopg2 can send: on a connection that was opened the statement
    runs. *)
Definition execute {A : Type} (statement : string) (query : DB -> A) (conn : DB) : io A :=
  fun t => (Ok (query conn), t ++ [Execute statement]).

Definition close : io unit := fun t => (Ok tt, t ++ [Close]).

(** *** Responses *)

(** An error text: a literal, or [str(e)] of a caught exception. *)
Inductive message : Type :=
| Text (s : string)
| Str (e : exn).

(** [timestamp] stands for its [strftime] text; prices count hundredths. *)
Record candle_json : Type := mkCandleJson {
  j_timestamp : datetime;
  j_open : Z;
  j_high : Z;
  j_low : Z;
  j_close : Z;
  j_buy_volume : Z;
  j_sell_volume : Z
}.

Record order_json : Type := mkOrderJson {
  j_price : Z;
  j_amount : Z;
  j_orders : Z
}.

Inductive body : Type :=
| ProductList (ids : list string)
| ErrorOnly (error : message)
| CandleSet (error : option message) (candles : list candle_json)
| OrderBook (error : option message) (buy_orders sell_orders : list order_json).

Record response : Type := mkResponse {
  status : Z;
  payload : body
}.

(** [jsonify(x)] answers 200; [jsonify(x), 400] answers 400. *)
Definition jsonify (b : body) : response := {| status := 200; payload := b |}.

(** [try: body except Exception as e: handler(e)], run from an empty trace. *)
Definition try_except (body : io response) (handler : exn -> response)
  : response * list op :=
  match body [] with
  | (Ok r, t) => (r, t)
  | (Raise e, t) => (handler e, t)
  end.

(** *** /api/products *)

Definition select_products (db : DB) : list string :=
  order_by String.ltb (nodup string_dec (map Candle.product_id (candles db))).

Definition get_products (s : store) : response * list op :=
  try_except
    (conn <~ get_db s ;;
     products <~ execute "SELECT DISTINCT product_id FROM candles" select_products conn ;;
     _ <~ close ;;
     ret (jsonify (ProductList products)))
    (fun _ => jsonify (ProductList [])).

(** *** /api/candles *)

(** Query arguments; [None] when the argument is absent. *)
Record candles_args : Type := mkCandlesArgs {
  arg_product : option string;
  arg_hours : option string
}.

(** [not product]. *)
Definition falsy (product : option string) : bool :=
  match product with
  | None => true
  | Some p => String.eqb p ""
  end.

Definition select_candles (product : string) (cutoff_time : datetime) (db : DB)
  : list Candle.row :=
  order_by (asc Candle.timestamp)
           (filter (fun c => String.eqb (Candle.product_id c) product
                             && (cutoff_time <=? Candle.timestamp c))
                   (candles db)).

(** [float(v)] and [int(v)] on a column that may hold NULL. *)
Definition number (v : option Z) : result Z :=
  match v with
  | Some x => Ok x
  | None => Raise TypeError
  end.

Definition candle_to_json (row : Candle.row) : result candle_json :=
  o <- number (Candle.open row) ;;
  h <- number (Candle.high row) ;;
  l <- number (Candle.low row) ;;
  c <- number (Candle.close row) ;;
  bv <- number (Candle.buy_volume row) ;;
  sv <- number (Candle.sell_volume row) ;;
  Ok {| j_timestamp := Candle.timestamp row; j_open := o; j_high := h; j_low := l;
        j_close := c; j_buy_volume := bv; j_sell_volume := sv |}.

Fixpoint candles_to_json (rows : list Candle.row) : result (list candle_json) :=
  match rows with
  | [] => Ok []
  | row :: rows' =>
      j <- candle_to_json row ;;
      js <- candles_to_json rows' ;;
      Ok (j :: js)
  end.

Definition get_candles (now : datetime) (args : candles_args) (s : store)
  : response * list op :=
  try_except
    (let product := arg_product args in
     hours <~ lift (match arg_hours args with
                    | Some text => int text
                    | None => Ok 1
                    end) ;;
     if falsy product
     then ret {| status := 400; payload := ErrorOnly (Text "Product parameter required") |}
     else
       conn <~ get_db s ;;
       delta <~ lift (timedelta_hours hours) ;;
       cutoff_time <~ lift (datetime_sub now delta) ;;
       rows <~ execute "SELECT ... FROM candles WHERE product_id AND timestamp >="
                       (select_candles (get product "") cutoff_time) conn ;;
       _ <~ close ;;
       match rows with
       | [] => ret (jsonify (CandleSet (Some (Text "No data available for this product")) []))
       | _ =>
           candles <~ lift (candles_to_json rows) ;;
           ret (jsonify (CandleSet None candles))
       end)
    (fun e => jsonify (CandleSet (Some (Str e)) [])).

(** *** /api/orderbook *)

Definition select_latest_time (product : string) (db : DB) : option datetime :=
  MAX (map (fun r => Some (Snap.timestamp r))
           (filter (fun r => String.eqb (Snap.product_id r) product)
                   (order_book_snapshot db))).

Definition select_orders (product : string) (latest_time : datetime) (sd : side) (db : DB)
  : list Snap.row :=
  firstn 5
    (order_by (asc Snap.rank)
              (filter (fun r => String.eqb (Snap.product_id r) product
                                && (Snap.timestamp r =? latest_time)
                                && side_eqb (Snap.side r) sd)
                      (order_book_snapshot db))).

Definition order_to_json (row : Snap.row) : order_json :=
  {| j_price := Snap.price row; j_amount := Snap.amount row; j_orders := Snap.orders row |}.

Definition get_orderbook (product : option string) (s : store) : response * list op :=
  try_except
    (if falsy product
     then ret {| status := 400; payload := ErrorOnly (Text "Product parameter required") |}
     else
       conn <~ get_db s ;;
       latest <~ execute "SELECT MAX(timestamp) FROM order_book_snapshot"
                         (select_latest_time (get product "")) conn ;;
       match latest with
       | None =>
           _ <~ close ;;
           ret (jsonify (OrderBook None [] []))
       | Some latest_time =>
           buys <~ execute "SELECT ... side = 'BUY' ORDER BY rank ASC LIMIT 5"
                           (select_orders (get product "") latest_time BUY) conn ;;
           sells <~ execute "SELECT ... side = 'SELL' ORDER BY rank ASC LIMIT 5"
                            (select_orders (get product "") latest_time SELL) conn ;;
           _ <~ close ;;
           ret (jsonify (OrderBook None (map order_to_json buys) (map order_to_json sells)))
       end)
    (fun e => jsonify (OrderBook (Some (Str e)) [] [])).

End Api.

Import Backend.

(** * Specification vocabulary *)

(** The items of the products dict, empty when the response has none. *)
Definition items_of (data : option bazaar) : list (string * product_data) :=
  match data with
  | Some d => get (products d) []
  | None => []
  end.

(** A product has a level on each side and both best prices reach 0.7. *)
Definition liquid (pd : product_data) : Prop :=
  exists b bs s ss pb ps,
    buy_summary pd = Some (b :: bs) /\ sell_summary pd = Some (s :: ss) /\
    pricePerUnit b = Some pb /\ pricePerUnit s = Some ps /\
    (min_price <= pb)%Q /\ (min_price <= ps)%Q.

(** The normalized product the filter emits for an accepted item. *)
Definition normalized (now : datetime) (pid : string) (pd : product_data) : product_info :=
  {| product_id := pid;
     timestamp := now;
     buy_orders := firstn 5 (get (buy_summary pd) []);
     sell_orders := firstn 5 (get (sell_summary pd) []) |}.

(** One side of a product is absent or empty. *)
Definition one_sided (pd : product_data) : Prop :=
  get (buy_summary pd) [] = [] \/ get (sell_summary pd) [] = [].

(** Both sides are present and the best level of one lacks its price. *)
Definition unpriced (pd : product_data) : Prop :=
  exists b bs s ss,
    buy_summary pd = Some (b :: bs) /\ sell_summary pd = Some (s :: ss) /\
    (pricePerUnit b = None \/ pricePerUnit s = None).

(** The levels a snapshot row of side [sd] is taken from. *)
Definition summary_of (sd : side) (pd : product_data) : list level :=
  match sd with
  | BUY => get (buy_summary pd) []
  | SELL => get (sell_summary pd) []
  end.

Definition orders_of (sd : side) (p : product_info) : list level :=
  match sd with
  | BUY => buy_orders p
  | SELL => sell_orders p
  end.

(** Row [r] records the level at position [rank - 1] of [levels]. *)
Definition records_level (levels : list level) (r : Snap.row) : Prop :=
  exists l q,
    nth_error levels (Z.to_nat (Snap.rank r - 1)) = Some l /\
    pricePerUnit l = Some q /\ Snap.price r = round_hundredths q /\
    amount l = Some (Snap.amount r) /\ orders l = Some (Snap.orders r).

(** Parameter row [r] was built from product [p] (lines 136-156). *)
Definition built_from (p : product_info) (r : params) : Prop :=
  p_product_id r = product_id p /\ p_timestamp r = timestamp p /\ 1 <= p_rank r /\
  exists l,
    nth_error (orders_of (p_side r) p) (Z.to_nat (p_rank r - 1)) = Some l /\
    pricePerUnit l = Some (p_price r) /\ amount l = Some (p_amount r) /\
    orders l = Some (p_orders r).

(** Snapshot row [r] was written for product [p]. *)
Definition written_for (p : product_info) (r : Snap.row) : Prop :=
  to_varchar 50 "product_id" (product_id p) = Ok (Snap.product_id r) /\
  Snap.timestamp r = timestamp p /\ 1 <= Snap.rank r /\
  records_level (orders_of (Snap.side r) p) r.

(** psycopg2 can send the text as a statement parameter: it holds no NUL. *)
Definition sendable (text : string) : Prop := has_nul text = false.

(** A fetched response whose products dict has the given items. *)
Definition batch (items : list (string * product_data)) : option bazaar :=
  Some {| products := Some items |}.

(** *** Sample inputs *)

Definition lvl (price : Q) (amt : Z) (n : Z) : level :=
  {| pricePerUnit := Some price; amount := Some amt; orders := Some n |}.

(** Six levels on the buy side, two on the sell side. *)
Definition deep_book : product_data :=
  {| buy_summary := Some [lvl (105 # 10) 100 3; lvl (104 # 10) 50 2; lvl (103 # 10) 25 1;
                          lvl (102 # 10) 10 1; lvl (101 # 10) 5 1; lvl (10 # 1) 1 1];
     sell_summary := Some [lvl (11 # 1) 40 2; lvl (112 # 10) 20 1] |}.

(** Best buy price 0.5, under the threshold. *)
Definition cheap_book : product_data :=
  {| buy_summary := Some [lvl (5 # 10) 1000 4];
     sell_summary := Some [lvl (9 # 10) 10 1] |}.

(** No [sell_summary] key at all. *)
Definition buy_only_book : product_data :=
  {| buy_summary := Some [lvl (3 # 1) 7 1]; sell_summary := None |}.

(** The best buy level has no [pricePerUnit] key. *)
Definition unpriced_book : product_data :=
  {| buy_summary := Some [{| pricePerUnit := None; amount := Some 8; orders := Some 1 |}];
     sell_summary := Some [lvl (4 # 1) 6 1] |}.

Definition sample_items : list (string * product_data) :=
  [("DIAMOND", deep_book); ("DIRT", cheap_book); ("WHEAT", buy_only_book)].

(** One level on each side, both above the threshold. *)
Definition thin_book : product_data :=
  {| buy_summary := Some [lvl (2 # 1) 30 1]; sell_summary := Some [lvl (25 # 10) 10 1] |}.

(** Two products the filter keeps, around one it drops. *)
Definition two_liquid_items : list (string * product_data) :=
  [("DIAMOND", deep_book); ("DIRT", cheap_book); ("EMERALD", thin_book)].

(** A clock that shows 7 at its first reading and one microsecond more
    at each later one. *)
Definition ticking : Clocked.clock := fun n => 7 + Z.of_nat n.

Definition empty_db : DB := {| order_book_snapshot := []; candles := [] |}.

(** A product id with a NUL character in it. *)
Definition nul_id : string := String "000"%char "COAL".

(** U+0663 ARABIC-INDIC DIGIT THREE, U+00A0 NO-BREAK SPACE and U+00B2
    SUPERSCRIPT TWO, in UTF-8. *)
Definition arabic_indic_three : string := String "217"%char (String "163"%char "").
Definition no_break_space : string := String "194"%char (String "160"%char "").
Definition superscript_two : string := String "194"%char (String "178"%char "").

(** The empty store after the sample product was stored. *)
Definition diamond_db : DB :=
  Eval vm_compute in
    match store_order_book_snapshot [normalized 7 "DIAMOND" deep_book] empty_db with
    | Ok d => d
    | Raise _ => empty_db
    end.

(** The empty store after the two kept products of [two_liquid_items]
    were stored with capture timestamp 7. *)
Definition two_product_db : DB :=
  Eval vm_compute in
    match store_order_book_snapshot
            [normalized 7 "DIAMOND" deep_book; normalized 7 "EMERALD" thin_book] empty_db with
    | Ok d => d
    | Raise _ => empty_db
    end.

(** *** Keys *)

Definition snap_key (r : Snap.row) : string * datetime * side * Z :=
  (Snap.product_id r, Snap.timestamp r, Snap.side r, Snap.rank r).

(** The primary key of [order_book_snapshot] holds. *)
Definition snap_keys_unique (tbl : list Snap.row) : Prop := NoDup (map snap_key tbl).

(** Number of rows of the table stored under the key of [r]. *)
Definition rows_with_key (r : Snap.row) (tbl : list Snap.row) : nat :=
  List.length (filter (Snap.same_key r) tbl).

Definition candle_key (c : Candle.row) : string * datetime :=
  (Candle.product_id c, Candle.timestamp c).

(** The unique constraint of [candles] holds. *)
Definition candle_keys_unique (tbl : list Candle.row) : Prop := NoDup (map candle_key tbl).

Definition candles_with_key (pid : string) (ts : datetime) (tbl : list Candle.row) : nat :=
  List.length (filter (fun c => String.eqb (Candle.product_id c) pid
                                && (Candle.timestamp c =? ts)) tbl).

(** *** Windows and candles *)

(** The rank-1 snapshots of one side of a product at or after the cutoff,
    in table order. *)
Definition window (pid : string) (cutoff_time : datetime) (sd : side)
           (tbl : list Snap.row) : list Snap.row :=
  filter (top_of_book pid cutoff_time sd) tbl.

Definition total_amount (rows : list Snap.row) : Z :=
  fold_right (fun r acc => Snap.amount r + acc) 0 rows.

Definition earliest (e : Snap.row) (rows : list Snap.row) : Prop :=
  In e rows /\ forall r, In r rows -> Snap.timestamp e <= Snap.timestamp r.

Definition latest (e : Snap.row) (rows : list Snap.row) : Prop :=
  In e rows /\ forall r, In r rows -> Snap.timestamp r <= Snap.timestamp e.

Definition highest_price (h : Z) (rows : list Snap.row) : Prop :=
  (exists r, In r rows /\ Snap.price r = h) /\
  forall r, In r rows -> Snap.price r <= h.

Definition lowest_price (h : Z) (rows : list Snap.row) : Prop :=
  (exists r, In r rows /\ Snap.price r = h) /\
  forall r, In r rows -> h <= Snap.price r.

(** Last element of a list. *)
Fixpoint last_opt {A : Type} (l : list A) : option A :=
  match l with
  | [] => None
  | [x] => Some x
  | _ :: l' => last_opt l'
  end.

(** One step of the aggregate fold once a first value is known. *)
Definition agg_next (op : Z -> Z -> Z) (acc : Z) (x : option Z) : Z :=
  match x with
  | Some b => op acc b
  | None => acc
  end.

(** Rows in ascending order of [key]. *)
Definition key_le {A : Type} (key : A -> Z) (a b : A) : Prop := key a <= key b.

(** The body of the candle loop for one product (lines 194-257): the row
    it upserts, or [None] when it takes the [continue] of line 224. *)
Definition product_candle (cutoff_time : datetime) (snaps : list Snap.row) (pid : string)
  : result (option Candle.row) :=
  let result := ohlc_query pid cutoff_time snaps in
  match first_timestamp result with
  | None => Ok None
  | Some _ =>
      c <- candle_row pid (last_timestamp result) result
                      (sell_volume_query pid cutoff_time snaps) ;;
      Ok (Some c)
  end.

(** The rows one pass upserts, in loop order. *)
Fixpoint pass_candles (cutoff_time : datetime) (snaps : list Snap.row)
         (products : list string) : result (list Candle.row) :=
  match products with
  | [] => Ok []
  | pid :: products' =>
      oc <- product_candle cutoff_time snaps pid ;;
      cs <- pass_candles cutoff_time snaps products' ;;
      Ok (match oc with
          | Some c => c :: cs
          | None => cs
          end)
  end.

Definition upsert_all (cs : list Candle.row) (tbl : list Candle.row) : list Candle.row :=
  fold_left (fun t c => upsert c t) cs tbl.

(** The row stored under the key of [c], if any. *)
Definition stored (c : Candle.row) (tbl : list Candle.row) : option Candle.row :=
  find (fun r => Candle.same_key r c) tbl.

(** The candles of one product. *)
Definition candles_of (pid : string) (tbl : list Candle.row) : list Candle.row :=
  filter (fun c => String.eqb (Candle.product_id c) pid) tbl.

(** *** A sample store

    Product X has BUY rank-1 snapshots at three instants inside the last
    minute, with prices 10, 14, 9 and amounts 100, 50, 25, a deeper BUY
    level, and one snapshot older than the cutoff; product Y has only a
    SELL rank-1 snapshot inside the window. *)

Definition sample_now : datetime := 63000000000000000.
Definition sample_t1 : datetime := sample_now - 50000000.
Definition sample_t2 : datetime := sample_now - 30000000.
Definition sample_t3 : datetime := sample_now - 10000000.
Definition sample_old : datetime := sample_now - 90000000.

Definition sample_snapshots : list Snap.row :=
  [ Snap.mk "X" sample_old BUY 1 2000 7 1;
    Snap.mk "X" sample_t2 BUY 1 1400 50 2;
    Snap.mk "X" sample_t1 BUY 1 1000 100 3;
    Snap.mk "X" sample_t1 BUY 2 990 400 5;
    Snap.mk "Y" sample_t2 SELL 1 500 30 1;
    Snap.mk "X" sample_t3 BUY 1 900 25 1 ].

Definition sample_db : DB :=
  {| order_book_snapshot := sample_snapshots; candles := [] |}.

Definition sample_candle : Candle.row :=
  {| Candle.product_id := "X"; Candle.timestamp := sample_t3;
     Candle.open := Some 1000; Candle.high := Some 1400; Candle.low := Some 900;
     Candle.close := Some 900; Candle.buy_volume := Some 175;
     Candle.sell_volume := Some 0 |}.

Definition sample_pass : pass :=
  {| committed := {| order_book_snapshot := tl sample_snapshots;
                     candles := [sample_candle] |};
     candles_created := 1;
     deleted_rows := 1 |}.

(** *** The read service *)

(** The cutoff a candles request asks for (api.py lines 41 and 49). *)
Definition requested_cutoff (now : datetime) (args : Api.candles_args) : result datetime :=
  hours <- match Api.arg_hours args with
           | Some text => int text
           | None => Ok 1
           end ;;
  delta <- timedelta_hours hours ;;
  datetime_sub now delta.

(** The [hours] argument is absent or is a text that [int] reads. *)
Definition hours_readable (args : Api.candles_args) : Prop :=
  match Api.arg_hours args with
  | Some text => exists h, parse_int text = Some h
  | None => True
  end.

Definition unreachable (s : Api.store) : Prop :=
  match s with
  | Api.Unreachable _ => True
  | Api.Reachable _ => False
  end.

Definition bad_request : Api.response :=
  {| Api.status := 400; Api.payload := Api.ErrorOnly (Api.Text "Product parameter required") |}.

(** *** When the code returns *)

(** Wherever a product has a level on both sides, both best levels carry
    a price: the filter's lookups then succeed. *)
Definition priced (items : list (string * product_data)) : Prop :=
  forall pid pd b bs s ss,
    In (pid, pd) items ->
    buy_summary pd = Some (b :: bs) -> sell_summary pd = Some (s :: ss) ->
    (exists pb, pricePerUnit b = Some pb) /\ (exists ps, pricePerUnit s = Some ps).

Definition in_bigint (v : Z) : Prop := bigint_min <= v <= bigint_max.

(** The volumes a pass with this cutoff sums fit the BIGINT columns of
    [candles]: its upserts then succeed. *)
Definition volumes_fit (cutoff_time : datetime) (snaps : list Snap.row) : Prop :=
  forall pid sd, in_bigint (total_amount (window pid cutoff_time sd snaps)).

(** Sum of the absolute amounts of a table: a bound on every window sum. *)
Definition gross_amount (tbl : list Snap.row) : Z :=
  fold_right (fun r acc => Z.abs (Snap.amount r) + acc) 0 tbl.

(** *** Vocabulary of the further properties *)

(** The test the filter loop applies to one product whose best levels
    carry prices (lines 98-105). *)
Definition accepted (pd : product_data) : bool :=
  match get (buy_summary pd) [], get (sell_summary pd) [] with
  | b :: _, s :: _ =>
      match pricePerUnit b, pricePerUnit s with
      | Some pb, Some ps => negb (Qltb pb min_price || Qltb ps min_price)
      | _, _ => false
      end
  | _, _ => false
  end.

(** A level carries the three fields the store reads. *)
Definition complete (l : level) : Prop :=
  exists q a o, pricePerUnit l = Some q /\ amount l = Some a /\ orders l = Some o.

(** Ranks [1 .. n]. *)
Definition ranks (n : nat) : list Z := map Z.of_nat (seq 1 n).

(** The (product, side, rank) triples of the rows built for one product. *)
Definition product_slots (p : product_info) : list (string * side * Z) :=
  map (fun k => (product_id p, BUY, k)) (ranks (List.length (buy_orders p))) ++
  map (fun k => (product_id p, SELL, k)) (ranks (List.length (sell_orders p))).

(** A level whose three fields are present and fit their columns. *)
Definition storable_level (l : level) : Prop :=
  exists q a o,
    pricePerUnit l = Some q /\ amount l = Some a /\ orders l = Some o /\
    Z.abs (round_hundredths q) < 10 ^ 15 /\ in_bigint a /\ int_min <= o <= int_max.

(** A product every row of which psycopg2 sends and the snapshot table
    accepts. *)
Definition storable (p : product_info) : Prop :=
  sendable (product_id p) /\
  (String.length (product_id p) <= 50)%nat /\
  Forall storable_level (buy_orders p) /\ Forall storable_level (sell_orders p) /\
  Z.of_nat (List.length (buy_orders p)) <= int_max /\
  Z.of_nat (List.length (sell_orders p)) <= int_max.

Definition slot (r : params) : string * side * Z := (p_product_id r, p_side r, p_rank r).

(** The product has a BUY rank-1 snapshot at or after the cutoff. *)
Definition has_buy_window (cutoff_time : datetime) (snaps : list Snap.row) (pid : string)
  : bool :=
  match window pid cutoff_time BUY snaps with
  | [] => false
  | _ :: _ => true
  end.

(** No column of the candle is NULL and low <= open, close <= high. *)
Definition candle_sound (c : Candle.row) : Prop :=
  exists o h l cl bv sv,
    Candle.open c = Some o /\ Candle.high c = Some h /\ Candle.low c = Some l /\
    Candle.close c = Some cl /\ Candle.buy_volume c = Some bv /\
    Candle.sell_volume c = Some sv /\ l <= o <= h /\ l <= cl <= h.

(** The sums of every product that gets a candle fit BIGINT. *)
Definition buyers_fit (cutoff_time : datetime) (snaps : list Snap.row) : Prop :=
  forall pid,
    window pid cutoff_time BUY snaps <> [] ->
    in_bigint (total_amount (window pid cutoff_time BUY snaps)) /\
    in_bigint (total_amount (window pid cutoff_time SELL snaps)).

(** *** Vocabulary of the read service *)

(** No column of the candle is NULL. *)
Definition candle_filled (c : Candle.row) : bool :=
  match Candle.open c, Candle.high c, Candle.low c, Candle.close c,
        Candle.buy_volume c, Candle.sell_volume c with
  | Some _, Some _, Some _, Some _, Some _, Some _ => true
  | _, _, _, _, _, _ => false
  end.

(** The JSON object the candles endpoint builds from a filled row. *)
Definition candle_view (c : Candle.row) : Api.candle_json :=
  {| Api.j_timestamp := Candle.timestamp c;
     Api.j_open := get (Candle.open c) 0;
     Api.j_high := get (Candle.high c) 0;
     Api.j_low := get (Candle.low c) 0;
     Api.j_close := get (Candle.close c) 0;
     Api.j_buy_volume := get (Candle.buy_volume c) 0;
     Api.j_sell_volume := get (Candle.sell_volume c) 0 |}.

(** The candles of a product at or after a cutoff. *)
Definition candle_matches (product : string) (cutoff_time : datetime) (c : Candle.row) : Prop :=
  Candle.product_id c = product /\ cutoff_time <= Candle.timestamp c.

(** The traces of a request that reached the store and closed it. *)
Definition one_query_trace (t : list Api.op) : Prop :=
  exists statement, t = [Api.Connect; Api.Execute statement; Api.Close].


(** Order-book JSON [j] shows raw level [l] as the store rounds it. *)
Definition level_shown (l : level) (j : Api.order_json) : Prop :=
  exists q,
    pricePerUnit l = Some q /\ Api.j_price j = round_hundredths q /\
    amount l = Some (Api.j_amount j) /\ orders l = Some (Api.j_orders j).

(** The [WHERE] clause of the two order-book queries. *)
Definition book_side (product : string) (latest_time : datetime) (sd : side)
           (r : Snap.row) : bool :=
  String.eqb (Snap.product_id r) product
  && (Snap.timestamp r =? latest_time)
  && side_eqb (Snap.side r) sd.

(** The rows a batch of parameter tuples becomes, one per tuple. *)
Fixpoint snapshot_rows (rows : list params) : result (list Snap.row) :=
  match rows with
  | [] => Ok []
  | p :: rows' =>
      r <- snapshot_row p ;;
      rs <- snapshot_rows rows' ;;
      Ok (r :: rs)
  end.

Definition key_lt {A : Type} (key : A -> Z) (a b : A) : Prop := key a < key b.

(** *** A fresh batch on the sample store *)

Definition fresh_product : product_info :=
  normalized (sample_now - 5000000) "DIAMOND" deep_book.

(** The sample store after the fresh product was stored. *)
Definition fresh_db : DB :=
  Eval vm_compute in
    match store_order_book_snapshot [fresh_product] sample_db with
    | Ok d => d
    | Raise _ => sample_db
    end.

(** The pass that follows on it. *)
Definition fresh_pass : pass :=
  Eval vm_compute in
    match generate_candles sample_now 1 fresh_db with
    | Ok r => r
    | Raise _ => sample_pass
    end.

(** * Proofs *)

Unset Implicit Arguments.

(** ** The [result] monad *)

Lemma bind_Ok A B (m : result A) (k : A -> result B) (b : B) :
  bind m k = Ok b -> exists a, m = Ok a /\ k a = Ok b.
Proof.
  destruct m as [a | e]; simpl; intros H; [eauto | discriminate].
Qed.

Ltac ok_inv H :=
  let a := fresh "v" in
  let Ha := fresh "Hv" in
  apply bind_Ok in H; destruct H as (a & Ha & H).

Lemma getitem_Ok A key (field : option A) v :
  getitem key field = Ok v -> field = Some v.
Proof.
  destruct field; simpl; intros H; inversion H; reflexivity.
Qed.

Lemma Qltb_false x y : Qltb x y = false <-> (y <= x)%Q.
Proof.
  unfold Qltb. rewrite negb_false_iff. apply Qle_bool_iff.
Qed.

(** ** The runtime model on small inputs *)

Example int_examples :
  parse_int " 24 " = Some 24 /\ parse_int "-7" = Some (-7) /\
  parse_int "1_000" = Some 1000 /\ parse_int "007" = Some 7 /\
  parse_int "" = None /\ parse_int "abc" = None /\ parse_int "1.5" = None /\
  parse_int "1__0" = None /\ parse_int "_1" = None /\ parse_int "+ 5" = None.
Proof.
  repeat split; reflexivity.
Qed.

(** Beyond ASCII: an Arabic-Indic digit is read, a no-break space is
    skipped, a superscript digit is not a decimal digit; the separators
    U+001C .. U+001F are not skipped. *)
Example int_unicode_examples :
  parse_int arabic_indic_three = Some 3 /\
  parse_int ("1" ++ arabic_indic_three)%string = Some 13 /\
  parse_int (no_break_space ++ "-5" ++ no_break_space)%string = Some (-5) /\
  parse_int superscript_two = None /\
  parse_int (String "028"%char "5") = None /\
  parse_int (arabic_indic_three ++ "x")%string = None.
Proof.
  repeat split; reflexivity.
Qed.

Example decimal_examples :
  round_hundredths (105 # 10) = 1050 /\ round_hundredths (1005 # 1000) = 101 /\
  round_hundredths (- 1005 # 1000) = -101 /\ round_hundredths (1004 # 1000) = 100 /\
  to_decimal_15_2 "price" (10000000000000 # 1) = Raise (DataError "price").
Proof.
  repeat split; reflexivity.
Qed.

Example timedelta_examples :
  timedelta_minutes 1 = Ok 60000000 /\
  timedelta_hours (24 * 999999999 + 23) = Ok ((24 * 999999999 + 23) * 3600 * 1000000) /\
  timedelta_hours (24 * 1000000000) = Raise OverflowError /\
  datetime_sub 5 60000000 = Raise OverflowError.
Proof.
  repeat split; reflexivity.
Qed.

Example varchar_examples :
  to_varchar 3 "c" "abc" = Ok "abc" /\ to_varchar 3 "c" "abc  " = Ok "abc" /\
  to_varchar 3 "c" "abcd" = Raise (DataError "c") /\
  to_varchar 3 "c" (arabic_indic_three ++ arabic_indic_three ++ arabic_indic_three)%string =
    Ok (arabic_indic_three ++ arabic_indic_three ++ arabic_indic_three)%string /\
  to_varchar 2 "c" (arabic_indic_three ++ "a  ")%string =
    Ok (arabic_indic_three ++ "a")%string /\
  to_varchar 50 "c" nul_id = Raise (DataError "c").
Proof.
  repeat split; reflexivity.
Qed.

(** ** filter_and_extract_products *)

Lemma filter_loop_spec now items :
  forall acc out,
    filter_loop now items acc = Ok out ->
    exists kept,
      out = acc ++ kept /\
      forall p, In p kept <->
                exists pid pd, In (pid, pd) items /\ liquid pd /\ p = normalized now pid pd.
Proof.
  induction items as [| [pid pd] items IH]; intros acc out H; simpl in H.
  - inversion H; subst. exists []. rewrite app_nil_r. split; [reflexivity |].
    intros p; split; [intros [] | intros (? & ? & [] & _)].
  - assert (Hskip : ~ liquid pd ->
              filter_loop now items acc = Ok out ->
              exists kept,
                out = acc ++ kept /\
                forall p, In p kept <->
                          exists pid0 pd0, In (pid0, pd0) ((pid, pd) :: items) /\
                                           liquid pd0 /\ p = normalized now pid0 pd0).
    { intros Hn H'. destruct (IH _ _ H') as (kept & -> & Hk).
      exists kept. split; [reflexivity |]. intros p. rewrite Hk. split.
      - intros (pid0 & pd0 & Hin & Hl & ->). exists pid0, pd0. simpl. auto.
      - intros (pid0 & pd0 & [Heq | Hin] & Hl & ->).
        + inversion Heq; subst. contradiction.
        + eauto. }
    destruct (buy_summary pd) as [[| b bs] |] eqn:Eb; simpl in H;
      try (apply Hskip; [intros (? & ? & ? & ? & ? & ? & Hb & _); congruence | exact H]).
    destruct (sell_summary pd) as [[| s ss] |] eqn:Es; simpl in H;
      try (apply Hskip; [intros (? & ? & ? & ? & ? & ? & _ & Hs & _); congruence | exact H]).
    ok_inv H. apply getitem_Ok in Hv. ok_inv H. apply getitem_Ok in Hv0.
    destruct (Qltb v min_price) eqn:Qb; simpl in H.
    { apply Hskip; [| exact H].
      intros (b' & ? & s' & ? & pb & ps & Hb & Hs & Hpb & Hps & Hlb & Hls).
      rewrite Eb in Hb. inversion Hb; subst. rewrite Hv in Hpb. inversion Hpb; subst.
      apply Qltb_false in Hlb. congruence. }
    destruct (Qltb v0 min_price) eqn:Qs; simpl in H.
    { apply Hskip; [| exact H].
      intros (b' & ? & s' & ? & pb & ps & Hb & Hs & Hpb & Hps & Hlb & Hls).
      rewrite Es in Hs. inversion Hs; subst. rewrite Hv0 in Hps. inversion Hps; subst.
      apply Qltb_false in Hls. congruence. }
    destruct (IH _ _ H) as (kept & -> & Hk).
    assert (Hl : liquid pd).
    { exists b, bs, s, ss, v, v0. rewrite Qltb_false in Qb, Qs. auto 10. }
    assert (Hn : normalized now pid pd =
                 {| product_id := pid; timestamp := now;
                    buy_orders := firstn 5 (b :: bs);
                    sell_orders := firstn 5 (s :: ss) |}).
    { unfold normalized. rewrite Eb, Es. reflexivity. }
    exists (normalized now pid pd :: kept). split.
    + rewrite Hn, <- app_assoc. reflexivity.
    + intros p. simpl. rewrite Hk. split.
      * intros [<- | (pid0 & pd0 & Hin & Hl0 & ->)]; eauto 8.
      * intros (pid0 & pd0 & [Heq | Hin] & Hl0 & ->).
        -- inversion Heq; subst. auto.
        -- right. eauto.
Qed.

Lemma filter_output_In now data out :
  filter_and_extract_products now data = Ok out ->
  forall p, In p out <->
            exists pid pd, In (pid, pd) (items_of data) /\ liquid pd /\
                           p = normalized now pid pd.
Proof.
  unfold filter_and_extract_products, items_of. intros H p.
  destruct data as [[[items |]] |]; simpl in *.
  - destruct (filter_loop_spec _ _ _ _ H) as (kept & -> & Hk). simpl. apply Hk.
  - inversion H; subst. split; [intros [] | intros (? & ? & [] & _)].
  - inversion H; subst. split; [intros [] | intros (? & ? & [] & _)].
Qed.

(** ** store_order_book_snapshot *)

Lemma side_rows_spec pid ts sd levels :
  forall start rows,
    side_rows pid ts sd (enumerate levels start) = Ok rows ->
    forall r, In r rows ->
      p_product_id r = pid /\ p_timestamp r = ts /\ p_side r = sd /\ start <= p_rank r /\
      exists l,
        nth_error levels (Z.to_nat (p_rank r - start)) = Some l /\
        pricePerUnit l = Some (p_price r) /\ amount l = Some (p_amount r) /\
        orders l = Some (p_orders r).
Proof.
  induction levels as [| l levels IH]; intros start rows H r Hin; simpl in H.
  - inversion H; subst. destruct Hin.
  - ok_inv H. ok_inv H. ok_inv H. ok_inv H. inversion H; subst; clear H.
    apply getitem_Ok in Hv, Hv0, Hv1.
    destruct Hin as [<- | Hin]; simpl.
    + repeat split; try lia. exists l. rewrite Z.sub_diag. simpl. auto.
    + destruct (IH _ _ Hv2 _ Hin) as (Hp & Ht & Hs & Hr & l' & Hn & Hf).
      repeat split; auto; try lia. exists l'. split; [| exact Hf].
      replace (p_rank r - start) with (Z.succ (p_rank r - (start + 1))) by lia.
      rewrite Z2Nat.inj_succ by lia. exact Hn.
Qed.

Lemma build_rows_spec products :
  forall rows,
    build_rows products = Ok rows ->
    forall r, In r rows -> exists p, In p products /\ built_from p r.
Proof.
  induction products as [| p products IH]; intros rows H r Hin; simpl in H.
  - inversion H; subst. destruct Hin.
  - ok_inv H. ok_inv H. ok_inv H. inversion H; subst; clear H.
    rewrite !in_app_iff in Hin. destruct Hin as [Hin | [Hin | Hin]].
    + destruct (side_rows_spec _ _ _ _ _ _ Hv _ Hin) as (Hp & Ht & Hs & Hr & l & Hn & Hf).
      exists p. split; [left; reflexivity |].
      unfold built_from. rewrite Hs. simpl. eauto 10.
    + destruct (side_rows_spec _ _ _ _ _ _ Hv0 _ Hin) as (Hp & Ht & Hs & Hr & l & Hn & Hf).
      exists p. split; [left; reflexivity |].
      unfold built_from. rewrite Hs. simpl. eauto 10.
    + destruct (IH _ Hv1 _ Hin) as (p' & Hp' & Hb). exists p'. simpl. auto.
Qed.

Lemma to_bigint_Ok column v w : to_bigint column v = Ok w -> w = v.
Proof.
  unfold to_bigint. destruct (_ && _); intros H; inversion H; reflexivity.
Qed.

Lemma to_int_Ok column v w : to_int column v = Ok w -> w = v.
Proof.
  unfold to_int. destruct (_ && _); intros H; inversion H; reflexivity.
Qed.

Lemma to_decimal_Ok column q h : to_decimal_15_2 column q = Ok h -> h = round_hundredths q.
Proof.
  unfold to_decimal_15_2. destruct (_ <? _); intros H; inversion H; reflexivity.
Qed.

Lemma snapshot_row_spec p r :
  snapshot_row p = Ok r ->
  to_varchar 50 "product_id" (p_product_id p) = Ok (Snap.product_id r) /\
  Snap.timestamp r = p_timestamp p /\ Snap.side r = p_side p /\
  Snap.rank r = p_rank p /\ Snap.price r = round_hundredths (p_price p) /\
  Snap.amount r = p_amount p /\ Snap.orders r = p_orders p.
Proof.
  unfold snapshot_row. intros H.
  ok_inv H. ok_inv H. ok_inv H. ok_inv H. ok_inv H. inversion H; subst; clear H. simpl.
  apply to_int_Ok in Hv0, Hv3. apply to_bigint_Ok in Hv2. apply to_decimal_Ok in Hv1.
  subst. auto 10.
Qed.

(** *** execute_batch: pages *)

Lemma mogrify_page_Ok page :
  forall sqls,
    mogrify_page page = Ok sqls ->
    sqls = page /\ Forall (fun p => sendable (p_product_id p)) page.
Proof.
  induction page as [| p page IH]; intros sqls H; simpl in H.
  - inversion H. split; [reflexivity | constructor].
  - ok_inv H. ok_inv H. inversion H; subst; clear H.
    unfold mogrify in Hv. destruct (has_nul (p_product_id p)) eqn:E; [discriminate |].
    inversion Hv; subst. destruct (IH _ Hv0) as (-> & Hall).
    split; [reflexivity | constructor; [exact E | exact Hall]].
Qed.

Lemma mogrify_page_sendable page :
  Forall (fun p => sendable (p_product_id p)) page -> mogrify_page page = Ok page.
Proof.
  induction 1 as [| p page Hp _ IH]; simpl; [reflexivity |].
  unfold mogrify. unfold sendable in Hp. rewrite Hp. simpl. rewrite IH. reflexivity.
Qed.

Lemma mogrify_page_raises page :
  forall e, mogrify_page page = Raise e ->
            exists p, In p page /\ has_nul (p_product_id p) = true /\
                      e = ValueError (p_product_id p).
Proof.
  induction page as [| p page IH]; intros e H; simpl in H; [discriminate |].
  unfold mogrify in H. destruct (has_nul (p_product_id p)) eqn:E; simpl in H.
  - inversion H; subst. exists p. simpl. auto.
  - destruct (mogrify_page page) as [sqls | e'] eqn:Em; simpl in H; [discriminate |].
    inversion H; subst. destruct (IH _ eq_refl) as (q & Hq & Hn & He).
    exists q. simpl. auto.
Qed.

Lemma execute_page_app a :
  forall b tbl, execute_page (a ++ b) tbl = bind (execute_page a tbl) (execute_page b).
Proof.
  induction a as [| p a IH]; intros b tbl; simpl; [reflexivity |].
  destruct (insert_snapshot p tbl) as [tbl' | e]; simpl; [apply IH | reflexivity].
Qed.

Lemma paginate_from_concat page_size rows :
  forall room page, List.concat (paginate_from page_size room page rows) = rev page ++ rows.
Proof.
  induction rows as [| p rows IH]; intros room page; simpl.
  - destruct page; simpl; rewrite ?app_nil_r; reflexivity.
  - destruct room as [| room']; simpl; rewrite IH; simpl; rewrite <- ?app_assoc; reflexivity.
Qed.

Lemma paginate_concat rows page_size : List.concat (paginate rows page_size) = rows.
Proof.
  unfold paginate. rewrite paginate_from_concat. reflexivity.
Qed.

Lemma execute_pages_Ok pages :
  forall tbl tbl1,
    execute_pages pages tbl = Ok tbl1 ->
    execute_page (List.concat pages) tbl = Ok tbl1 /\
    Forall (fun p => sendable (p_product_id p)) (List.concat pages).
Proof.
  induction pages as [| page pages IH]; intros tbl tbl1 H; simpl in H.
  - inversion H. split; [reflexivity | constructor].
  - ok_inv H. ok_inv H. destruct (mogrify_page_Ok _ _ Hv) as (-> & Hpage).
    destruct (IH _ _ H) as (Hrest & Hall). simpl. split.
    + rewrite execute_page_app, Hv0. exact Hrest.
    + apply Forall_app. auto.
Qed.

Lemma execute_pages_sendable pages :
  Forall (fun p => sendable (p_product_id p)) (List.concat pages) ->
  forall tbl, execute_pages pages tbl = execute_page (List.concat pages) tbl.
Proof.
  induction pages as [| page pages IH]; intros Hall tbl; simpl; [reflexivity |].
  simpl in Hall. apply Forall_app in Hall. destruct Hall as (Hpage & Hrest).
  rewrite (mogrify_page_sendable _ Hpage), execute_page_app. simpl.
  destruct (execute_page page tbl) as [tbl' | e]; simpl; [apply IH, Hrest | reflexivity].
Qed.

(** A batch that is stored passed the adaptation of every row, and the
    table is what the statements give one after the other. *)
Lemma execute_batch_Ok rows tbl tbl1 :
  execute_batch rows tbl = Ok tbl1 ->
  execute_page rows tbl = Ok tbl1 /\ Forall (fun p => sendable (p_product_id p)) rows.
Proof.
  unfold execute_batch. intros H. apply execute_pages_Ok in H.
  rewrite paginate_concat in H. exact H.
Qed.

Lemma execute_batch_sendable rows tbl :
  Forall (fun p => sendable (p_product_id p)) rows ->
  execute_batch rows tbl = execute_page rows tbl.
Proof.
  intros Hall. unfold execute_batch.
  rewrite execute_pages_sendable; rewrite paginate_concat; [reflexivity | exact Hall].
Qed.

Lemma execute_page_In rows :
  forall tbl tbl',
    execute_page rows tbl = Ok tbl' ->
    forall r, In r tbl' -> In r tbl \/ exists p, In p rows /\ snapshot_row p = Ok r.
Proof.
  induction rows as [| p rows IH]; intros tbl tbl' H r Hin; simpl in H.
  - inversion H; subst. auto.
  - ok_inv H. unfold insert_snapshot in Hv. ok_inv Hv. inversion Hv; subst; clear Hv.
    destruct (IH _ _ H _ Hin) as [Hold | (p' & Hp' & Hr)].
    + destruct (existsb _ tbl); [auto |].
      apply in_app_iff in Hold. destruct Hold as [Hold | [<- | []]]; [auto |].
      right. exists p. simpl. auto.
    + right. exists p'. simpl. auto.
Qed.

Lemma execute_batch_In rows tbl tbl' :
  execute_batch rows tbl = Ok tbl' ->
  forall r, In r tbl' -> In r tbl \/ exists p, In p rows /\ snapshot_row p = Ok r.
Proof.
  intros H. apply execute_batch_Ok in H. apply (execute_page_In _ _ _ (proj1 H)).
Qed.

Lemma store_written products db db' :
  store_order_book_snapshot products db = Ok db' ->
  candles db' = candles db /\
  forall r, In r (order_book_snapshot db') ->
            In r (order_book_snapshot db) \/ exists p, In p products /\ written_for p r.
Proof.
  unfold store_order_book_snapshot. intros H.
  destruct products as [| p0 products0] eqn:Ep.
  { inversion H; subst. auto. }
  rewrite <- Ep in *. clear Ep p0 products0.
  ok_inv H. ok_inv H. inversion H; subst; clear H. simpl. split; [reflexivity |].
  intros r Hin. destruct (execute_batch_In _ _ _ Hv0 _ Hin) as [Hold | (q & Hq & Hr)]; [auto |].
  right. destruct (build_rows_spec _ _ Hv _ Hq) as (p & Hp & Hpid & Hts & Hrk & l & Hn & Hpr & Ham & Hor).
  destruct (snapshot_row_spec _ _ Hr) as (Hvc & Ht & Hs & Hk & Hprice & Hamount & Horders).
  exists p. split; [exact Hp |]. unfold written_for, records_level.
  rewrite Ht, Hs, Hk, Hprice, Hamount, Horders, <- Hpid, <- Hts.
  repeat split; auto. exists l, (p_price q). auto.
Qed.

Lemma normalized_records sd now pid pd r :
  1 <= Snap.rank r ->
  records_level (orders_of sd (normalized now pid pd)) r ->
  Snap.rank r <= 5 /\ records_level (summary_of sd pd) r.
Proof.
  intros Hr (l & q & Hn & Hf).
  assert (Hn' : nth_error (firstn 5 (summary_of sd pd)) (Z.to_nat (Snap.rank r - 1)) = Some l)
    by (destruct sd; exact Hn).
  rewrite nth_error_firstn in Hn'.
  destruct (Nat.ltb_spec (Z.to_nat (Snap.rank r - 1)) 5) as [Hlt | Hge]; [| discriminate].
  split; [lia |]. exists l, q. auto.
Qed.

(** ** C4, C6, C8: the filter *)

Lemma filter_loop_total now items :
  priced items -> forall acc, exists out, filter_loop now items acc = Ok out.
Proof.
  induction items as [| [pid pd] items IH]; intros Hp acc; simpl; [eauto |].
  assert (Hp' : priced items).
  { intros pid0 pd0 b bs s ss Hin. apply (Hp pid0 pd0). right. exact Hin. }
  destruct (buy_summary pd) as [[| b bs] |] eqn:Eb; simpl; [apply IH, Hp' | | apply IH, Hp'].
  destruct (sell_summary pd) as [[| s ss] |] eqn:Es; simpl; [apply IH, Hp' | | apply IH, Hp'].
  destruct (Hp pid pd b bs s ss (or_introl eq_refl) Eb Es) as ((pb & ->) & (ps & ->)).
  simpl. destruct (_ || _); apply IH, Hp'.
Qed.

Lemma filter_total now data :
  priced (items_of data) -> exists out, filter_and_extract_products now data = Ok out.
Proof.
  unfold filter_and_extract_products, items_of.
  destruct data as [[[items |]] |]; simpl; eauto. intros Hp. apply filter_loop_total, Hp.
Qed.

(** C4.  On a raw map whose best levels carry prices the filter returns.
    Whenever it returns, its output lists exactly the products of the raw
    map that have a level on each side and whose best buy and best sell
    prices are both at least 0.7; every listed product carries at most
    five levels per side; and every snapshot row the store then writes for
    this output has a rank between 1 and 5 and records the level at that
    position of the product's raw summary. *)
Theorem filter_keeps_liquid_top5 now data :
  (priced (items_of data) -> exists out, filter_and_extract_products now data = Ok out) /\
  forall out,
  filter_and_extract_products now data = Ok out ->
  (forall pid,
      (exists p, In p out /\ product_id p = pid) <->
      (exists pd, In (pid, pd) (items_of data) /\ liquid pd)) /\
  (forall p, In p out ->
             (List.length (buy_orders p) <= 5)%nat /\
             (List.length (sell_orders p) <= 5)%nat) /\
  (forall db db' r,
      store_order_book_snapshot out db = Ok db' ->
      In r (order_book_snapshot db') -> ~ In r (order_book_snapshot db) ->
      1 <= Snap.rank r <= 5 /\
      exists pid pd, In (pid, pd) (items_of data) /\ liquid pd /\
                     records_level (summary_of (Snap.side r) pd) r).
Proof.
  split; [apply filter_total |].
  intros out H. pose proof (filter_output_In _ _ _ H) as Hin. split; [| split].
  - intros pid. split.
    + intros (p & Hp & <-). apply Hin in Hp. destruct Hp as (pid & pd & Hi & Hl & ->).
      exists pd. auto.
    + intros (pd & Hi & Hl). exists (normalized now pid pd). split; [| reflexivity].
      apply Hin. eauto.
  - intros p Hp. apply Hin in Hp. destruct Hp as (pid & pd & _ & _ & ->).
    unfold normalized. cbn [buy_orders sell_orders]. rewrite !length_firstn. lia.
  - intros db db' r Hs Hr Hnew. destruct (store_written _ _ _ Hs) as (_ & Hw).
    destruct (Hw _ Hr) as [Hold | (p & Hp & _ & _ & Hrk & Hrec)]; [contradiction |].
    apply Hin in Hp. destruct Hp as (pid & pd & Hi & Hl & ->).
    destruct (normalized_records _ _ _ _ _ Hrk Hrec) as (Hle & Hrec').
    split; [lia |]. exists pid, pd. auto.
Qed.

(** The sample batch: DIAMOND is kept with five of its six buy levels,
    DIRT (best buy 0.5) and WHEAT (no sell side) are dropped. *)
Lemma filter_keeps_liquid_top5_witness :
  filter_and_extract_products 7 (batch sample_items) = Ok [normalized 7 "DIAMOND" deep_book] /\
  forall p, In p [normalized 7 "DIAMOND" deep_book] ->
            (List.length (buy_orders p) <= 5)%nat /\
            (List.length (sell_orders p) <= 5)%nat.
Proof.
  split; [reflexivity |].
  exact (proj1 (proj2 (proj2 (filter_keeps_liquid_top5 7 (batch sample_items)) _ eq_refl))).
Defined.

(** The loop reads the clock at no iteration: it is the loop of the
    filter at the given timestamp, and the number of readings is as it
    was. *)
Lemma clocked_loop_reads_nothing c ts items :
  forall acc n, Clocked.filter_loop c ts items acc n = (filter_loop ts items acc, n).
Proof.
  induction items as [| [pid pd] items IH]; intros acc n; simpl; [reflexivity |].
  destruct (get (buy_summary pd) []) as [| b bs]; [apply IH |].
  destruct (get (sell_summary pd) []) as [| s ss]; [apply IH |].
  destruct (getitem "pricePerUnit" (pricePerUnit b)) as [pb | e]; simpl; [| reflexivity].
  destruct (getitem "pricePerUnit" (pricePerUnit s)) as [ps | e]; simpl; [| reflexivity].
  destruct (_ || _); apply IH.
Qed.

(** The filter reads the clock once when the response has a products
    dict and not at all otherwise; what it returns is what the filter
    gives for the instant of that reading. *)
Lemma clocked_filter_reads_once c data n :
  Clocked.filter_and_extract_products c data n =
  (filter_and_extract_products (c n) data,
   match data with
   | Some {| products := Some _ |} => S n
   | _ => n
   end).
Proof.
  unfold Clocked.filter_and_extract_products, filter_and_extract_products.
  destruct data as [[[items |]] |]; try reflexivity.
  unfold Clocked.tbind, Clocked.datetime_now. cbn [products].
  apply clocked_loop_reads_nothing.
Qed.

(** C8.  The clock moves on between readings, and the filter reads it at
    most once per fetch cycle, before its loop.  Any two products it
    emits carry the same capture timestamp, the instant of that one
    reading; so do any two parameter rows built from its output, and any
    two snapshot rows the store adds for it, whatever their products,
    sides and ranks. *)
Theorem one_capture_timestamp (c : Clocked.clock) (n n' : nat) data out :
  Clocked.filter_and_extract_products c data n = (Ok out, n') ->
  (n' <= S n)%nat /\
  filter_and_extract_products (c n) data = Ok out /\
  (forall p p', In p out -> In p' out -> timestamp p = timestamp p') /\
  (forall p, In p out -> n' = S n /\ timestamp p = c n) /\
  (forall rows r r',
      build_rows out = Ok rows -> In r rows -> In r' rows ->
      p_timestamp r = p_timestamp r' /\ p_timestamp r = c n) /\
  (forall db db' r r',
      store_order_book_snapshot out db = Ok db' ->
      In r (order_book_snapshot db') -> ~ In r (order_book_snapshot db) ->
      In r' (order_book_snapshot db') -> ~ In r' (order_book_snapshot db) ->
      Snap.timestamp r = Snap.timestamp r' /\ Snap.timestamp r = c n).
Proof.
  rewrite clocked_filter_reads_once. intros H. injection H as Hout Hn. subst n'.
  pose proof (filter_output_In _ _ _ Hout) as Hin.
  assert (Hts : forall p, In p out -> timestamp p = c n).
  { intros p Hp. apply Hin in Hp. destruct Hp as (pid & pd & _ & _ & ->). reflexivity. }
  assert (Hrows : forall rows r, build_rows out = Ok rows -> In r rows -> p_timestamp r = c n).
  { intros rows r Hb Hr. destruct (build_rows_spec _ _ Hb _ Hr) as (p & Hp & _ & Ht & _).
    rewrite Ht. auto. }
  assert (Hnew : forall db db' r,
             store_order_book_snapshot out db = Ok db' ->
             In r (order_book_snapshot db') -> ~ In r (order_book_snapshot db) ->
             Snap.timestamp r = c n).
  { intros db db' r Hs Hr Hfresh. destruct (store_written _ _ _ Hs) as (_ & Hw).
    destruct (Hw _ Hr) as [Hold | (p & Hp & _ & Ht & _)]; [contradiction |].
    rewrite Ht. auto. }
  split; [destruct data as [[[items |]] |]; lia |].
  split; [exact Hout |].
  split; [intros p p' Hp Hp'; rewrite (Hts p Hp), (Hts p' Hp'); reflexivity |].
  split; [| split].
  - intros p Hp. split; [| apply Hts, Hp].
    destruct data as [[[items |]] |]; [reflexivity | |];
      simpl in Hout; inversion Hout; subst out; destruct Hp.
  - intros rows r r' Hb Hr Hr'. rewrite (Hrows _ _ Hb Hr), (Hrows _ _ Hb Hr'). auto.
  - intros db db' r r' Hs Hr Hf Hr' Hf'.
    rewrite (Hnew _ _ _ Hs Hr Hf), (Hnew _ _ _ Hs Hr' Hf'). auto.
Qed.

(** A clock that shows a later instant at every reading, and a batch
    from which two products are kept: both carry the instant of the first
    reading, and so do the nine rows stored for them. *)
Lemma one_capture_timestamp_witness :
  Clocked.filter_and_extract_products ticking (batch two_liquid_items) 0%nat =
    (Ok [normalized 7 "DIAMOND" deep_book; normalized 7 "EMERALD" thin_book], 1%nat) /\
  ticking 1%nat <> ticking 0%nat /\
  (forall p p',
      In p [normalized 7 "DIAMOND" deep_book; normalized 7 "EMERALD" thin_book] ->
      In p' [normalized 7 "DIAMOND" deep_book; normalized 7 "EMERALD" thin_book] ->
      timestamp p = timestamp p') /\
  store_order_book_snapshot
    [normalized 7 "DIAMOND" deep_book; normalized 7 "EMERALD" thin_book] empty_db =
    Ok two_product_db /\
  List.length (order_book_snapshot two_product_db) = 9%nat /\
  (forall r r',
      In r (order_book_snapshot two_product_db) ->
      In r' (order_book_snapshot two_product_db) ->
      Snap.timestamp r = Snap.timestamp r' /\ Snap.timestamp r = 7).
Proof.
  assert (Hf : Clocked.filter_and_extract_products ticking (batch two_liquid_items) 0%nat =
               (Ok [normalized 7 "DIAMOND" deep_book; normalized 7 "EMERALD" thin_book],
                1%nat)) by reflexivity.
  assert (Hs : store_order_book_snapshot
                 [normalized 7 "DIAMOND" deep_book; normalized 7 "EMERALD" thin_book]
                 empty_db = Ok two_product_db) by (vm_compute; reflexivity).
  pose proof (one_capture_timestamp ticking 0%nat 1%nat (batch two_liquid_items) _ Hf)
    as (_ & _ & Hsame & _ & _ & Hstored).
  split; [exact Hf |].
  split; [vm_compute; discriminate |].
  split; [exact Hsame |].
  split; [exact Hs |].
  split; [reflexivity |].
  intros r r' Hr Hr'. apply (Hstored empty_db two_product_db r r' Hs Hr); auto.
Defined.

Lemma filter_loop_app now items1 :
  forall items2 acc,
    filter_loop now (items1 ++ items2) acc =
    bind (filter_loop now items1 acc) (filter_loop now items2).
Proof.
  induction items1 as [| [pid pd] items1 IH]; intros items2 acc; simpl; [reflexivity |].
  destruct (get (buy_summary pd) []) as [| b bs]; [apply IH |].
  destruct (get (sell_summary pd) []) as [| s ss]; [apply IH |].
  destruct (getitem "pricePerUnit" (pricePerUnit b)) as [pb | e]; simpl; [| reflexivity].
  destruct (getitem "pricePerUnit" (pricePerUnit s)) as [ps | e]; simpl; [| reflexivity].
  destruct (_ || _); apply IH.
Qed.

(** C6, as the code has it.  A product whose buy or sell summary is absent
    or empty is skipped and the rest of the batch is processed as if it
    were not there.  Level fields are not checked: when a product has both
    sides and its best buy or best sell level lacks [pricePerUnit], the
    lookup raises [KeyError] and the filter returns nothing for the batch,
    whatever the products before and after it. *)
Theorem filter_skips_one_sided_raises_unpriced now before pid pd after :
  (one_sided pd ->
   filter_and_extract_products now (batch (before ++ (pid, pd) :: after)) =
   filter_and_extract_products now (batch (before ++ after))) /\
  (unpriced pd ->
   forall out, filter_and_extract_products now (batch before) = Ok out ->
   filter_and_extract_products now (batch (before ++ (pid, pd) :: after)) =
   Raise (KeyError "pricePerUnit")).
Proof.
  unfold filter_and_extract_products, batch; simpl. split.
  - intros Hone. rewrite !filter_loop_app.
    destruct (filter_loop now before []) as [acc | e]; simpl; [| reflexivity].
    destruct Hone as [Hb | Hs].
    + rewrite Hb. reflexivity.
    + rewrite Hs. destruct (get (buy_summary pd) []); reflexivity.
  - intros (b & bs & s & ss & Hb & Hs & Hnone) out Hout.
    rewrite filter_loop_app, Hout. simpl. rewrite Hb, Hs. simpl.
    destruct Hnone as [Hn | Hn].
    + rewrite Hn. reflexivity.
    + rewrite Hn. destruct (pricePerUnit b); reflexivity.
Qed.

Lemma filter_skips_one_sided_raises_unpriced_witness :
  (one_sided buy_only_book /\
   filter_and_extract_products 7 (batch ([("DIAMOND", deep_book)] ++ ("WHEAT", buy_only_book) :: [])) =
   filter_and_extract_products 7 (batch ([("DIAMOND", deep_book)] ++ []))) /\
  (unpriced unpriced_book /\
   filter_and_extract_products 7 (batch [("DIAMOND", deep_book)]) =
   Ok [normalized 7 "DIAMOND" deep_book] /\
   filter_and_extract_products 7 (batch ([("DIAMOND", deep_book)] ++ ("COAL", unpriced_book) :: [])) =
   Raise (KeyError "pricePerUnit")).
Proof.
  assert (H1 : one_sided buy_only_book) by (right; reflexivity).
  assert (H2 : unpriced unpriced_book).
  { unfold unpriced, unpriced_book. simpl. eexists _, _, _, _.
    split; [reflexivity | split; [reflexivity | left; reflexivity]]. }
  split; [split; [exact H1 |] | split; [exact H2 | split; [reflexivity |]]].
  - exact (proj1 (filter_skips_one_sided_raises_unpriced
                    7 [("DIAMOND", deep_book)] "WHEAT" buy_only_book []) H1).
  - exact (proj2 (filter_skips_one_sided_raises_unpriced
                    7 [("DIAMOND", deep_book)] "COAL" unpriced_book []) H2 _ eq_refl).
Defined.

(** C6 as stated fails: one product whose best buy level has no
    [pricePerUnit] makes the filter raise, and the well-formed product
    listed after it, which the filter accepts on its own, is not returned. *)
Lemma unpriced_level_fails_batch :
  filter_and_extract_products 7 (batch [("COAL", unpriced_book); ("DIAMOND", deep_book)]) =
  Raise (KeyError "pricePerUnit") /\
  filter_and_extract_products 7 (batch [("DIAMOND", deep_book)]) =
  Ok [normalized 7 "DIAMOND" deep_book].
Proof.
  split; reflexivity.
Qed.

(** ** C2: the snapshot store is idempotent *)

Lemma side_eqb_eq a b : side_eqb a b = true <-> a = b.
Proof.
  destruct a, b; simpl; split; intros H; try reflexivity; discriminate.
Qed.

Lemma snap_same_key_iff a b : Snap.same_key a b = true <-> snap_key a = snap_key b.
Proof.
  unfold Snap.same_key, snap_key.
  rewrite !andb_true_iff, String.eqb_eq, !Z.eqb_eq, side_eqb_eq.
  split.
  - intros [[[-> ->] ->] ->]. reflexivity.
  - intros H. inversion H. auto.
Qed.

Lemma has_key_iff r tbl :
  existsb (Snap.same_key r) tbl = true <-> In (snap_key r) (map snap_key tbl).
Proof.
  rewrite existsb_exists, in_map_iff. split.
  - intros (x & Hx & Hk). apply snap_same_key_iff in Hk. eauto.
  - intros (x & Hk & Hx). exists x. split; [exact Hx |]. apply snap_same_key_iff. auto.
Qed.

Lemma insert_snapshot_spec p tbl tbl1 :
  insert_snapshot p tbl = Ok tbl1 ->
  exists r,
    snapshot_row p = Ok r /\
    In (snap_key r) (map snap_key tbl1) /\
    incl tbl tbl1 /\
    (snap_keys_unique tbl -> snap_keys_unique tbl1).
Proof.
  unfold insert_snapshot. intros H. ok_inv H. inversion H; subst; clear H.
  exists v. split; [exact Hv |].
  destruct (existsb (Snap.same_key v) tbl) eqn:E.
  - apply has_key_iff in E. split; [exact E | split; [apply incl_refl | auto]].
  - split; [| split].
    + rewrite map_app, in_app_iff. right. left. reflexivity.
    + apply incl_appl, incl_refl.
    + unfold snap_keys_unique. intros Hu. rewrite map_app. simpl.
      apply NoDup_app_remove_l with (l := []). simpl.
      apply Permutation_NoDup with (l := snap_key v :: map snap_key tbl).
      * change (snap_key v :: map snap_key tbl)
          with ([snap_key v] ++ map snap_key tbl).
        apply Permutation_app_comm.
      * constructor; [| exact Hu]. intros Hin. apply has_key_iff in Hin. congruence.
Qed.

Lemma insert_snapshot_present p r tbl :
  snapshot_row p = Ok r ->
  In (snap_key r) (map snap_key tbl) ->
  insert_snapshot p tbl = Ok tbl.
Proof.
  intros Hr Hin. unfold insert_snapshot. rewrite Hr. simpl.
  apply has_key_iff in Hin. rewrite Hin. reflexivity.
Qed.

Lemma execute_page_spec rows :
  forall tbl tbl1,
    execute_page rows tbl = Ok tbl1 ->
    incl tbl tbl1 /\
    (snap_keys_unique tbl -> snap_keys_unique tbl1) /\
    forall p, In p rows ->
              exists r, snapshot_row p = Ok r /\ In (snap_key r) (map snap_key tbl1).
Proof.
  induction rows as [| p rows IH]; intros tbl tbl1 H; simpl in H.
  - inversion H; subst. split; [apply incl_refl | split; [auto | intros p []]].
  - ok_inv H. destruct (insert_snapshot_spec _ _ _ Hv) as (r & Hr & Hk & Hi & Hu).
    destruct (IH _ _ H) as (Hi' & Hu' & Hall).
    split; [eapply incl_tran; eauto | split; [auto |]].
    intros q [<- | Hq]; [| auto].
    exists r. split; [exact Hr |].
    apply in_map_iff in Hk. destruct Hk as (x & Hx & Hin).
    apply in_map_iff. exists x. split; [exact Hx | apply Hi', Hin].
Qed.

Lemma execute_batch_spec rows tbl tbl1 :
  execute_batch rows tbl = Ok tbl1 ->
  incl tbl tbl1 /\
  (snap_keys_unique tbl -> snap_keys_unique tbl1) /\
  forall p, In p rows ->
            exists r, snapshot_row p = Ok r /\ In (snap_key r) (map snap_key tbl1).
Proof.
  intros H. apply execute_batch_Ok in H. apply (execute_page_spec _ _ _ (proj1 H)).
Qed.

Lemma execute_page_present rows tbl :
  (forall p, In p rows ->
             exists r, snapshot_row p = Ok r /\ In (snap_key r) (map snap_key tbl)) ->
  execute_page rows tbl = Ok tbl.
Proof.
  induction rows as [| p rows IH]; intros Hall; simpl; [reflexivity |].
  destruct (Hall p (or_introl eq_refl)) as (r & Hr & Hk).
  rewrite (insert_snapshot_present _ _ _ Hr Hk). simpl.
  apply IH. intros q Hq. apply Hall. right. exact Hq.
Qed.

Lemma execute_batch_present rows tbl :
  Forall (fun p => sendable (p_product_id p)) rows ->
  (forall p, In p rows ->
             exists r, snapshot_row p = Ok r /\ In (snap_key r) (map snap_key tbl)) ->
  execute_batch rows tbl = Ok tbl.
Proof.
  intros Hsend Hall. rewrite (execute_batch_sendable _ _ Hsend).
  apply execute_page_present, Hall.
Qed.

Lemma rows_with_key_absent r tbl :
  ~ In (snap_key r) (map snap_key tbl) -> rows_with_key r tbl = 0%nat.
Proof.
  unfold rows_with_key. induction tbl as [| x tbl IH]; intros Hn; simpl; [reflexivity |].
  destruct (Snap.same_key r x) eqn:E.
  - apply snap_same_key_iff in E. exfalso. apply Hn. simpl. auto.
  - apply IH. intros Hin. apply Hn. simpl. auto.
Qed.

Lemma rows_with_key_one r tbl :
  snap_keys_unique tbl ->
  In (snap_key r) (map snap_key tbl) ->
  rows_with_key r tbl = 1%nat.
Proof.
  unfold snap_keys_unique, rows_with_key.
  induction tbl as [| x tbl IH]; intros Hu Hin; simpl in *; [destruct Hin |].
  inversion Hu as [| ? ? Hx Hu']; subst.
  destruct (Snap.same_key r x) eqn:E; simpl.
  - apply snap_same_key_iff in E. rewrite <- E in Hx.
    f_equal. apply (rows_with_key_absent r tbl Hx).
  - destruct Hin as [Heq | Hin]; [| auto].
    symmetry in Heq. apply snap_same_key_iff in Heq. congruence.
Qed.

Lemma side_rows_level pid ts sd levels :
  forall start rows k l,
    side_rows pid ts sd (enumerate levels start) = Ok rows ->
    nth_error levels k = Some l ->
    exists q, In q rows /\ p_product_id q = pid /\ p_timestamp q = ts /\ p_side q = sd /\
              p_rank q = start + Z.of_nat k /\
              pricePerUnit l = Some (p_price q) /\ amount l = Some (p_amount q) /\
              orders l = Some (p_orders q).
Proof.
  induction levels as [| l0 levels IH]; intros start rows k l H Hn; simpl in H.
  - destruct k; discriminate.
  - ok_inv H. ok_inv H. ok_inv H. ok_inv H. inversion H; subst rows; clear H.
    apply getitem_Ok in Hv, Hv0, Hv1. destruct k as [| k]; simpl in Hn.
    + inversion Hn; subst l0. eexists. split; [left; reflexivity |].
      cbn. repeat split; auto. lia.
    + destruct (IH _ _ _ _ Hv2 Hn) as (q & Hq & Hpid & Hts & Hsd & Hrk & Hf).
      exists q. split; [right; exact Hq |]. repeat split; auto; try apply Hf. lia.
Qed.

Lemma build_rows_level products :
  forall rows p sd k l,
    build_rows products = Ok rows -> In p products ->
    nth_error (orders_of sd p) k = Some l ->
    exists q, In q rows /\ p_product_id q = product_id p /\ p_timestamp q = timestamp p /\
              p_side q = sd /\ p_rank q = 1 + Z.of_nat k /\
              pricePerUnit l = Some (p_price q) /\ amount l = Some (p_amount q) /\
              orders l = Some (p_orders q).
Proof.
  induction products as [| p0 products IH]; intros rows p sd k l H Hin Hn; [destruct Hin |].
  simpl in H. ok_inv H. ok_inv H. ok_inv H. inversion H; subst rows; clear H.
  destruct Hin as [-> | Hin].
  - destruct sd; cbn [orders_of] in Hn.
    + destruct (side_rows_level _ _ _ _ _ _ _ _ Hv Hn) as (q & Hq & Hf).
      exists q. split; [apply in_app_iff; auto | exact Hf].
    + destruct (side_rows_level _ _ _ _ _ _ _ _ Hv0 Hn) as (q & Hq & Hf).
      exists q. split; [rewrite !in_app_iff; auto | exact Hf].
  - destruct (IH _ _ _ _ _ Hv1 Hin Hn) as (q & Hq & Hf).
    exists q. split; [rewrite !in_app_iff; auto | exact Hf].
Qed.

(** C2.  A write under a key the table already holds changes nothing: after
    a row has been inserted, inserting a row with the same
    (product_id, timestamp, side, rank) key succeeds, leaves the table as
    it was, and the table holds exactly one row under that key.  For a
    whole batch: once stored, storing the same batch again succeeds and
    leaves the store exactly as it was after the first write; every
    parameter row of the batch is stored exactly once; and for every level
    of every product of the batch, whatever its side and position, the
    table holds a row under the key (product id as the column keeps it,
    capture timestamp, side, position + 1), and exactly one. *)
Theorem store_twice_is_store_once :
  (forall p p' r r' tbl tbl1,
      snap_keys_unique tbl ->
      insert_snapshot p tbl = Ok tbl1 ->
      snapshot_row p = Ok r -> snapshot_row p' = Ok r' -> snap_key r' = snap_key r ->
      insert_snapshot p' tbl1 = Ok tbl1 /\ rows_with_key r tbl1 = 1%nat) /\
  (forall products db db1,
      snap_keys_unique (order_book_snapshot db) ->
      store_order_book_snapshot products db = Ok db1 ->
      store_order_book_snapshot products db1 = Ok db1 /\
      snap_keys_unique (order_book_snapshot db1) /\
      (forall rows p, build_rows products = Ok rows -> In p rows ->
                      exists r, snapshot_row p = Ok r /\
                                rows_with_key r (order_book_snapshot db1) = 1%nat) /\
      (forall p sd k l,
          In p products -> nth_error (orders_of sd p) k = Some l ->
          exists pid r,
            to_varchar 50 "product_id" (product_id p) = Ok pid /\
            In r (order_book_snapshot db1) /\
            snap_key r = (pid, timestamp p, sd, Z.of_nat k + 1) /\
            rows_with_key r (order_book_snapshot db1) = 1%nat)).
Proof.
  split.
  - intros p p' r r' tbl tbl1 Hu Hi Hr Hr' Hk.
    destruct (insert_snapshot_spec _ _ _ Hi) as (r0 & Hr0 & Hin & _ & Hu1).
    rewrite Hr in Hr0. inversion Hr0; subst r0. split.
    + apply (insert_snapshot_present _ r'); [exact Hr' | rewrite Hk; exact Hin].
    + apply rows_with_key_one; auto.
  - unfold store_order_book_snapshot. intros products db db1 Hu H.
    destruct products as [| p0 ps].
    { inversion H; subst. split; [reflexivity | split; [exact Hu | split]].
      - intros rows p Hb. simpl in Hb. inversion Hb; subst. intros [].
      - intros p sd k l []. }
    remember (p0 :: ps) as products eqn:Ep. clear Ep.
    ok_inv H. ok_inv H. inversion H; subst; clear H. simpl.
    destruct (execute_batch_spec _ _ _ Hv0) as (Hi & Hu1 & Hall).
    destruct (execute_batch_Ok _ _ _ Hv0) as (_ & Hsend).
    split; [| split; [auto | split]].
    + rewrite Hv. simpl. rewrite (execute_batch_present _ _ Hsend Hall). reflexivity.
    + intros rows p Hb Hp. rewrite Hv in Hb. inversion Hb; subst.
      destruct (Hall _ Hp) as (r & Hr & Hk). exists r. split; [exact Hr |].
      apply rows_with_key_one; auto.
    + intros p sd k l Hp Hn.
      destruct (build_rows_level _ _ _ _ _ _ Hv Hp Hn)
        as (q & Hq & Hpid & Hts & Hsd & Hrk & _).
      destruct (Hall _ Hq) as (r0 & Hr0 & Hk).
      destruct (snapshot_row_spec _ _ Hr0) as (Hvc & Ht & Hs & Hrank & _).
      apply in_map_iff in Hk. destruct Hk as (x & Hx & Hxin).
      exists (Snap.product_id r0), x. rewrite <- Hpid. split; [exact Hvc |].
      split; [exact Hxin | split].
      * rewrite Hx. unfold snap_key. rewrite Ht, Hs, Hrank, Hts, Hsd, Hrk.
        f_equal. lia.
      * apply rows_with_key_one; [auto |]. apply in_map, Hxin.
Qed.

(** Storing the sample product twice into an empty store: the seven rows
    of its five buy and two sell levels are there after the first write,
    once each, and the second write changes nothing. *)
Lemma store_twice_is_store_once_witness :
  snap_keys_unique (order_book_snapshot empty_db) /\
  store_order_book_snapshot [normalized 7 "DIAMOND" deep_book] empty_db = Ok diamond_db /\
  store_order_book_snapshot [normalized 7 "DIAMOND" deep_book] diamond_db = Ok diamond_db /\
  List.length (order_book_snapshot diamond_db) = 7%nat /\
  In (Snap.mk "DIAMOND" 7 BUY 1 1050 100 3) (order_book_snapshot diamond_db) /\
  rows_with_key (Snap.mk "DIAMOND" 7 BUY 1 1050 100 3) (order_book_snapshot diamond_db) =
    1%nat /\
  exists r,
    In r (order_book_snapshot diamond_db) /\ snap_key r = ("DIAMOND", 7, SELL, 2) /\
    rows_with_key r (order_book_snapshot diamond_db) = 1%nat.
Proof.
  assert (Hu : snap_keys_unique (order_book_snapshot empty_db)) by constructor.
  assert (Hs : store_order_book_snapshot [normalized 7 "DIAMOND" deep_book] empty_db =
               Ok diamond_db) by (vm_compute; reflexivity).
  split; [exact Hu | split; [exact Hs |]].
  pose proof (proj2 store_twice_is_store_once
                    [normalized 7 "DIAMOND" deep_book] empty_db diamond_db Hu Hs)
    as (Hagain & _ & _ & Hlevels).
  split; [exact Hagain |].
  split; [reflexivity |].
  split; [left; reflexivity |].
  split; [reflexivity |].
  destruct (Hlevels (normalized 7 "DIAMOND" deep_book) SELL 1%nat (lvl (112 # 10) 20 1)
                    (or_introl eq_refl) eq_refl) as (pid & r & Hpid & Hin & Hkey & Hone).
  exists r. split; [exact Hin | split; [| exact Hone]].
  rewrite Hkey. vm_compute in Hpid. inversion Hpid. reflexivity.
Defined.

(** ** SQL: ORDER BY and aggregates *)

Section OrderByKey.
Variable A : Type.
Variable key : A -> Z.

Lemma insert_sorted_perm x l : Permutation (insert_sorted (asc key) x l) (x :: l).
Proof.
  induction l as [| y l IH]; simpl; [apply Permutation_refl |].
  destruct (asc key x y); [apply Permutation_refl |].
  apply perm_trans with (y :: x :: l); [apply perm_skip, IH | apply perm_swap].
Qed.

Lemma order_by_perm l : Permutation (order_by (asc key) l) l.
Proof.
  induction l as [| x l IH]; simpl; [apply perm_nil |].
  apply perm_trans with (x :: order_by (asc key) l);
    [apply insert_sorted_perm | apply perm_skip, IH].
Qed.

Lemma insert_sorted_sorted x l :
  StronglySorted (key_le key) l -> StronglySorted (key_le key) (insert_sorted (asc key) x l).
Proof.
  induction l as [| y l IH]; intros Hs; simpl.
  - constructor; [constructor | constructor].
  - inversion Hs as [| ? ? Hs' Hall]; subst.
    unfold asc at 1. destruct (Z.ltb_spec (key x) (key y)) as [Hlt | Hge].
    + constructor; [exact Hs |]. constructor; [unfold key_le; lia |].
      eapply Forall_impl; [| exact Hall]. unfold key_le. intros a Ha. lia.
    + constructor; [apply IH, Hs' |].
      apply Forall_forall. intros a Ha.
      apply (Permutation_in _ (insert_sorted_perm x l)) in Ha.
      destruct Ha as [<- | Ha]; [unfold key_le; lia |].
      rewrite Forall_forall in Hall. apply Hall, Ha.
Qed.

Lemma order_by_sorted l : StronglySorted (key_le key) (order_by (asc key) l).
Proof.
  induction l as [| x l IH]; simpl; [constructor | apply insert_sorted_sorted, IH].
Qed.

Lemma sorted_head x l :
  StronglySorted (key_le key) (x :: l) -> forall a, In a (x :: l) -> key x <= key a.
Proof.
  intros Hs a [<- | Ha]; [lia |].
  inversion Hs as [| ? ? _ Hall]; subst. rewrite Forall_forall in Hall. apply Hall, Ha.
Qed.

Lemma sorted_last l :
  StronglySorted (key_le key) l ->
  forall y, last_opt l = Some y -> In y l /\ forall a, In a l -> key a <= key y.
Proof.
  induction l as [| x l IH]; intros Hs y Hy; simpl in Hy; [discriminate |].
  inversion Hs as [| ? ? Hs' Hall]; subst.
  destruct l as [| x' l'].
  - inversion Hy; subst. split; [left; reflexivity |].
    intros a [<- | []]. lia.
  - destruct (IH Hs' y Hy) as (Hin & Hmax). split; [right; exact Hin |].
    intros a [<- | Ha]; [| apply Hmax, Ha].
    rewrite Forall_forall in Hall. apply (Hall y Hin).
Qed.
End OrderByKey.

Lemma agg_None_cons op xs : agg op (None :: xs) = agg op xs.
Proof. reflexivity. Qed.

Lemma agg_Some_cons op a xs : agg op (Some a :: xs) = Some (fold_left (agg_next op) xs a).
Proof.
  unfold agg. simpl. revert a.
  induction xs as [| x xs IH]; intros a; simpl; [reflexivity |].
  destruct x; simpl; apply IH.
Qed.

Lemma agg_next_all_None op xs a :
  Forall (fun x => x = None) xs -> fold_left (agg_next op) xs a = a.
Proof.
  induction 1 as [| x xs Hx _ IH]; simpl; [reflexivity |]. subst x. exact IH.
Qed.

Lemma agg_next_values op l a :
  fold_left (agg_next op) (map Some l) a = fold_left op l a.
Proof.
  revert a. induction l as [| x l IH]; intros a; simpl; [reflexivity | apply IH].
Qed.

Lemma enumerate_fst_ge A (l : list A) :
  forall start nr, In nr (enumerate l start) -> start <= fst nr.
Proof.
  induction l as [| x l IH]; intros start nr Hin; simpl in Hin; [destruct Hin |].
  destruct Hin as [<- | Hin]; simpl; [lia |]. apply IH in Hin. lia.
Qed.

Lemma enumerate_snd A (l : list A) : forall start, map snd (enumerate l start) = l.
Proof.
  induction l as [| x l IH]; intros start; simpl; [reflexivity |]. f_equal. apply IH.
Qed.

Lemma enumerate_length A (l : list A) :
  forall start, List.length (enumerate l start) = List.length l.
Proof.
  induction l as [| x l IH]; intros start; simpl; [reflexivity |]. f_equal. apply IH.
Qed.

(** [agg (CASE WHEN row_num = first THEN f END)] picks the first row. *)
Lemma agg_first_row A op (f : A -> Z) l start :
  agg op (map (fun nr => case_when (fst nr =? start) (f (snd nr))) (enumerate l start)) =
  option_map f (hd_error l).
Proof.
  destruct l as [| x l]; simpl; [reflexivity |].
  rewrite Z.eqb_refl. simpl. rewrite agg_Some_cons. f_equal.
  apply agg_next_all_None. apply Forall_forall. intros o Ho.
  apply in_map_iff in Ho. destruct Ho as (nr & <- & Hnr).
  apply enumerate_fst_ge in Hnr.
  destruct (Z.eqb_spec (fst nr) start); [lia | reflexivity].
Qed.

(** [agg (CASE WHEN row_num = total_rows THEN f END)] picks the last row. *)
Lemma agg_last_row A op (f : A -> Z) l :
  forall start total,
    total = start + Z.of_nat (List.length l) - 1 ->
    agg op (map (fun nr => case_when (fst nr =? total) (f (snd nr))) (enumerate l start)) =
    option_map f (last_opt l).
Proof.
  induction l as [| x l IH]; intros start total Ht; [reflexivity |].
  destruct l as [| x' l'].
  - simpl in *. replace (start =? total) with true by (symmetry; apply Z.eqb_eq; lia).
    reflexivity.
  - change (enumerate (x :: x' :: l') start)
      with ((start, x) :: enumerate (x' :: l') (start + 1)).
    change (last_opt (x :: x' :: l')) with (last_opt (x' :: l')).
    rewrite map_cons. cbn [fst snd].
    replace (start =? total) with false
      by (symmetry; apply Z.eqb_neq; cbn [List.length] in Ht; lia).
    cbn [case_when]. rewrite agg_None_cons. apply IH.
    cbn [List.length] in *. lia.
Qed.

Lemma fold_left_max l :
  forall a, let m := fold_left Z.max l a in
            (m = a \/ In m l) /\ a <= m /\ forall x, In x l -> x <= m.
Proof.
  induction l as [| y l IH]; intros a; simpl.
  - split; [left; reflexivity | split; [lia | intros x []]].
  - destruct (IH (Z.max a y)) as (Hm & Hge & Hall).
    split; [| split].
    + destruct Hm as [Hm | Hm]; [| auto].
      rewrite Hm. destruct (Z.max_spec a y) as [[_ ->] | [_ ->]]; auto.
    + lia.
    + intros x [<- | Hx]; [lia | auto].
Qed.

Lemma fold_left_min l :
  forall a, let m := fold_left Z.min l a in
            (m = a \/ In m l) /\ m <= a /\ forall x, In x l -> m <= x.
Proof.
  induction l as [| y l IH]; intros a; simpl.
  - split; [left; reflexivity | split; [lia | intros x []]].
  - destruct (IH (Z.min a y)) as (Hm & Hge & Hall).
    split; [| split].
    + destruct Hm as [Hm | Hm]; [| auto].
      rewrite Hm. destruct (Z.min_spec a y) as [[_ ->] | [_ ->]]; auto.
    + lia.
    + intros x [<- | Hx]; [lia | auto].
Qed.

Lemma fold_left_add l : forall a, fold_left Z.add l a = a + fold_right Z.add 0 l.
Proof.
  induction l as [| y l IH]; intros a; simpl; [lia |]. rewrite IH. lia.
Qed.

Lemma total_amount_map rows : total_amount rows = fold_right Z.add 0 (map Snap.amount rows).
Proof.
  induction rows as [| r rows IH]; simpl; [reflexivity |]. rewrite <- IH. reflexivity.
Qed.

Lemma total_amount_perm rows rows' :
  Permutation rows rows' -> total_amount rows = total_amount rows'.
Proof.
  induction 1; simpl; lia.
Qed.

(** ** The per-product queries of generate_candles *)

Lemma last_opt_nonempty A (l : list A) : l <> [] -> exists y, last_opt l = Some y.
Proof.
  induction l as [| x l IH]; intros Hne; [congruence |].
  destruct l as [| x' l']; [exists x; reflexivity |].
  destruct IH as (y & Hy); [discriminate |]. exists y. exact Hy.
Qed.

(** The aggregate query, with the window functions resolved on the
    sorted window. *)
Lemma ohlc_query_sorted pid cutoff_time tbl :
  let sel := order_by (asc Snap.timestamp) (window pid cutoff_time BUY tbl) in
  ohlc_query pid cutoff_time tbl =
  {| first_timestamp := option_map Snap.timestamp (hd_error sel);
     last_timestamp := option_map Snap.timestamp (last_opt sel);
     open_price := option_map Snap.price (hd_error sel);
     high_price := MAX (map Some (map Snap.price sel));
     low_price := MIN (map Some (map Snap.price sel));
     close_price := option_map Snap.price (last_opt sel);
     buy_volume := SUM (map Some (map Snap.amount sel));
     data_points := Z.of_nat (List.length sel) |}.
Proof.
  intros sel. unfold ohlc_query, price_sequence, window in *. fold sel.
  rewrite !map_map. cbn [row_num total_rows q_timestamp q_price q_amount fst snd].
  unfold MAX, MIN, SUM, COUNT_star. f_equal.
  - apply agg_first_row.
  - apply agg_last_row. lia.
  - apply agg_first_row.
  - rewrite <- (enumerate_snd _ sel 1) at 2. rewrite !map_map. reflexivity.
  - rewrite <- (enumerate_snd _ sel 1) at 2. rewrite !map_map. reflexivity.
  - apply agg_last_row. lia.
  - rewrite <- (enumerate_snd _ sel 1) at 2. rewrite !map_map. reflexivity.
  - rewrite length_map, enumerate_length. reflexivity.
Qed.

Lemma ohlc_query_empty pid cutoff_time tbl :
  window pid cutoff_time BUY tbl = [] ->
  first_timestamp (ohlc_query pid cutoff_time tbl) = None.
Proof.
  intros He. rewrite ohlc_query_sorted. rewrite He. reflexivity.
Qed.

Lemma ohlc_query_nonempty pid cutoff_time tbl :
  window pid cutoff_time BUY tbl <> [] ->
  exists e l h lo,
    earliest e (window pid cutoff_time BUY tbl) /\
    latest l (window pid cutoff_time BUY tbl) /\
    highest_price h (window pid cutoff_time BUY tbl) /\
    lowest_price lo (window pid cutoff_time BUY tbl) /\
    ohlc_query pid cutoff_time tbl =
    {| first_timestamp := Some (Snap.timestamp e);
       last_timestamp := Some (Snap.timestamp l);
       open_price := Some (Snap.price e);
       high_price := Some h;
       low_price := Some lo;
       close_price := Some (Snap.price l);
       buy_volume := Some (total_amount (window pid cutoff_time BUY tbl));
       data_points := Z.of_nat (List.length (window pid cutoff_time BUY tbl)) |}.
Proof.
  intros Hne. rewrite ohlc_query_sorted.
  set (w := window pid cutoff_time BUY tbl) in *.
  pose proof (order_by_perm _ Snap.timestamp w) as Hperm.
  pose proof (order_by_sorted _ Snap.timestamp w) as Hsorted.
  set (sel := order_by (asc Snap.timestamp) w) in *.
  assert (Hin : forall r, In r sel <-> In r w).
  { intros r. split; apply Permutation_in; [exact Hperm | apply Permutation_sym, Hperm]. }
  destruct sel as [| x sel'] eqn:Es.
  { apply Permutation_nil in Hperm. contradiction. }
  destruct (last_opt_nonempty _ (x :: sel')) as (y & Hy); [discriminate |].
  destruct (sorted_last _ _ _ Hsorted y Hy) as (Hyin & Hymax).
  pose proof (sorted_head _ _ _ _ Hsorted) as Hxmin.
  pose proof (fold_left_max (map Snap.price sel') (Snap.price x)) as (Hm & Hmge & Hmall).
  pose proof (fold_left_min (map Snap.price sel') (Snap.price x)) as (Hn & Hnle & Hnall).
  exists x, y, (fold_left Z.max (map Snap.price sel') (Snap.price x)),
    (fold_left Z.min (map Snap.price sel') (Snap.price x)).
  split; [| split; [| split; [| split]]].
  - split; [apply Hin; left; reflexivity |]. intros r Hr. apply Hxmin, Hin, Hr.
  - split; [apply Hin, Hyin |]. intros r Hr. apply Hymax, Hin, Hr.
  - split.
    + destruct Hm as [Hm | Hm].
      * exists x. split; [apply Hin; left; reflexivity | symmetry; exact Hm].
      * apply in_map_iff in Hm. destruct Hm as (r & Hr & Hrin).
        exists r. split; [apply Hin; right; exact Hrin | exact Hr].
    + intros r Hr. apply Hin in Hr. destruct Hr as [<- | Hr]; [exact Hmge |].
      apply Hmall, in_map, Hr.
  - split.
    + destruct Hn as [Hn | Hn].
      * exists x. split; [apply Hin; left; reflexivity | symmetry; exact Hn].
      * apply in_map_iff in Hn. destruct Hn as (r & Hr & Hrin).
        exists r. split; [apply Hin; right; exact Hrin | exact Hr].
    + intros r Hr. apply Hin in Hr. destruct Hr as [<- | Hr]; [exact Hnle |].
      apply Hnall, in_map, Hr.
  - rewrite Hy. cbn [hd_error option_map map]. unfold MAX, MIN, SUM.
    rewrite !agg_Some_cons, !agg_next_values, fold_left_add.
    rewrite <- (total_amount_perm _ _ Hperm), <- (Permutation_length Hperm).
    rewrite total_amount_map. reflexivity.
Qed.

(** ** The candle table under upsert *)

Lemma candle_same_key_iff a b : Candle.same_key a b = true <-> candle_key a = candle_key b.
Proof.
  unfold Candle.same_key, candle_key. rewrite andb_true_iff, String.eqb_eq, Z.eqb_eq.
  split; [intros [-> ->]; reflexivity | intros H; inversion H; auto].
Qed.

Lemma candle_same_key_false a b : Candle.same_key a b = false <-> candle_key a <> candle_key b.
Proof.
  rewrite <- candle_same_key_iff. destruct (Candle.same_key a b); split; congruence.
Qed.

(** The row written by [DO UPDATE SET] is the new row itself. *)
Lemma updated_row r c :
  Candle.same_key r c = true ->
  {| Candle.product_id := Candle.product_id r; Candle.timestamp := Candle.timestamp r;
     Candle.open := Candle.open c; Candle.high := Candle.high c; Candle.low := Candle.low c;
     Candle.close := Candle.close c; Candle.buy_volume := Candle.buy_volume c;
     Candle.sell_volume := Candle.sell_volume c |} = c.
Proof.
  intros H. apply candle_same_key_iff in H. unfold candle_key in H.
  injection H as Hp Ht. rewrite Hp, Ht. destruct c; reflexivity.
Qed.

Lemma upsert_cons c r tbl :
  upsert c (r :: tbl) = if Candle.same_key r c then c :: tbl else r :: upsert c tbl.
Proof.
  simpl. destruct (Candle.same_key r c) eqn:E; [rewrite (updated_row _ _ E) |]; reflexivity.
Qed.

Lemma upsert_In c tbl r : In r (upsert c tbl) -> r = c \/ In r tbl.
Proof.
  induction tbl as [| x tbl IH]; [simpl; intros [<- | []]; auto |].
  rewrite upsert_cons. destruct (Candle.same_key x c).
  - intros [<- | Hr]; simpl; auto.
  - intros [<- | Hr]; simpl; auto. destruct (IH Hr); auto.
Qed.

Lemma upsert_keys c tbl :
  map candle_key (upsert c tbl) =
  if existsb (fun r => Candle.same_key r c) tbl
  then map candle_key tbl
  else map candle_key tbl ++ [candle_key c].
Proof.
  induction tbl as [| x tbl IH]; [reflexivity |].
  rewrite upsert_cons. cbn [existsb]. destruct (Candle.same_key x c) eqn:E; cbn [orb map].
  - apply candle_same_key_iff in E. rewrite E. reflexivity.
  - rewrite IH. destruct (existsb _ tbl); reflexivity.
Qed.

Lemma upsert_unique c tbl : candle_keys_unique tbl -> candle_keys_unique (upsert c tbl).
Proof.
  unfold candle_keys_unique. intros Hu. rewrite upsert_keys.
  destruct (existsb _ tbl) eqn:E; [exact Hu |].
  apply Permutation_NoDup with (l := candle_key c :: map candle_key tbl).
  - change (candle_key c :: map candle_key tbl) with ([candle_key c] ++ map candle_key tbl).
    apply Permutation_app_comm.
  - constructor; [| exact Hu]. intros Hin. apply in_map_iff in Hin.
    destruct Hin as (x & Hk & Hx).
    assert (existsb (fun r => Candle.same_key r c) tbl = true); [| congruence].
    apply existsb_exists. exists x. split; [exact Hx | apply candle_same_key_iff, Hk].
Qed.

Lemma stored_upsert c tbl : stored c (upsert c tbl) = Some c.
Proof.
  unfold stored. induction tbl as [| x tbl IH].
  - simpl. replace (Candle.same_key c c) with true; [reflexivity |].
    symmetry. apply candle_same_key_iff. reflexivity.
  - rewrite upsert_cons. destruct (Candle.same_key x c) eqn:E; simpl.
    + replace (Candle.same_key c c) with true; [reflexivity |].
      symmetry. apply candle_same_key_iff. reflexivity.
    + rewrite E. exact IH.
Qed.

Lemma stored_upsert_other c d tbl :
  candle_key c <> candle_key d -> stored c (upsert d tbl) = stored c tbl.
Proof.
  unfold stored. intros Hne. induction tbl as [| x tbl IH].
  - simpl. replace (Candle.same_key d c) with false; [reflexivity |].
    symmetry. apply candle_same_key_false. congruence.
  - rewrite upsert_cons. destruct (Candle.same_key x d) eqn:E; simpl.
    + apply candle_same_key_iff in E.
      replace (Candle.same_key d c) with false
        by (symmetry; apply candle_same_key_false; congruence).
      replace (Candle.same_key x c) with false
        by (symmetry; apply candle_same_key_false; congruence).
      reflexivity.
    + rewrite IH. reflexivity.
Qed.

Lemma upsert_stored c tbl : stored c tbl = Some c -> upsert c tbl = tbl.
Proof.
  unfold stored. induction tbl as [| x tbl IH]; [discriminate |].
  rewrite upsert_cons. simpl. destruct (Candle.same_key x c) eqn:E.
  - intros H. inversion H. reflexivity.
  - intros H. rewrite (IH H). reflexivity.
Qed.

Lemma stored_In c tbl r : stored c tbl = Some r -> In r tbl.
Proof.
  unfold stored. intros H. apply find_some in H. tauto.
Qed.

Lemma candles_of_upsert_other pid c tbl :
  Candle.product_id c <> pid -> candles_of pid (upsert c tbl) = candles_of pid tbl.
Proof.
  unfold candles_of. intros Hne.
  assert (Hc : String.eqb (Candle.product_id c) pid = false) by (apply String.eqb_neq, Hne).
  induction tbl as [| x tbl IH].
  - simpl. rewrite Hc. reflexivity.
  - rewrite upsert_cons. destruct (Candle.same_key x c) eqn:E; simpl.
    + apply candle_same_key_iff in E. unfold candle_key in E. inversion E as [[Hp Ht]].
      rewrite Hp, Hc. reflexivity.
    + rewrite IH. reflexivity.
Qed.

Lemma candles_with_key_absent pid ts tbl :
  ~ In (pid, ts) (map candle_key tbl) -> candles_with_key pid ts tbl = 0%nat.
Proof.
  unfold candles_with_key. induction tbl as [| x tbl IH]; intros Hn; simpl; [reflexivity |].
  destruct (String.eqb_spec (Candle.product_id x) pid) as [Hp | Hp]; simpl.
  - destruct (Z.eqb_spec (Candle.timestamp x) ts) as [Ht | Ht]; simpl.
    + exfalso. apply Hn. left. unfold candle_key. congruence.
    + apply IH. intros Hin. apply Hn. right. exact Hin.
  - apply IH. intros Hin. apply Hn. right. exact Hin.
Qed.

Lemma candles_with_key_one c tbl :
  candle_keys_unique tbl -> In c tbl ->
  candles_with_key (Candle.product_id c) (Candle.timestamp c) tbl = 1%nat.
Proof.
  unfold candle_keys_unique, candles_with_key.
  induction tbl as [| x tbl IH]; intros Hu Hin; [destruct Hin |].
  simpl in Hu. inversion Hu as [| ? ? Hx Hu']; subst. simpl.
  destruct (String.eqb_spec (Candle.product_id x) (Candle.product_id c)) as [Hp | Hp]; simpl.
  - destruct (Z.eqb_spec (Candle.timestamp x) (Candle.timestamp c)) as [Ht | Ht]; simpl.
    + f_equal. apply candles_with_key_absent.
      replace (Candle.product_id c, Candle.timestamp c) with (candle_key x); [exact Hx |].
      unfold candle_key. congruence.
    + destruct Hin as [-> | Hin]; [congruence | auto].
  - destruct Hin as [-> | Hin]; [congruence | auto].
Qed.

Lemma upsert_all_In cs :
  forall tbl r, In r (upsert_all cs tbl) -> In r cs \/ In r tbl.
Proof.
  unfold upsert_all. induction cs as [| c cs IH]; intros tbl r Hr; simpl in *; [auto |].
  destruct (IH _ _ Hr) as [H | H]; [auto |].
  destruct (upsert_In _ _ _ H) as [-> | H']; auto.
Qed.

Lemma upsert_all_unique cs :
  forall tbl, candle_keys_unique tbl -> candle_keys_unique (upsert_all cs tbl).
Proof.
  unfold upsert_all. induction cs as [| c cs IH]; intros tbl Hu; simpl; [exact Hu |].
  apply IH, upsert_unique, Hu.
Qed.

Lemma stored_upsert_all_other c cs :
  (forall d, In d cs -> Candle.product_id d <> Candle.product_id c) ->
  forall tbl, stored c (upsert_all cs tbl) = stored c tbl.
Proof.
  unfold upsert_all. induction cs as [| d cs IH]; intros Hne tbl; simpl; [reflexivity |].
  rewrite IH by (intros x Hx; apply Hne; right; exact Hx).
  apply stored_upsert_other. unfold candle_key. intros Hk. inversion Hk as [[Hp Ht]].
  apply (Hne d (or_introl eq_refl)). congruence.
Qed.

Lemma stored_upsert_all cs :
  NoDup (map Candle.product_id cs) ->
  forall tbl c, In c cs -> stored c (upsert_all cs tbl) = Some c.
Proof.
  induction cs as [| d cs IH]; intros Hnd tbl c Hc; [destruct Hc |].
  simpl in Hnd. inversion Hnd as [| ? ? Hd Hnd']; subst.
  change (upsert_all (d :: cs) tbl) with (upsert_all cs (upsert d tbl)).
  destruct Hc as [-> | Hc]; [| apply IH; assumption].
  rewrite stored_upsert_all_other; [apply stored_upsert |].
  intros x Hx Heq. apply Hd. rewrite <- Heq. apply in_map, Hx.
Qed.

Lemma upsert_all_stored cs :
  forall tbl, (forall c, In c cs -> stored c tbl = Some c) -> upsert_all cs tbl = tbl.
Proof.
  induction cs as [| d cs IH]; intros tbl Hall; [reflexivity |].
  change (upsert_all (d :: cs) tbl) with (upsert_all cs (upsert d tbl)).
  rewrite (upsert_stored d tbl) by (apply Hall; left; reflexivity).
  apply IH. intros c Hc. apply Hall. right. exact Hc.
Qed.

Lemma candles_of_upsert_all_other pid cs :
  (forall c, In c cs -> Candle.product_id c <> pid) ->
  forall tbl, candles_of pid (upsert_all cs tbl) = candles_of pid tbl.
Proof.
  induction cs as [| d cs IH]; intros Hne tbl; [reflexivity |].
  change (upsert_all (d :: cs) tbl) with (upsert_all cs (upsert d tbl)).
  rewrite IH by (intros c Hc; apply Hne; right; exact Hc).
  apply candles_of_upsert_other, Hne. left. reflexivity.
Qed.

(** ** The candle loop *)

Lemma candle_loop_pass cutoff_time snaps products :
  forall tbl n,
    candle_loop cutoff_time snaps products tbl n =
    bind (pass_candles cutoff_time snaps products)
         (fun cs => Ok (upsert_all cs tbl, n + Z.of_nat (List.length cs))).
Proof.
  induction products as [| pid products IH]; intros tbl n;
    cbn [candle_loop pass_candles].
  - cbn. f_equal. f_equal. lia.
  - unfold product_candle, insert_candle.
    destruct (first_timestamp (ohlc_query pid cutoff_time snaps)) as [t |]; cbn [bind].
    + destruct (candle_row pid _ _ _) as [c | e]; cbn [bind]; [| reflexivity].
      rewrite IH. destruct (pass_candles cutoff_time snaps products) as [cs | e]; cbn [bind];
        [| reflexivity].
      change (upsert_all (c :: cs) tbl) with (upsert_all cs (upsert c tbl)).
      f_equal. f_equal. cbn [List.length]. rewrite Nat2Z.inj_succ. lia.
    + rewrite IH. destruct (pass_candles cutoff_time snaps products); reflexivity.
Qed.

Lemma to_bigint_null_Ok column v w : to_bigint_null column v = Ok w -> w = v.
Proof.
  destruct v as [x |]; simpl; intros H.
  - ok_inv H. apply to_bigint_Ok in Hv. inversion H. congruence.
  - inversion H. reflexivity.
Qed.

Lemma sell_volume_query_total pid cutoff_time tbl :
  sell_volume_query pid cutoff_time tbl = total_amount (window pid cutoff_time SELL tbl).
Proof.
  unfold sell_volume_query. fold (window pid cutoff_time SELL tbl).
  set (w := window pid cutoff_time SELL tbl).
  assert (Hs : COALESCE (SUM (map (fun r => Some (Snap.amount r)) w)) 0 = total_amount w).
  { destruct w as [| x w']; [reflexivity |].
    unfold SUM. cbn [map]. rewrite agg_Some_cons. cbn [COALESCE].
    rewrite <- (map_map Snap.amount Some), agg_next_values, fold_left_add, total_amount_map.
    reflexivity. }
  rewrite Hs. destruct (Z.eqb_spec (total_amount w) 0) as [-> | _]; reflexivity.
Qed.

Lemma product_candle_empty cutoff_time snaps pid :
  window pid cutoff_time BUY snaps = [] -> product_candle cutoff_time snaps pid = Ok None.
Proof.
  intros He. unfold product_candle. rewrite (ohlc_query_empty _ _ _ He). reflexivity.
Qed.

Lemma product_candle_fields cutoff_time snaps pid c :
  product_candle cutoff_time snaps pid = Ok (Some c) ->
  window pid cutoff_time BUY snaps <> [] /\
  exists e l h lo,
    earliest e (window pid cutoff_time BUY snaps) /\
    latest l (window pid cutoff_time BUY snaps) /\
    highest_price h (window pid cutoff_time BUY snaps) /\
    lowest_price lo (window pid cutoff_time BUY snaps) /\
    c = {| Candle.product_id := pid;
           Candle.timestamp := Snap.timestamp l;
           Candle.open := Some (Snap.price e);
           Candle.high := Some h;
           Candle.low := Some lo;
           Candle.close := Some (Snap.price l);
           Candle.buy_volume := Some (total_amount (window pid cutoff_time BUY snaps));
           Candle.sell_volume := Some (total_amount (window pid cutoff_time SELL snaps)) |}.
Proof.
  intros H.
  assert (Hne : window pid cutoff_time BUY snaps <> []).
  { intros He. rewrite (product_candle_empty _ _ _ He) in H. discriminate. }
  split; [exact Hne |].
  destruct (ohlc_query_nonempty _ _ _ Hne) as (e & l & h & lo & He & Hl & Hh & Hlo & Hq).
  exists e, l, h, lo. repeat (split; [assumption |]).
  unfold product_candle in H. rewrite Hq in H. cbn [first_timestamp last_timestamp] in H.
  destruct (candle_row pid _ _ _) as [c0 |] eqn:Ec; cbn [bind] in H; [| discriminate].
  inversion H; subst c0; clear H.
  unfold candle_row in Ec.
  cbn [bind buy_volume open_price high_price low_price close_price] in Ec.
  destruct (to_bigint_null _ _) as [bv |] eqn:Eb; cbn [bind] in Ec; [| discriminate].
  apply to_bigint_null_Ok in Eb.
  destruct (to_bigint "sell_volume" _) as [sv |] eqn:Es; cbn [bind] in Ec; [| discriminate].
  apply to_bigint_Ok in Es. inversion Ec; subst.
  rewrite sell_volume_query_total. reflexivity.
Qed.

Lemma product_candle_pid cutoff_time snaps pid c :
  product_candle cutoff_time snaps pid = Ok (Some c) -> Candle.product_id c = pid.
Proof.
  intros H. apply product_candle_fields in H.
  destruct H as (_ & e & l & h & lo & _ & _ & _ & _ & ->). reflexivity.
Qed.

Lemma pass_candles_In cutoff_time snaps products :
  forall cs,
    pass_candles cutoff_time snaps products = Ok cs ->
    forall c, In c cs <->
              exists pid, In pid products /\ product_candle cutoff_time snaps pid = Ok (Some c).
Proof.
  induction products as [| p products IH]; intros cs H c; simpl in H.
  - inversion H; subst. split; [intros [] | intros (? & [] & _)].
  - ok_inv H. ok_inv H. inversion H; subst cs; clear H.
    specialize (IH _ Hv0 c). destruct v as [c0 |]; simpl; rewrite IH; split.
    + intros [<- | (pid & Hin & Hp)]; eauto.
    + intros (pid & [<- | Hin] & Hp); [left; congruence | right; eauto].
    + intros (pid & Hin & Hp). eauto.
    + intros (pid & [<- | Hin] & Hp); [congruence | eauto].
Qed.

Lemma pass_candles_pids cutoff_time snaps products :
  forall cs,
    pass_candles cutoff_time snaps products = Ok cs ->
    NoDup products -> NoDup (map Candle.product_id cs).
Proof.
  induction products as [| p products IH]; intros cs H Hnd; simpl in H.
  - inversion H; subst. constructor.
  - ok_inv H. ok_inv H. inversion H; subst cs; clear H.
    inversion Hnd as [| ? ? Hp Hnd']; subst.
    destruct v as [c0 |]; [| auto]. simpl. constructor; [| auto].
    rewrite (product_candle_pid _ _ _ _ Hv). intros Hin. apply Hp.
    apply in_map_iff in Hin. destruct Hin as (c & Hc & Hin).
    apply (pass_candles_In _ _ _ _ Hv0) in Hin. destruct Hin as (pid & Hpid & Hpc).
    rewrite (product_candle_pid _ _ _ _ Hpc) in Hc. congruence.
Qed.

(** ** One pass of generate_candles *)

Lemma generate_candles_inv now interval_minutes db r cutoff_time :
  generate_candles now interval_minutes db = Ok r ->
  cutoff now interval_minutes = Ok cutoff_time ->
  exists cs,
    pass_candles cutoff_time (order_book_snapshot db)
                 (products_in_window cutoff_time (order_book_snapshot db)) = Ok cs /\
    committed r = {| order_book_snapshot := delete_older cutoff_time (order_book_snapshot db);
                     candles := upsert_all cs (candles db) |} /\
    candles_created r = Z.of_nat (List.length cs).
Proof.
  unfold generate_candles. intros H Hc. rewrite Hc in H. cbn [bind] in H.
  rewrite candle_loop_pass in H.
  destruct (pass_candles _ _ _) as [cs |]; cbn [bind] in H; [| discriminate].
  inversion H; subst r; clear H. exists cs. cbn. auto.
Qed.

Lemma window_In pid cutoff_time sd tbl r :
  In r (window pid cutoff_time sd tbl) <->
  In r tbl /\ Snap.product_id r = pid /\ cutoff_time <= Snap.timestamp r /\
  Snap.side r = sd /\ Snap.rank r = 1.
Proof.
  unfold window, top_of_book.
  rewrite filter_In, !andb_true_iff, String.eqb_eq, Z.leb_le, side_eqb_eq, Z.eqb_eq.
  tauto.
Qed.

Lemma window_product_listed pid cutoff_time sd tbl :
  window pid cutoff_time sd tbl <> [] -> In pid (products_in_window cutoff_time tbl).
Proof.
  intros Hne. destruct (window pid cutoff_time sd tbl) as [| r w] eqn:E; [congruence |].
  assert (Hr : In r (window pid cutoff_time sd tbl)) by (rewrite E; left; reflexivity).
  apply window_In in Hr. destruct Hr as (Hin & Hp & Hc & _).
  unfold products_in_window. apply nodup_In, in_map_iff. exists r. split; [exact Hp |].
  apply filter_In. split; [exact Hin | apply Z.leb_le, Hc].
Qed.

Lemma unique_key_eq A B (f : A -> B) l a b :
  NoDup (map f l) -> In a l -> In b l -> f a = f b -> a = b.
Proof.
  induction l as [| x l IH]; intros Hnd Ha Hb Hf; [destruct Ha |].
  simpl in Hnd. inversion Hnd as [| ? ? Hx Hnd']; subst.
  destruct Ha as [-> | Ha], Hb as [-> | Hb]; auto.
  - exfalso. apply Hx. rewrite Hf. apply in_map, Hb.
  - exfalso. apply Hx. rewrite <- Hf. apply in_map, Ha.
Qed.

Lemma window_same_time pid cutoff_time sd tbl a b :
  snap_keys_unique tbl ->
  In a (window pid cutoff_time sd tbl) -> In b (window pid cutoff_time sd tbl) ->
  Snap.timestamp a = Snap.timestamp b -> a = b.
Proof.
  intros Hu Ha Hb Ht. apply window_In in Ha, Hb.
  destruct Ha as (Ha & Hpa & _ & Hsa & Hra), Hb as (Hb & Hpb & _ & Hsb & Hrb).
  apply (unique_key_eq _ _ snap_key tbl); auto. unfold snap_key. congruence.
Qed.

Lemma earliest_unique pid cutoff_time sd tbl a b :
  snap_keys_unique tbl ->
  earliest a (window pid cutoff_time sd tbl) -> earliest b (window pid cutoff_time sd tbl) ->
  a = b.
Proof.
  intros Hu (Ha & Hamin) (Hb & Hbmin).
  apply (window_same_time pid cutoff_time sd tbl); auto.
  specialize (Hamin _ Hb). specialize (Hbmin _ Ha). lia.
Qed.

Lemma latest_unique pid cutoff_time sd tbl a b :
  snap_keys_unique tbl ->
  latest a (window pid cutoff_time sd tbl) -> latest b (window pid cutoff_time sd tbl) ->
  a = b.
Proof.
  intros Hu (Ha & Hamax) (Hb & Hbmax).
  apply (window_same_time pid cutoff_time sd tbl); auto.
  specialize (Hamax _ Hb). specialize (Hbmax _ Ha). lia.
Qed.

Lemma pass_candles_no_raise cutoff_time snaps products :
  forall cs,
    pass_candles cutoff_time snaps products = Ok cs ->
    forall pid, In pid products -> exists oc, product_candle cutoff_time snaps pid = Ok oc.
Proof.
  induction products as [| p products IH]; intros cs H pid Hin; [destruct Hin |].
  simpl in H. ok_inv H. ok_inv H. destruct Hin as [<- | Hin]; eauto.
Qed.

Lemma product_candle_nonempty cutoff_time snaps pid oc :
  window pid cutoff_time BUY snaps <> [] ->
  product_candle cutoff_time snaps pid = Ok oc -> exists c, oc = Some c.
Proof.
  intros Hne H.
  destruct (ohlc_query_nonempty _ _ _ Hne) as (e & l & h & lo & _ & _ & _ & _ & Hq).
  unfold product_candle in H. rewrite Hq in H. cbn [first_timestamp] in H.
  ok_inv H. inversion H. eauto.
Qed.

(** A product with a BUY rank-1 snapshot in the window: the pass leaves
    its freshly computed candle in the table, and that is the only row of
    the product that was not there before. *)
Lemma pass_present now interval_minutes db r cutoff_time pid :
  generate_candles now interval_minutes db = Ok r ->
  cutoff now interval_minutes = Ok cutoff_time ->
  window pid cutoff_time BUY (order_book_snapshot db) <> [] ->
  exists c,
    product_candle cutoff_time (order_book_snapshot db) pid = Ok (Some c) /\
    In c (candles (committed r)) /\
    forall c', In c' (candles (committed r)) -> Candle.product_id c' = pid ->
               c' = c \/ In c' (candles db).
Proof.
  intros H Hc Hne. destruct (generate_candles_inv _ _ _ _ _ H Hc) as (cs & Hp & Hr & _).
  rewrite Hr. cbn [candles].
  pose proof (window_product_listed _ _ _ _ Hne) as Hin.
  destruct (pass_candles_no_raise _ _ _ _ Hp _ Hin) as (oc & Hoc).
  destruct (product_candle_nonempty _ _ _ _ Hne Hoc) as (c & ->).
  assert (Hcs : In c cs) by (apply (pass_candles_In _ _ _ _ Hp); eauto).
  assert (Hnd : NoDup (map Candle.product_id cs)).
  { apply (pass_candles_pids _ _ _ _ Hp). apply NoDup_nodup. }
  exists c. split; [exact Hoc | split].
  - apply (stored_In c). apply stored_upsert_all; assumption.
  - intros c' Hc' Hpid. destruct (upsert_all_In _ _ _ Hc') as [Hin' | Hold]; [left | auto].
    apply (pass_candles_In _ _ _ _ Hp) in Hin'. destruct Hin' as (p' & _ & Hp').
    rewrite (product_candle_pid _ _ _ _ Hp') in Hpid. subst p'. congruence.
Qed.

(** A product without a BUY rank-1 snapshot in the window: its candles
    are left as they were. *)
Lemma pass_absent now interval_minutes db r cutoff_time pid :
  generate_candles now interval_minutes db = Ok r ->
  cutoff now interval_minutes = Ok cutoff_time ->
  window pid cutoff_time BUY (order_book_snapshot db) = [] ->
  candles_of pid (candles (committed r)) = candles_of pid (candles db).
Proof.
  intros H Hc He. destruct (generate_candles_inv _ _ _ _ _ H Hc) as (cs & Hp & Hr & _).
  rewrite Hr. cbn [candles]. apply candles_of_upsert_all_other.
  intros c Hin Hpid. apply (pass_candles_In _ _ _ _ Hp) in Hin.
  destruct Hin as (p' & _ & Hp').
  rewrite (product_candle_pid _ _ _ _ Hp') in Hpid. subst p'.
  apply product_candle_fields in Hp'. tauto.
Qed.

Lemma pass_unique now interval_minutes db r cutoff_time :
  generate_candles now interval_minutes db = Ok r ->
  cutoff now interval_minutes = Ok cutoff_time ->
  candle_keys_unique (candles db) -> candle_keys_unique (candles (committed r)).
Proof.
  intros H Hc Hu. destruct (generate_candles_inv _ _ _ _ _ H Hc) as (cs & _ & Hr & _).
  rewrite Hr. cbn [candles]. apply upsert_all_unique, Hu.
Qed.

(** The aggregation example: prices 10, 14, 9 and amounts 100, 50, 25 at
    t1 < t2 < t3 give open 10, high 14, low 9, close 9, buy volume 175 and
    a candle stamped t3; the snapshot older than the cutoff is swept. *)
Example sample_pass_runs :
  cutoff sample_now 1 = Ok (sample_now - 60000000) /\
  generate_candles sample_now 1 sample_db = Ok sample_pass.
Proof.
  split; vm_compute; reflexivity.
Qed.

Lemma sample_keys_unique : snap_keys_unique sample_snapshots.
Proof.
  unfold snap_keys_unique. cbn.
  repeat (constructor; [cbn; intros H; repeat (destruct H as [H | H]; [discriminate H |]);
                        exact H |]).
  constructor.
Qed.

(** ** A pass succeeds when the volumes fit *)

Lemma to_bigint_fits column v : in_bigint v -> to_bigint column v = Ok v.
Proof.
  unfold in_bigint, to_bigint. intros [Hlo Hhi].
  apply Z.leb_le in Hlo, Hhi. rewrite Hlo, Hhi. reflexivity.
Qed.

Lemma product_candle_total cutoff_time snaps pid :
  volumes_fit cutoff_time snaps ->
  exists oc, product_candle cutoff_time snaps pid = Ok oc.
Proof.
  intros Hfit. destruct (window pid cutoff_time BUY snaps) as [| x w] eqn:Ew.
  - exists None. apply product_candle_empty, Ew.
  - assert (Hne : window pid cutoff_time BUY snaps <> []) by (rewrite Ew; discriminate).
    destruct (ohlc_query_nonempty _ _ _ Hne) as (e & l & h & lo & _ & _ & _ & _ & Hq).
    unfold product_candle, candle_row. rewrite Hq.
    cbn [first_timestamp last_timestamp buy_volume bind to_bigint_null].
    rewrite (to_bigint_fits _ _ (Hfit pid BUY)). cbn [bind].
    rewrite sell_volume_query_total, (to_bigint_fits _ _ (Hfit pid SELL)). cbn [bind].
    eauto.
Qed.

Lemma pass_candles_total cutoff_time snaps products :
  volumes_fit cutoff_time snaps ->
  exists cs, pass_candles cutoff_time snaps products = Ok cs.
Proof.
  intros Hfit. induction products as [| pid products (cs & IH)]; simpl; [eauto |].
  destruct (product_candle_total _ _ pid Hfit) as (oc & ->). rewrite IH. simpl. eauto.
Qed.

Lemma pass_succeeds now interval_minutes db cutoff_time :
  cutoff now interval_minutes = Ok cutoff_time ->
  volumes_fit cutoff_time (order_book_snapshot db) ->
  exists r, generate_candles now interval_minutes db = Ok r.
Proof.
  intros Hc Hfit. unfold generate_candles. rewrite Hc. cbn [bind].
  rewrite candle_loop_pass.
  destruct (pass_candles_total _ _
              (products_in_window cutoff_time (order_book_snapshot db)) Hfit) as (cs & ->).
  cbn [bind]. eauto.
Qed.

Lemma window_amount_bound (f : Snap.row -> bool) tbl :
  Z.abs (total_amount (filter f tbl)) <= gross_amount tbl.
Proof.
  induction tbl as [| r tbl IH]; simpl; [lia |].
  destruct (f r); simpl; lia.
Qed.

Lemma volumes_fit_gross cutoff_time snaps :
  gross_amount snaps <= bigint_max -> volumes_fit cutoff_time snaps.
Proof.
  intros Hg pid sd. unfold in_bigint, window.
  pose proof (window_amount_bound (top_of_book pid cutoff_time sd) snaps) as Hb.
  unfold bigint_min, bigint_max in *. lia.
Qed.

(** ** C1, C10: one candle per product with BUY top-of-book data *)

Lemma candle_of_pass now interval_minutes db r cutoff_time pid :
  generate_candles now interval_minutes db = Ok r ->
  cutoff now interval_minutes = Ok cutoff_time ->
  snap_keys_unique (order_book_snapshot db) ->
  candle_keys_unique (candles db) ->
  (window pid cutoff_time BUY (order_book_snapshot db) <> [] ->
   exists c e l h lo,
     In c (candles (committed r)) /\
     earliest e (window pid cutoff_time BUY (order_book_snapshot db)) /\
     (forall e', earliest e' (window pid cutoff_time BUY (order_book_snapshot db)) -> e' = e) /\
     latest l (window pid cutoff_time BUY (order_book_snapshot db)) /\
     (forall l', latest l' (window pid cutoff_time BUY (order_book_snapshot db)) -> l' = l) /\
     highest_price h (window pid cutoff_time BUY (order_book_snapshot db)) /\
     lowest_price lo (window pid cutoff_time BUY (order_book_snapshot db)) /\
     Candle.product_id c = pid /\
     Candle.timestamp c = Snap.timestamp l /\
     Candle.open c = Some (Snap.price e) /\
     Candle.high c = Some h /\
     Candle.low c = Some lo /\
     Candle.close c = Some (Snap.price l) /\
     Candle.buy_volume c =
       Some (total_amount (window pid cutoff_time BUY (order_book_snapshot db))) /\
     candles_with_key pid (Candle.timestamp c) (candles (committed r)) = 1%nat /\
     forall c', In c' (candles (committed r)) -> Candle.product_id c' = pid ->
                c' = c \/ In c' (candles db)) /\
  (window pid cutoff_time BUY (order_book_snapshot db) = [] ->
   candles_of pid (candles (committed r)) = candles_of pid (candles db)).
Proof.
  intros H Hc Hsu Hcu. split; [| apply (pass_absent _ _ _ _ _ _ H Hc)].
  intros Hne. destruct (pass_present _ _ _ _ _ _ H Hc Hne) as (c & Hpc & Hin & Honly).
  destruct (product_candle_fields _ _ _ _ Hpc) as (_ & e & l & h & lo & He & Hl & Hh & Hlo & Hceq).
  exists c, e, l, h, lo.
  split; [exact Hin |]. split; [exact He |].
  split; [intros e' He'; apply (earliest_unique _ _ _ _ _ _ Hsu He' He) |].
  split; [exact Hl |].
  split; [intros l' Hl'; apply (latest_unique _ _ _ _ _ _ Hsu Hl' Hl) |].
  split; [exact Hh |]. split; [exact Hlo |].
  assert (Hpid : Candle.product_id c = pid) by (rewrite Hceq; reflexivity).
  split; [exact Hpid |].
  repeat (split; [rewrite Hceq; reflexivity |]).
  split; [| exact Honly].
  rewrite <- Hpid. apply candles_with_key_one; [| exact Hin].
  apply (pass_unique _ _ _ _ _ H Hc Hcu).
Qed.

(** C1.  A pass with cutoff [C] whose volumes fit their columns succeeds.
    Over a store whose keys are unique, a product with at least one BUY
    rank-1 snapshot at or after [C] then has its candle in the candle
    table, stamped with the timestamp of the latest such snapshot, opening
    at the price of the earliest, closing at the price of the latest, with
    the highest and lowest price as high and low and the sum of the
    amounts as buy volume; the table holds exactly one row under that
    candle's key, and every other row of the product was there before the
    pass.  For a product with no such snapshot the pass leaves the
    product's candles as they were. *)
Theorem one_candle_per_product now interval_minutes db cutoff_time pid :
  cutoff now interval_minutes = Ok cutoff_time ->
  volumes_fit cutoff_time (order_book_snapshot db) ->
  snap_keys_unique (order_book_snapshot db) ->
  candle_keys_unique (candles db) ->
  exists r,
    generate_candles now interval_minutes db = Ok r /\
    (window pid cutoff_time BUY (order_book_snapshot db) <> [] ->
     exists c e l h lo,
       In c (candles (committed r)) /\
       earliest e (window pid cutoff_time BUY (order_book_snapshot db)) /\
       (forall e', earliest e' (window pid cutoff_time BUY (order_book_snapshot db)) ->
                   e' = e) /\
       latest l (window pid cutoff_time BUY (order_book_snapshot db)) /\
       (forall l', latest l' (window pid cutoff_time BUY (order_book_snapshot db)) ->
                   l' = l) /\
       highest_price h (window pid cutoff_time BUY (order_book_snapshot db)) /\
       lowest_price lo (window pid cutoff_time BUY (order_book_snapshot db)) /\
       Candle.product_id c = pid /\
       Candle.timestamp c = Snap.timestamp l /\
       Candle.open c = Some (Snap.price e) /\
       Candle.high c = Some h /\
       Candle.low c = Some lo /\
       Candle.close c = Some (Snap.price l) /\
       Candle.buy_volume c =
         Some (total_amount (window pid cutoff_time BUY (order_book_snapshot db))) /\
       candles_with_key pid (Candle.timestamp c) (candles (committed r)) = 1%nat /\
       forall c', In c' (candles (committed r)) -> Candle.product_id c' = pid ->
                  c' = c \/ In c' (candles db)) /\
    (window pid cutoff_time BUY (order_book_snapshot db) = [] ->
     candles_of pid (candles (committed r)) = candles_of pid (candles db)).
Proof.
  intros Hc Hfit Hsu Hcu. destruct (pass_succeeds _ _ _ _ Hc Hfit) as (r & Hr).
  exists r. split; [exact Hr |]. apply (candle_of_pass _ _ _ _ _ pid Hr Hc Hsu Hcu).
Qed.

Lemma sample_volumes_fit : volumes_fit (sample_now - 60000000) sample_snapshots.
Proof.
  apply volumes_fit_gross. vm_compute. discriminate.
Qed.

(** The sample store: the pass succeeds, product X gets its candle with
    buy volume 175, and that candle is the only row of X in the table. *)
Lemma one_candle_per_product_witness :
  cutoff sample_now 1 = Ok (sample_now - 60000000) /\
  volumes_fit (sample_now - 60000000) (order_book_snapshot sample_db) /\
  snap_keys_unique (order_book_snapshot sample_db) /\
  candle_keys_unique (candles sample_db) /\
  window "X" (sample_now - 60000000) BUY (order_book_snapshot sample_db) <> [] /\
  exists r c,
    generate_candles sample_now 1 sample_db = Ok r /\
    In c (candles (committed r)) /\
    Candle.product_id c = "X" /\
    Candle.buy_volume c =
      Some (total_amount (window "X" (sample_now - 60000000) BUY
                                 (order_book_snapshot sample_db))).
Proof.
  assert (H2 : cutoff sample_now 1 = Ok (sample_now - 60000000))
    by (vm_compute; reflexivity).
  assert (Hf : volumes_fit (sample_now - 60000000) (order_book_snapshot sample_db))
    by exact sample_volumes_fit.
  assert (H3 : snap_keys_unique (order_book_snapshot sample_db)) by exact sample_keys_unique.
  assert (H4 : candle_keys_unique (candles sample_db)) by constructor.
  assert (H5 : window "X" (sample_now - 60000000) BUY (order_book_snapshot sample_db) <> [])
    by (vm_compute; discriminate).
  repeat (split; [assumption |]).
  destruct (one_candle_per_product _ _ _ _ "X" H2 Hf H3 H4) as (r & Hr & Hpresent & _).
  destruct (Hpresent H5)
    as (c & e & l & h & lo & Hin & _ & _ & _ & _ & _ & _ & Hp & _ & _ & _ & _ & _ & Hb & _).
  exists r, c. auto.
Defined.

Lemma sell_volume_of_pass now interval_minutes db r cutoff_time pid :
  generate_candles now interval_minutes db = Ok r ->
  cutoff now interval_minutes = Ok cutoff_time ->
  (window pid cutoff_time BUY (order_book_snapshot db) <> [] ->
   exists c l,
     In c (candles (committed r)) /\
     latest l (window pid cutoff_time BUY (order_book_snapshot db)) /\
     Candle.product_id c = pid /\
     Candle.timestamp c = Snap.timestamp l /\
     Candle.sell_volume c =
       Some (total_amount (window pid cutoff_time SELL (order_book_snapshot db))) /\
     (window pid cutoff_time SELL (order_book_snapshot db) = [] ->
      Candle.sell_volume c = Some 0)) /\
  (window pid cutoff_time BUY (order_book_snapshot db) = [] ->
   candles_of pid (candles (committed r)) = candles_of pid (candles db) /\
   forall c, In c (candles (committed r)) -> Candle.product_id c = pid -> In c (candles db)).
Proof.
  intros H Hc. split.
  - intros Hne. destruct (pass_present _ _ _ _ _ _ H Hc Hne) as (c & Hpc & Hin & _).
    destruct (product_candle_fields _ _ _ _ Hpc)
      as (_ & e & l & h & lo & _ & Hl & _ & _ & Hceq).
    exists c, l. split; [exact Hin |]. split; [exact Hl |].
    rewrite Hceq. cbn. repeat (split; [reflexivity |]).
    intros ->. reflexivity.
  - intros He. pose proof (pass_absent _ _ _ _ _ _ H Hc He) as Heq.
    split; [exact Heq |]. intros c Hin Hp.
    assert (Hc' : In c (candles_of pid (candles (committed r)))).
    { apply filter_In. split; [exact Hin | apply String.eqb_eq, Hp]. }
    rewrite Heq in Hc'. apply filter_In in Hc'. tauto.
Qed.

(** C10.  Whether a candle is produced depends on the BUY side only.  In a
    pass whose volumes fit their columns, a product with a BUY rank-1
    snapshot in the window gets its candle, and the candle's sell volume is
    the sum over the SELL rank-1 snapshots in the window, hence 0 when
    there is none; a product with no BUY rank-1 snapshot in the window
    gets no candle, whatever its SELL side holds. *)
Theorem candle_needs_buy_side_only now interval_minutes db cutoff_time pid :
  cutoff now interval_minutes = Ok cutoff_time ->
  volumes_fit cutoff_time (order_book_snapshot db) ->
  exists r,
    generate_candles now interval_minutes db = Ok r /\
    (window pid cutoff_time BUY (order_book_snapshot db) <> [] ->
     exists c l,
       In c (candles (committed r)) /\
       latest l (window pid cutoff_time BUY (order_book_snapshot db)) /\
       Candle.product_id c = pid /\
       Candle.timestamp c = Snap.timestamp l /\
       Candle.sell_volume c =
         Some (total_amount (window pid cutoff_time SELL (order_book_snapshot db))) /\
       (window pid cutoff_time SELL (order_book_snapshot db) = [] ->
        Candle.sell_volume c = Some 0)) /\
    (window pid cutoff_time BUY (order_book_snapshot db) = [] ->
     candles_of pid (candles (committed r)) = candles_of pid (candles db) /\
     forall c, In c (candles (committed r)) -> Candle.product_id c = pid ->
               In c (candles db)).
Proof.
  intros Hc Hfit. destruct (pass_succeeds _ _ _ _ Hc Hfit) as (r & Hr).
  exists r. split; [exact Hr |]. apply (sell_volume_of_pass _ _ _ _ _ pid Hr Hc).
Qed.

(** The sample store: X has no SELL rank-1 snapshot and its candle has
    sell volume 0; Y has only a SELL snapshot and gets no candle. *)
Lemma candle_needs_buy_side_only_witness :
  cutoff sample_now 1 = Ok (sample_now - 60000000) /\
  volumes_fit (sample_now - 60000000) (order_book_snapshot sample_db) /\
  window "Y" (sample_now - 60000000) BUY (order_book_snapshot sample_db) = [] /\
  window "Y" (sample_now - 60000000) SELL (order_book_snapshot sample_db) <> [] /\
  exists r,
    generate_candles sample_now 1 sample_db = Ok r /\
    candles_of "Y" (candles (committed r)) = candles_of "Y" (candles sample_db).
Proof.
  assert (H2 : cutoff sample_now 1 = Ok (sample_now - 60000000))
    by (vm_compute; reflexivity).
  assert (Hf : volumes_fit (sample_now - 60000000) (order_book_snapshot sample_db))
    by exact sample_volumes_fit.
  assert (H3 : window "Y" (sample_now - 60000000) BUY (order_book_snapshot sample_db) = [])
    by (vm_compute; reflexivity).
  repeat (split; [assumption |]).
  split; [vm_compute; discriminate |].
  destruct (candle_needs_buy_side_only _ _ _ _ "Y" H2 Hf) as (r & Hr & _ & Habsent).
  exists r. split; [exact Hr | exact (proj1 (Habsent H3))].
Defined.

(** ** C5: the retention sweep *)

Lemma delete_older_keeps cutoff_time tbl :
  delete_older cutoff_time tbl = filter (fun s => cutoff_time <=? Snap.timestamp s) tbl.
Proof.
  unfold delete_older. apply filter_ext. intros s. symmetry. apply Z.leb_antisym.
Qed.

(** C5.  A pass with cutoff [C] commits exactly the snapshots whose
    timestamp is at or after [C], each as it was and in the same order:
    none older than [C] remains, and none at or after [C] is dropped or
    changed. *)
Theorem sweep_keeps_window_only now interval_minutes db r cutoff_time :
  generate_candles now interval_minutes db = Ok r ->
  cutoff now interval_minutes = Ok cutoff_time ->
  order_book_snapshot (committed r) =
    filter (fun s => cutoff_time <=? Snap.timestamp s) (order_book_snapshot db) /\
  (forall s, In s (order_book_snapshot (committed r)) ->
             In s (order_book_snapshot db) /\ cutoff_time <= Snap.timestamp s) /\
  (forall s, In s (order_book_snapshot db) -> cutoff_time <= Snap.timestamp s ->
             In s (order_book_snapshot (committed r))) /\
  deleted_rows r =
    Z.of_nat (List.length (filter (fun s => Snap.timestamp s <? cutoff_time)
                                  (order_book_snapshot db))).
Proof.
  intros H Hc.
  assert (Hs : order_book_snapshot (committed r) =
               filter (fun s => cutoff_time <=? Snap.timestamp s) (order_book_snapshot db)).
  { destruct (generate_candles_inv _ _ _ _ _ H Hc) as (cs & _ & Hr & _).
    rewrite Hr. cbn [order_book_snapshot]. apply delete_older_keeps. }
  split; [exact Hs | split; [| split]].
  - intros s Hin. rewrite Hs in Hin. apply filter_In in Hin.
    rewrite Z.leb_le in Hin. exact Hin.
  - intros s Hin Hge. rewrite Hs. apply filter_In. rewrite Z.leb_le. auto.
  - unfold generate_candles in H. rewrite Hc in H. cbn [bind] in H.
    destruct (candle_loop _ _ _ _ _) as [looped |]; cbn [bind] in H; [| discriminate].
    inversion H; subst r; clear H Hs. cbn [deleted_rows]. unfold COUNT_star, delete_older.
    rewrite <- Nat2Z.inj_sub by apply filter_length_le. f_equal.
    rewrite <- (filter_length (fun s => Snap.timestamp s <? cutoff_time)
                              (order_book_snapshot db)).
    lia.
Qed.

Lemma sweep_keeps_window_only_witness :
  generate_candles sample_now 1 sample_db = Ok sample_pass /\
  cutoff sample_now 1 = Ok (sample_now - 60000000) /\
  order_book_snapshot (committed sample_pass) =
    filter (fun s => sample_now - 60000000 <=? Snap.timestamp s)
           (order_book_snapshot sample_db).
Proof.
  assert (H1 : generate_candles sample_now 1 sample_db = Ok sample_pass)
    by (vm_compute; reflexivity).
  assert (H2 : cutoff sample_now 1 = Ok (sample_now - 60000000))
    by (vm_compute; reflexivity).
  repeat (split; [assumption |]).
  exact (proj1 (sweep_keeps_window_only _ _ _ _ _ H1 H2)).
Defined.

(** ** C3: re-aggregation *)

Lemma filter_implied A (f g : A -> bool) l :
  (forall x, f x = true -> g x = true) -> filter f (filter g l) = filter f l.
Proof.
  intros Himp. induction l as [| x l IH]; simpl; [reflexivity |].
  destruct (g x) eqn:Eg; simpl.
  - rewrite IH. reflexivity.
  - destruct (f x) eqn:Ef; [| exact IH]. apply Himp in Ef. congruence.
Qed.

Lemma window_after_sweep pid cutoff_time sd tbl :
  window pid cutoff_time sd (delete_older cutoff_time tbl) = window pid cutoff_time sd tbl.
Proof.
  unfold window, delete_older. apply filter_implied. intros s.
  unfold top_of_book. rewrite !andb_true_iff, negb_true_iff, Z.leb_le, Z.ltb_ge. tauto.
Qed.

Lemma products_after_sweep cutoff_time tbl :
  products_in_window cutoff_time (delete_older cutoff_time tbl) =
  products_in_window cutoff_time tbl.
Proof.
  unfold products_in_window, delete_older. f_equal. f_equal. apply filter_implied.
  intros s. rewrite negb_true_iff, Z.leb_le, Z.ltb_ge. tauto.
Qed.

Lemma product_candle_after_sweep cutoff_time tbl pid :
  product_candle cutoff_time (delete_older cutoff_time tbl) pid =
  product_candle cutoff_time tbl pid.
Proof.
  unfold product_candle.
  assert (Hq : ohlc_query pid cutoff_time (delete_older cutoff_time tbl) =
               ohlc_query pid cutoff_time tbl).
  { unfold ohlc_query, price_sequence.
    change (filter (top_of_book pid cutoff_time BUY) (delete_older cutoff_time tbl))
      with (window pid cutoff_time BUY (delete_older cutoff_time tbl)).
    rewrite window_after_sweep. reflexivity. }
  rewrite Hq, !sell_volume_query_total, window_after_sweep. reflexivity.
Qed.

Lemma pass_candles_after_sweep cutoff_time tbl products :
  pass_candles cutoff_time (delete_older cutoff_time tbl) products =
  pass_candles cutoff_time tbl products.
Proof.
  induction products as [| pid products IH]; simpl; [reflexivity |].
  rewrite product_candle_after_sweep, IH. reflexivity.
Qed.

Lemma delete_older_twice cutoff_time tbl :
  delete_older cutoff_time (delete_older cutoff_time tbl) = delete_older cutoff_time tbl.
Proof.
  unfold delete_older. apply filter_implied. auto.
Qed.

Lemma upsert_absent c tbl : stored c tbl = None -> upsert c tbl = tbl ++ [c].
Proof.
  unfold stored. induction tbl as [| x tbl IH]; [reflexivity |].
  rewrite upsert_cons. simpl. destruct (Candle.same_key x c); [discriminate |].
  intros H. rewrite (IH H). reflexivity.
Qed.

Lemma upsert_present c tbl r0 :
  stored c tbl = Some r0 ->
  map candle_key (upsert c tbl) = map candle_key tbl /\
  List.length (upsert c tbl) = List.length tbl.
Proof.
  intros H.
  assert (He : existsb (fun r => Candle.same_key r c) tbl = true).
  { unfold stored in H. apply find_some in H. apply existsb_exists. eauto. }
  pose proof (upsert_keys c tbl) as Hk. rewrite He in Hk. split; [exact Hk |].
  rewrite <- (length_map candle_key), Hk, length_map. reflexivity.
Qed.

(** C3.  A second pass with the same cutoff, run on the store the first
    pass committed, succeeds and commits that same store again: every
    candle is rewritten with the values it already has and no row is
    added.  The upsert itself appends the row when no candle is stored
    under its (product_id, timestamp) key and otherwise overwrites that
    candle in place, so a table with unique keys keeps unique keys. *)
Theorem reaggregation_changes_nothing now interval_minutes db r cutoff_time :
  generate_candles now interval_minutes db = Ok r ->
  cutoff now interval_minutes = Ok cutoff_time ->
  (forall now' interval_minutes',
      cutoff now' interval_minutes' = Ok cutoff_time ->
      generate_candles now' interval_minutes' (committed r) =
      Ok {| committed := committed r;
            candles_created := candles_created r;
            deleted_rows := 0 |}) /\
  (candle_keys_unique (candles db) -> candle_keys_unique (candles (committed r))) /\
  (forall c tbl, stored c tbl = None -> upsert c tbl = tbl ++ [c]) /\
  (forall c tbl r0,
      stored c tbl = Some r0 ->
      stored c (upsert c tbl) = Some c /\
      map candle_key (upsert c tbl) = map candle_key tbl /\
      List.length (upsert c tbl) = List.length tbl).
Proof.
  intros H Hc. split; [| split; [| split]].
  - intros now' interval_minutes' Hc'.
    destruct (generate_candles_inv _ _ _ _ _ H Hc) as (cs & Hp & Hr & Hn).
    unfold generate_candles. rewrite Hc'. cbn [bind]. rewrite candle_loop_pass, Hr.
    cbn [order_book_snapshot candles].
    rewrite products_after_sweep, pass_candles_after_sweep, Hp. cbn [bind fst snd].
    rewrite delete_older_twice, Z.sub_diag, Hn, Z.add_0_l.
    rewrite (upsert_all_stored cs (upsert_all cs (candles db))); [reflexivity |].
    intros c Hin. apply stored_upsert_all; [| exact Hin].
    apply (pass_candles_pids _ _ _ _ Hp), NoDup_nodup.
  - apply (pass_unique _ _ _ _ _ H Hc).
  - apply upsert_absent.
  - intros c tbl r0 Hs. split; [apply stored_upsert | apply (upsert_present _ _ _ Hs)].
Qed.

Lemma reaggregation_changes_nothing_witness :
  generate_candles sample_now 1 sample_db = Ok sample_pass /\
  cutoff sample_now 1 = Ok (sample_now - 60000000) /\
  cutoff (sample_now + 60000000) 2 = Ok (sample_now - 60000000) /\
  generate_candles (sample_now + 60000000) 2 (committed sample_pass) =
  Ok {| committed := committed sample_pass;
        candles_created := candles_created sample_pass;
        deleted_rows := 0 |}.
Proof.
  assert (H1 : generate_candles sample_now 1 sample_db = Ok sample_pass)
    by (vm_compute; reflexivity).
  assert (H2 : cutoff sample_now 1 = Ok (sample_now - 60000000))
    by (vm_compute; reflexivity).
  assert (H3 : cutoff (sample_now + 60000000) 2 = Ok (sample_now - 60000000))
    by (vm_compute; reflexivity).
  repeat (split; [assumption |]).
  exact (proj1 (reaggregation_changes_nothing _ _ _ _ _ H1 H2) _ _ H3).
Defined.

(** ** C7, C9: the read service *)

Ltac empty_set :=
  eexists (Some _), []; split; [reflexivity | split; intros; reflexivity].

Ltac run_handler :=
  unfold Api.try_except, Api.iobind, Api.lift, Api.get_db, Api.execute, Api.close, Api.ret;
  cbn [app fst snd].

(** C9 as stated fails for the candles endpoint: with no [product] and an
    [hours] text that is not an integer, [int] raises before the product
    check, and the answer is 200 with an empty candle list, not 400. *)
Lemma candles_bad_hours_is_not_400 :
  Api.get_candles sample_now
                  {| Api.arg_product := None; Api.arg_hours := Some "abc" |}
                  (Api.Reachable sample_db) =
  (Api.jsonify (Api.CandleSet (Some (Api.Str (ValueError "abc"))) []), []) /\
  Api.status (fst (Api.get_candles sample_now
                     {| Api.arg_product := None; Api.arg_hours := Some "abc" |}
                     (Api.Reachable sample_db))) <> 400.
Proof.
  split; [reflexivity | vm_compute; discriminate].
Qed.

(** C9, as the code has it.  Without a [product] argument the order-book
    endpoint answers 400 and makes no call on the store.  The candles
    endpoint does the same provided its [hours] argument is absent or is
    a text [int] reads as an integer (decimal digits of any script, with
    whitespace around them); when [hours] is a text [int] rejects it
    answers 200 with the error text and an empty candle list, also without
    any call on the store. *)
Theorem missing_product_is_bad_request :
  (forall product s,
      Api.falsy product = true ->
      Api.get_orderbook product s = (bad_request, [])) /\
  (forall now args s,
      Api.falsy (Api.arg_product args) = true ->
      hours_readable args ->
      Api.get_candles now args s = (bad_request, [])) /\
  (forall now args s text,
      Api.arg_hours args = Some text ->
      parse_int text = None ->
      Api.get_candles now args s =
      (Api.jsonify (Api.CandleSet (Some (Api.Str (ValueError text))) []), [])).
Proof.
  split; [| split].
  - intros product s Hf. unfold Api.get_orderbook. rewrite Hf. reflexivity.
  - intros now args s Hf Hh. unfold Api.get_candles, hours_readable, int in *.
    rewrite Hf. destruct (Api.arg_hours args) as [text |]; [| reflexivity].
    destruct Hh as (h & ->). reflexivity.
  - intros now args s text Ht Hp. unfold Api.get_candles, int. rewrite Ht, Hp.
    reflexivity.
Qed.

(** No product: 400 from the order book; 400 from the candles endpoint
    for hours [" 24 "] and for the Arabic-Indic digit three, which [int]
    reads as 3; 200 with the error for hours ["1.5"]. *)
Lemma missing_product_is_bad_request_witness :
  (Api.falsy None = true /\
   Api.get_orderbook None (Api.Unreachable "connection refused") = (bad_request, [])) /\
  (hours_readable {| Api.arg_product := None; Api.arg_hours := Some " 24 " |} /\
   Api.get_candles sample_now {| Api.arg_product := None; Api.arg_hours := Some " 24 " |}
                   (Api.Reachable sample_db) = (bad_request, [])) /\
  (hours_readable {| Api.arg_product := None; Api.arg_hours := Some arabic_indic_three |} /\
   Api.get_candles sample_now
                   {| Api.arg_product := None; Api.arg_hours := Some arabic_indic_three |}
                   (Api.Reachable sample_db) = (bad_request, [])) /\
  (parse_int "1.5" = None /\
   Api.get_candles sample_now {| Api.arg_product := Some "X"; Api.arg_hours := Some "1.5" |}
                   (Api.Reachable sample_db) =
   (Api.jsonify (Api.CandleSet (Some (Api.Str (ValueError "1.5"))) []), [])).
Proof.
  assert (Hh : hours_readable {| Api.arg_product := None; Api.arg_hours := Some " 24 " |})
    by (exists 24; reflexivity).
  assert (Hu : hours_readable
                 {| Api.arg_product := None; Api.arg_hours := Some arabic_indic_three |})
    by (exists 3; reflexivity).
  split; [split; [reflexivity |] |
          split; [split; [exact Hh |] |
                  split; [split; [exact Hu |] | split; [reflexivity |]]]].
  - exact (proj1 missing_product_is_bad_request None _ eq_refl).
  - exact (proj1 (proj2 missing_product_is_bad_request) sample_now
                 {| Api.arg_product := None; Api.arg_hours := Some " 24 " |}
                 _ eq_refl Hh).
  - exact (proj1 (proj2 missing_product_is_bad_request) sample_now
                 {| Api.arg_product := None; Api.arg_hours := Some arabic_indic_three |}
                 _ eq_refl Hu).
  - exact (proj2 (proj2 missing_product_is_bad_request) sample_now
                 {| Api.arg_product := Some "X"; Api.arg_hours := Some "1.5" |}
                 _ "1.5" eq_refl eq_refl).
Defined.

Lemma falsy_product p : p <> "" -> Api.falsy (Some p) = false.
Proof.
  intros Hp. simpl. apply String.eqb_neq, Hp.
Qed.

Lemma filter_none A (f : A -> bool) l :
  (forall x, In x l -> f x = false) -> filter f l = [].
Proof.
  induction l as [| x l IH]; intros H; simpl; [reflexivity |].
  rewrite (H x (or_introl eq_refl)). apply IH. intros y Hy. apply H. right. exact Hy.
Qed.

(** C7.  Asked for a product, each read query answers 200 with a result
    set, and that set is empty whenever the store is unreachable or holds
    no matching row: no candle at all for the product list, no candle of
    the product at or after the requested cutoff for the candle query, no
    snapshot of the product for the order book. *)
Theorem read_queries_degrade_to_empty :
  (forall s,
      exists ids,
        fst (Api.get_products s) = Api.jsonify (Api.ProductList ids) /\
        (unreachable s -> ids = []) /\
        (forall db, s = Api.Reachable db -> candles db = [] -> ids = [])) /\
  (forall now args s p,
      Api.arg_product args = Some p -> p <> "" ->
      exists err rows,
        fst (Api.get_candles now args s) = Api.jsonify (Api.CandleSet err rows) /\
        (unreachable s -> rows = []) /\
        (forall db, s = Api.Reachable db ->
                    (forall cutoff_time, requested_cutoff now args = Ok cutoff_time ->
                                         Api.select_candles p cutoff_time db = []) ->
                    rows = [])) /\
  (forall s p,
      p <> "" ->
      exists err buys sells,
        fst (Api.get_orderbook (Some p) s) = Api.jsonify (Api.OrderBook err buys sells) /\
        (unreachable s -> buys = [] /\ sells = []) /\
        (forall db, s = Api.Reachable db ->
                    (forall r, In r (order_book_snapshot db) -> Snap.product_id r <> p) ->
                    buys = [] /\ sells = [])).
Proof.
  split; [| split].
  - intros [msg | db]; unfold Api.get_products; run_handler.
    + exists []. split; [reflexivity | split; [reflexivity | intros db H; discriminate]].
    + exists (Api.select_products db). split; [reflexivity | split; [intros [] |]].
      intros db' Hdb He. inversion Hdb; subst db'. unfold Api.select_products.
      rewrite He. reflexivity.
  - intros now args s p Hp Hne. unfold Api.get_candles, requested_cutoff. rewrite Hp.
    rewrite (falsy_product _ Hne). run_handler.
    destruct (match Api.arg_hours args with
              | Some text => int text
              | None => Ok 1
              end) as [hours | e]; cbn [fst bind]; [| empty_set].
    destruct s as [msg | db]; cbn [fst]; [empty_set |].
    destruct (timedelta_hours hours) as [delta | e]; cbn [fst bind]; [| empty_set].
    destruct (datetime_sub now delta) as [cutoff_time | e]; cbn [fst bind]; [| empty_set].
    cbn [get].
    destruct (Api.select_candles p cutoff_time db) as [| row rows] eqn:Es; cbn [fst].
    + exists (Some (Api.Text "No data available for this product")), []. auto.
    + destruct (Api.candles_to_json (row :: rows)) as [js | e]; cbn [fst]; [| empty_set].
      exists None, js. split; [reflexivity | split; [intros [] |]].
      intros db' Hdb Hnone. inversion Hdb; subst db'.
      rewrite (Hnone cutoff_time eq_refl) in Es. discriminate.
  - intros s p Hne. unfold Api.get_orderbook. rewrite (falsy_product _ Hne). run_handler.
    destruct s as [msg | db]; cbn [fst get].
    + exists (Some (Api.Str (OperationalError msg))), [], [].
      split; [reflexivity | split; [auto | intros db H; discriminate]].
    + destruct (Api.select_latest_time p db) as [latest_time |] eqn:El; cbn [fst].
      * eexists None, _, _. split; [reflexivity | split; [intros [] |]].
        intros db' Hdb Hnone. inversion Hdb; subst db'.
        unfold Api.select_latest_time in El. rewrite filter_none in El; [discriminate |].
        intros r Hr. apply String.eqb_neq, Hnone, Hr.
      * exists None, [], []. auto.
Qed.

(** An unreachable store, and a store without rows for the product. *)
Lemma read_queries_degrade_to_empty_witness :
  ("X" <> "" /\
   fst (Api.get_candles sample_now {| Api.arg_product := Some "X"; Api.arg_hours := None |}
                        (Api.Unreachable "connection refused")) =
   Api.jsonify (Api.CandleSet (Some (Api.Str (OperationalError "connection refused"))) [])) /\
  exists err buys sells,
    fst (Api.get_orderbook (Some "Z") (Api.Reachable sample_db)) =
    Api.jsonify (Api.OrderBook err buys sells) /\ buys = [] /\ sells = [].
Proof.
  assert (Hx : "X" <> "") by discriminate.
  assert (Hz : "Z" <> "") by discriminate.
  split; [split; [exact Hx | reflexivity] |].
  destruct (proj2 (proj2 read_queries_degrade_to_empty) (Api.Reachable sample_db) "Z" Hz)
    as (err & buys & sells & Heq & _ & Hnone).
  exists err, buys, sells. split; [exact Heq |].
  apply (Hnone sample_db eq_refl).
  intros r Hr. cbn in Hr.
  repeat (destruct Hr as [<- | Hr]; [discriminate |]). destruct Hr.
Defined.

(** * Further properties of the code *)

(** ** filter_and_extract_products: when it raises, and what it keeps *)

Lemma filter_loop_priced now items :
  forall acc out, filter_loop now items acc = Ok out -> priced items.
Proof.
  induction items as [| [pid pd] items IH]; intros acc out H.
  - intros ? ? ? ? ? ? [].
  - simpl in H.
    assert (Hrest : forall acc', filter_loop now items acc' = Ok out ->
                                 (forall b bs s ss,
                                     buy_summary pd = Some (b :: bs) ->
                                     sell_summary pd = Some (s :: ss) ->
                                     (exists pb, pricePerUnit b = Some pb) /\
                                     (exists ps, pricePerUnit s = Some ps)) ->
                                 priced ((pid, pd) :: items)).
    { intros acc' H' Hhere pid0 pd0 b bs s ss [Heq | Hin] Hb Hs.
      - inversion Heq; subst. eauto.
      - apply (IH _ _ H' pid0 pd0 b bs s ss Hin Hb Hs). }
    destruct (buy_summary pd) as [[| b bs] |] eqn:Eb; simpl in H;
      try (apply (Hrest _ H); intros; discriminate).
    destruct (sell_summary pd) as [[| s ss] |] eqn:Es; simpl in H;
      try (apply (Hrest _ H); intros; discriminate).
    ok_inv H. apply getitem_Ok in Hv. ok_inv H. apply getitem_Ok in Hv0.
    assert (Hhere : forall b' bs' s' ss',
               Some (b :: bs) = Some (b' :: bs') -> Some (s :: ss) = Some (s' :: ss') ->
               (exists pb, pricePerUnit b' = Some pb) /\
               (exists ps, pricePerUnit s' = Some ps)).
    { intros b' bs' s' ss' Hb Hs. inversion Hb; inversion Hs; subst. eauto. }
    destruct (_ || _); apply (Hrest _ H Hhere).
Qed.

Lemma filter_loop_raises now items :
  forall acc e, filter_loop now items acc = Raise e -> e = KeyError "pricePerUnit".
Proof.
  induction items as [| [pid pd] items IH]; intros acc e H; simpl in H; [discriminate |].
  destruct (get (buy_summary pd) []) as [| b bs]; [apply (IH _ _ H) |].
  destruct (get (sell_summary pd) []) as [| s ss]; [apply (IH _ _ H) |].
  destruct (pricePerUnit b) as [pb |]; simpl in H; [| inversion H; reflexivity].
  destruct (pricePerUnit s) as [ps |]; simpl in H; [| inversion H; reflexivity].
  destruct (_ || _); apply (IH _ _ H).
Qed.

(** X1.  The filter returns exactly when every product with a level on
    both sides carries a price on both best levels; otherwise it raises,
    and the exception is always [KeyError] for [pricePerUnit]. *)
Theorem filter_returns_iff_priced now data :
  (priced (items_of data) <-> exists out, filter_and_extract_products now data = Ok out) /\
  (forall e, filter_and_extract_products now data = Raise e -> e = KeyError "pricePerUnit").
Proof.
  split; [split; [apply filter_total |] |].
  - intros (out & H). unfold filter_and_extract_products, items_of in *.
    destruct data as [[[items |]] |]; simpl in *;
      try (intros ? ? ? ? ? ? []).
    apply (filter_loop_priced _ _ _ _ H).
  - intros e H. unfold filter_and_extract_products in H.
    destruct data as [[[items |]] |]; simpl in H; try discriminate.
    apply (filter_loop_raises _ _ _ _ H).
Qed.

Lemma filter_loop_accepted now items :
  forall acc out,
    filter_loop now items acc = Ok out ->
    out = acc ++ map (fun it => normalized now (fst it) (snd it))
                     (filter (fun it => accepted (snd it)) items).
Proof.
  induction items as [| [pid pd] items IH]; intros acc out H.
  - simpl in H. inversion H. simpl. rewrite app_nil_r. reflexivity.
  - cbn [filter_loop] in H. cbn [filter snd fst]. unfold accepted at 1.
    destruct (get (buy_summary pd) []) as [| b bs] eqn:Eb; [apply (IH _ _ H) |].
    destruct (get (sell_summary pd) []) as [| s ss] eqn:Es; [apply (IH _ _ H) |].
    destruct (pricePerUnit b) as [pb |]; cbn [getitem bind] in H; [| discriminate].
    destruct (pricePerUnit s) as [ps |]; cbn [getitem bind] in H; [| discriminate].
    destruct (_ || _); cbn [negb]; [apply (IH _ _ H) |].
    assert (Hn : normalized now pid pd =
                 {| product_id := pid; timestamp := now;
                    buy_orders := firstn 5 (b :: bs);
                    sell_orders := firstn 5 (s :: ss) |}).
    { unfold normalized. rewrite Eb, Es. reflexivity. }
    rewrite (IH _ _ H). cbn [map fst snd]. rewrite Hn, <- app_assoc. reflexivity.
Qed.

Lemma NoDup_map_filter A B (g : A -> B) (f : A -> bool) l :
  NoDup (map g l) -> NoDup (map g (filter f l)).
Proof.
  induction l as [| x l IH]; intros Hnd; simpl; [constructor |].
  simpl in Hnd. inversion Hnd as [| ? ? Hx Hnd']; subst.
  destruct (f x); simpl; [| auto]. constructor; [| auto].
  intros Hin. apply Hx. apply in_map_iff in Hin. destruct Hin as (y & Hy & Hin).
  apply filter_In in Hin. apply in_map_iff. exists y. tauto.
Qed.

(** X2.  The filter keeps the accepted products in the order of the
    products dict, one normalized product each; so the output is never
    longer than the input, and distinct product ids in give distinct
    product ids out. *)
Theorem filter_keeps_order now data out :
  filter_and_extract_products now data = Ok out ->
  out = map (fun it => normalized now (fst it) (snd it))
            (filter (fun it => accepted (snd it)) (items_of data)) /\
  (List.length out <= List.length (items_of data))%nat /\
  (NoDup (map fst (items_of data)) -> NoDup (map product_id out)).
Proof.
  intros H.
  assert (Heq : out = map (fun it => normalized now (fst it) (snd it))
                          (filter (fun it => accepted (snd it)) (items_of data))).
  { unfold filter_and_extract_products, items_of in *.
    destruct data as [[[items |]] |]; simpl in *; try (inversion H; reflexivity).
    apply (filter_loop_accepted _ _ _ _ H). }
  split; [exact Heq | split].
  - rewrite Heq, length_map. apply filter_length_le.
  - intros Hnd. rewrite Heq, map_map. cbn [product_id normalized].
    apply NoDup_map_filter, Hnd.
Qed.

Lemma filter_keeps_order_witness :
  filter_and_extract_products 7 (batch sample_items) = Ok [normalized 7 "DIAMOND" deep_book] /\
  NoDup (map fst (items_of (batch sample_items))) /\
  NoDup (map product_id [normalized 7 "DIAMOND" deep_book]).
Proof.
  assert (Hnd : NoDup (map fst (items_of (batch sample_items)))).
  { cbn. repeat (constructor; [cbn; intros H; repeat (destruct H as [H | H];
                                                      [discriminate H |]); exact H |]).
    constructor. }
  split; [reflexivity | split; [exact Hnd |]].
  exact (proj2 (proj2 (filter_keeps_order 7 (batch sample_items) _ eq_refl)) Hnd).
Defined.

(** ** store_order_book_snapshot: what it reads, builds and writes *)

Lemma side_rows_complete pid ts sd levels :
  forall start,
    (exists rows, side_rows pid ts sd (enumerate levels start) = Ok rows) <->
    Forall complete levels.
Proof.
  induction levels as [| l levels IH]; intros start; simpl.
  - split; [constructor | eauto].
  - split.
    + intros (rows & H). ok_inv H. ok_inv H. ok_inv H. ok_inv H.
      apply getitem_Ok in Hv, Hv0, Hv1. constructor.
      * exists v, v0, v1. auto.
      * apply (IH (start + 1)). eauto.
    + intros Hall. inversion Hall as [| ? ? (q & a & o & Hq & Ha & Ho) Hrest]; subst.
      apply (IH (start + 1)) in Hrest. destruct Hrest as (rows & ->).
      rewrite Hq, Ha, Ho. simpl. eauto.
Qed.

Lemma side_rows_raises pid ts sd ranked :
  forall e, side_rows pid ts sd ranked = Raise e ->
            exists key, e = KeyError key /\ In key ["pricePerUnit"; "amount"; "orders"].
Proof.
  induction ranked as [| [rank l] ranked IH]; intros e H; simpl in H; [discriminate |].
  destruct (pricePerUnit l); simpl in H;
    [| inversion H; exists "pricePerUnit"; simpl; auto].
  destruct (amount l); simpl in H; [| inversion H; exists "amount"; simpl; auto].
  destruct (orders l); simpl in H; [| inversion H; exists "orders"; simpl; auto].
  destruct (side_rows pid ts sd ranked) as [rows | e'] eqn:E; simpl in H; [discriminate |].
  inversion H; subst. apply IH. reflexivity.
Qed.

Lemma build_rows_complete products :
  (exists rows, build_rows products = Ok rows) <->
  (forall p, In p products ->
             Forall complete (buy_orders p) /\ Forall complete (sell_orders p)).
Proof.
  induction products as [| p products IH]; simpl.
  - split; [intros _ p [] | eauto].
  - split.
    + intros (rows & H). ok_inv H. ok_inv H. ok_inv H.
      intros p' [<- | Hin].
      * split.
        -- apply (side_rows_complete (product_id p) (timestamp p) BUY _ 1). eauto.
        -- apply (side_rows_complete (product_id p) (timestamp p) SELL _ 1). eauto.
      * apply (proj1 IH); eauto.
    + intros Hall. destruct (Hall p (or_introl eq_refl)) as (Hb & Hs).
      apply (side_rows_complete (product_id p) (timestamp p) BUY _ 1) in Hb.
      apply (side_rows_complete (product_id p) (timestamp p) SELL _ 1) in Hs.
      destruct Hb as (rb & ->), Hs as (rs & ->).
      destruct (proj2 IH) as (rows & ->); [intros p' Hin; apply Hall; auto |].
      simpl. eauto.
Qed.

Lemma build_rows_raises products :
  forall e, build_rows products = Raise e ->
            exists key, e = KeyError key /\ In key ["pricePerUnit"; "amount"; "orders"].
Proof.
  induction products as [| p products IH]; intros e H; simpl in H; [discriminate |].
  destruct (side_rows _ _ BUY _) as [rb | e1] eqn:Eb; simpl in H;
    [| inversion H; subst; apply (side_rows_raises _ _ _ _ _ Eb)].
  destruct (side_rows _ _ SELL _) as [rs | e2] eqn:Es; simpl in H;
    [| inversion H; subst; apply (side_rows_raises _ _ _ _ _ Es)].
  destruct (build_rows products) as [rows | e3]; simpl in H; [discriminate |].
  inversion H; subst. apply IH. reflexivity.
Qed.

Lemma snapshot_row_raises p e :
  snapshot_row p = Raise e -> exists column, e = DataError column.
Proof.
  unfold snapshot_row, to_varchar, to_int, to_decimal_15_2, to_bigint.
  repeat (match goal with
          | |- context [if ?c then _ else _] => destruct c
          end; simpl);
    intros H; inversion H; eauto.
Qed.

Lemma execute_page_raises rows :
  forall tbl e, execute_page rows tbl = Raise e -> exists column, e = DataError column.
Proof.
  induction rows as [| p rows IH]; intros tbl e H; simpl in H; [discriminate |].
  unfold insert_snapshot in H.
  destruct (snapshot_row p) as [r | e'] eqn:Er; simpl in H.
  - apply (IH _ _ H).
  - inversion H; subst. apply (snapshot_row_raises _ _ Er).
Qed.

Lemma execute_pages_raises pages :
  forall tbl e,
    execute_pages pages tbl = Raise e ->
    (exists column, e = DataError column) \/
    (exists p, In p (List.concat pages) /\ has_nul (p_product_id p) = true /\
               e = ValueError (p_product_id p)).
Proof.
  induction pages as [| page pages IH]; intros tbl e H; simpl in H; [discriminate |].
  destruct (mogrify_page page) as [sqls | e1] eqn:Em; simpl in H.
  - destruct (execute_page sqls tbl) as [tbl' | e2] eqn:Ee; simpl in H.
    + destruct (IH _ _ H) as [Hd | (p & Hp & Hn & He)]; [left; exact Hd | right].
      exists p. simpl. rewrite in_app_iff. auto.
    + inversion H; subst. left. apply (execute_page_raises _ _ _ Ee).
  - inversion H; subst. right.
    destruct (mogrify_page_raises _ _ Em) as (p & Hp & Hn & He).
    exists p. simpl. rewrite in_app_iff. auto.
Qed.

Lemma execute_batch_raises rows tbl e :
  execute_batch rows tbl = Raise e ->
  (exists column, e = DataError column) \/
  (exists p, In p rows /\ has_nul (p_product_id p) = true /\ e = ValueError (p_product_id p)).
Proof.
  unfold execute_batch. intros H. apply execute_pages_raises in H.
  rewrite paginate_concat in H. exact H.
Qed.

(** X3.  The store reads [pricePerUnit], [amount] and [orders] of every
    level it is given, before it writes anything: it returns only if all
    of them are present, and a missing one makes it raise [KeyError] for
    that field.  When all are present two exceptions are left: [ValueError]
    for a product id that contains NUL, which psycopg2 refuses to send,
    and [DataError] for a value that does not fit its column.  It returns
    only for product ids without NUL. *)
Theorem store_reads_every_level products db :
  (forall db1, store_order_book_snapshot products db = Ok db1 ->
               forall p, In p products ->
                         Forall complete (buy_orders p) /\ Forall complete (sell_orders p) /\
                         (buy_orders p ++ sell_orders p <> [] -> sendable (product_id p))) /\
  (forall key, store_order_book_snapshot products db = Raise (KeyError key) ->
               In key ["pricePerUnit"; "amount"; "orders"] /\
               build_rows products = Raise (KeyError key)) /\
  ((forall p, In p products ->
              Forall complete (buy_orders p) /\ Forall complete (sell_orders p)) ->
   forall e, store_order_book_snapshot products db = Raise e ->
             (exists column, e = DataError column) \/
             (exists p, In p products /\ has_nul (product_id p) = true /\
                        e = ValueError (product_id p))).
Proof.
  unfold store_order_book_snapshot. split; [| split].
  - intros db1 H. destruct products as [| p0 ps]; [intros p [] |].
    remember (p0 :: ps) as products eqn:Ep. clear Ep.
    ok_inv H. ok_inv H. intros p Hp.
    destruct (proj1 (build_rows_complete products) (ex_intro _ _ Hv) p Hp) as (Hb & Hs).
    split; [exact Hb | split; [exact Hs |]]. intros Hne.
    destruct (execute_batch_Ok _ _ _ Hv0) as (_ & Hsend). rewrite Forall_forall in Hsend.
    assert (Hl : exists sd l, nth_error (orders_of sd p) 0 = Some l).
    { destruct (buy_orders p) as [| l ls] eqn:Eb.
      - destruct (sell_orders p) as [| l ls] eqn:Es;
          [exfalso; apply Hne; reflexivity |].
        exists SELL, l. cbn [orders_of]. rewrite Es. reflexivity.
      - exists BUY, l. cbn [orders_of]. rewrite Eb. reflexivity. }
    destruct Hl as (sd & l & Hn).
    destruct (build_rows_level _ _ _ _ _ _ Hv Hp Hn) as (q & Hq & Hpid & _).
    rewrite <- Hpid. apply Hsend, Hq.
  - intros key H. destruct products as [| p0 ps]; [discriminate |].
    remember (p0 :: ps) as products eqn:Ep. clear Ep.
    destruct (build_rows products) as [rows | e] eqn:Eb; simpl in H.
    + destruct (execute_batch rows _) as [tbl | e] eqn:Ee; simpl in H; [discriminate |].
      inversion H; subst. apply execute_batch_raises in Ee.
      destruct Ee as [(column & Hc) | (p & _ & _ & Hc)]; discriminate.
    + inversion H; subst. destruct (build_rows_raises _ _ Eb) as (k & Hk & Hin).
      inversion Hk; subst. auto.
  - intros Hall e H. destruct products as [| p0 ps]; [discriminate |].
    remember (p0 :: ps) as products eqn:Ep. clear Ep.
    destruct (proj2 (build_rows_complete products) Hall) as (rows & Hb).
    rewrite Hb in H. simpl in H.
    destruct (execute_batch rows _) as [tbl | e'] eqn:Ee; simpl in H; [discriminate |].
    inversion H; subst.
    destruct (execute_batch_raises _ _ _ Ee) as [Hd | (q & Hq & Hn & He)]; [left; exact Hd |].
    right. destruct (build_rows_spec _ _ Hb _ Hq) as (p & Hp & Hpid & _).
    exists p. rewrite <- Hpid. auto.
Qed.

(** A level without its price, and a product id that holds NUL. *)
Lemma store_reads_every_level_witness :
  (store_order_book_snapshot [normalized 7 "COAL" unpriced_book] empty_db =
   Raise (KeyError "pricePerUnit") /\
   In "pricePerUnit" ["pricePerUnit"; "amount"; "orders"]) /\
  (has_nul nul_id = true /\
   store_order_book_snapshot [normalized 7 nul_id deep_book] empty_db =
   Raise (ValueError nul_id) /\
   ((exists column, ValueError nul_id = DataError column) \/
    (exists p, In p [normalized 7 nul_id deep_book] /\ has_nul (product_id p) = true /\
               ValueError nul_id = ValueError (product_id p)))).
Proof.
  split; [split; [reflexivity |] | split; [reflexivity | split; [reflexivity |]]].
  - exact (proj1 (proj1 (proj2 (store_reads_every_level
                                  [normalized 7 "COAL" unpriced_book] empty_db))
                        "pricePerUnit" eq_refl)).
  - refine (proj2 (proj2 (store_reads_every_level [normalized 7 nul_id deep_book] empty_db))
                  _ (ValueError nul_id) eq_refl).
    intros p [<- | []].
    split; repeat constructor; eexists _, _, _; repeat split; reflexivity.
Defined.

Lemma enumerate_fst_seq A (l : list A) :
  forall k, map fst (enumerate l (Z.of_nat k)) = map Z.of_nat (seq k (List.length l)).
Proof.
  induction l as [| x l IH]; intros k; simpl; [reflexivity |].
  f_equal. replace (Z.of_nat k + 1) with (Z.of_nat (S k)) by lia. apply IH.
Qed.

Lemma side_rows_slots pid ts sd ranked :
  forall rows,
    side_rows pid ts sd ranked = Ok rows ->
    map slot rows = map (fun k => (pid, sd, k)) (map fst ranked).
Proof.
  induction ranked as [| [rank l] ranked IH]; intros rows H; simpl in H.
  - inversion H. reflexivity.
  - ok_inv H. ok_inv H. ok_inv H. ok_inv H. inversion H; subst. simpl.
    unfold slot at 1. simpl. f_equal. apply IH, Hv2.
Qed.

(** X4.  The rows built for a batch are, product by product in batch
    order, the buy levels with ranks 1, 2, ... and then the sell levels
    with ranks 1, 2, ...: ranks are contiguous from 1 on each side, and
    there is one row per level. *)
Theorem built_ranks_are_contiguous products rows :
  build_rows products = Ok rows ->
  map slot rows = flat_map product_slots products /\
  List.length rows =
    list_sum (map (fun p => (List.length (buy_orders p) + List.length (sell_orders p))%nat)
                  products).
Proof.
  revert rows. induction products as [| p products IH]; intros rows H; simpl in H.
  - inversion H. split; reflexivity.
  - ok_inv H. ok_inv H. ok_inv H. inversion H; subst; clear H.
    destruct (IH _ Hv1) as (Hslots & Hlen).
    pose proof (side_rows_slots _ _ _ _ _ Hv) as Hb.
    pose proof (side_rows_slots _ _ _ _ _ Hv0) as Hs.
    change 1 with (Z.of_nat 1) in Hb, Hs. rewrite enumerate_fst_seq in Hb, Hs.
    split.
    + rewrite !map_app, Hb, Hs, Hslots. cbn [flat_map]. unfold product_slots, ranks.
      rewrite <- app_assoc. reflexivity.
    + rewrite !length_app, Hlen. cbn [map list_sum].
      rewrite <- (length_map slot v), <- (length_map slot v0), Hb, Hs.
      rewrite !length_map, !length_seq. unfold list_sum. cbn [fold_right]. lia.
Qed.

Lemma built_ranks_are_contiguous_witness :
  exists rows,
    build_rows [normalized 7 "DIAMOND" deep_book] = Ok rows /\
    map slot rows =
    [("DIAMOND", BUY, 1); ("DIAMOND", BUY, 2); ("DIAMOND", BUY, 3); ("DIAMOND", BUY, 4);
     ("DIAMOND", BUY, 5); ("DIAMOND", SELL, 1); ("DIAMOND", SELL, 2)].
Proof.
  eexists. split; [reflexivity |].
  exact (proj1 (built_ranks_are_contiguous [normalized 7 "DIAMOND" deep_book] _ eq_refl)).
Defined.

Lemma insert_snapshot_appends p tbl tbl1 :
  insert_snapshot p tbl = Ok tbl1 ->
  exists new,
    tbl1 = tbl ++ new /\ (List.length new <= 1)%nat /\
    forall r, In r new -> snapshot_row p = Ok r /\ ~ In (snap_key r) (map snap_key tbl).
Proof.
  unfold insert_snapshot. intros H. ok_inv H. inversion H; subst; clear H.
  destruct (existsb (Snap.same_key v) tbl) eqn:E.
  - exists []. rewrite app_nil_r. split; [reflexivity | split; [simpl; lia | intros r []]].
  - exists [v]. split; [reflexivity | split; [simpl; lia |]].
    intros r [<- | []]. split; [exact Hv |]. intros Hin. apply has_key_iff in Hin. congruence.
Qed.

Lemma execute_page_appends rows :
  forall tbl tbl1,
    execute_page rows tbl = Ok tbl1 ->
    exists new,
      tbl1 = tbl ++ new /\ (List.length new <= List.length rows)%nat /\
      forall r, In r new ->
                (exists p, In p rows /\ snapshot_row p = Ok r) /\
                ~ In (snap_key r) (map snap_key tbl).
Proof.
  induction rows as [| p rows IH]; intros tbl tbl1 H; simpl in H.
  - inversion H; subst. exists []. rewrite app_nil_r.
    split; [reflexivity | split; [simpl; lia | intros r []]].
  - ok_inv H. destruct (insert_snapshot_appends _ _ _ Hv) as (new1 & -> & Hl1 & Hn1).
    destruct (IH _ _ H) as (new2 & -> & Hl2 & Hn2).
    exists (new1 ++ new2). rewrite app_assoc. split; [reflexivity | split].
    + rewrite length_app. simpl. lia.
    + intros r Hin. apply in_app_iff in Hin. destruct Hin as [Hin | Hin].
      * destruct (Hn1 _ Hin) as (Hr & Hk). split; [exists p; simpl; auto | exact Hk].
      * destruct (Hn2 _ Hin) as ((q & Hq & Hr) & Hk). split; [exists q; simpl; auto |].
        intros Hin'. apply Hk. rewrite map_app, in_app_iff. auto.
Qed.

Lemma execute_batch_appends rows tbl tbl1 :
  execute_batch rows tbl = Ok tbl1 ->
  exists new,
    tbl1 = tbl ++ new /\ (List.length new <= List.length rows)%nat /\
    forall r, In r new ->
              (exists p, In p rows /\ snapshot_row p = Ok r) /\
              ~ In (snap_key r) (map snap_key tbl).
Proof.
  intros H. apply execute_batch_Ok in H. apply (execute_page_appends _ _ _ (proj1 H)).
Qed.

(** X5.  The store only appends.  Every snapshot row already in the table
    stays where it is and as it is, also when the batch carries other
    values under its key; the candle table is not touched; the rows added
    carry keys the table did not hold, and there are at most as many of
    them as rows were built. *)
Theorem store_only_appends products db db1 :
  store_order_book_snapshot products db = Ok db1 ->
  candles db1 = candles db /\
  exists new,
    order_book_snapshot db1 = order_book_snapshot db ++ new /\
    (forall r, In r new -> ~ In (snap_key r) (map snap_key (order_book_snapshot db))) /\
    (forall rows, build_rows products = Ok rows ->
                  (List.length new <= List.length rows)%nat).
Proof.
  unfold store_order_book_snapshot. intros H. destruct products as [| p0 ps].
  { inversion H; subst. split; [reflexivity |]. exists []. rewrite app_nil_r.
    split; [reflexivity | split; [intros r [] | intros rows _; simpl; lia]]. }
  remember (p0 :: ps) as products eqn:Ep. clear Ep.
  ok_inv H. ok_inv H. inversion H; subst; clear H. cbn [candles order_book_snapshot].
  split; [reflexivity |].
  destruct (execute_batch_appends _ _ _ Hv0) as (new & -> & Hlen & Hnew).
  exists new. split; [reflexivity | split].
  - intros r Hin. apply (Hnew _ Hin).
  - intros rows Hb. rewrite Hv in Hb. inversion Hb; subst. exact Hlen.
Qed.

Lemma store_only_appends_witness :
  exists db1,
    store_order_book_snapshot [normalized 7 "DIAMOND" deep_book] sample_db = Ok db1 /\
    candles db1 = candles sample_db.
Proof.
  eexists. split; [vm_compute; reflexivity |].
  refine (proj1 (store_only_appends [normalized 7 "DIAMOND" deep_book] sample_db _ _)).
  vm_compute; reflexivity.
Defined.

Lemma to_int_fits column v : int_min <= v <= int_max -> to_int column v = Ok v.
Proof.
  unfold to_int. intros [Hlo Hhi]. apply Z.leb_le in Hlo, Hhi. rewrite Hlo, Hhi. reflexivity.
Qed.

Lemma execute_page_total rows :
  (forall p, In p rows -> exists r, snapshot_row p = Ok r) ->
  forall tbl, exists tbl1, execute_page rows tbl = Ok tbl1.
Proof.
  induction rows as [| p rows IH]; intros Hall tbl; simpl; [eauto |].
  destruct (Hall p (or_introl eq_refl)) as (r & Hr). unfold insert_snapshot. rewrite Hr.
  simpl. apply IH. intros q Hq. apply Hall. right. exact Hq.
Qed.

Lemma char_length_le s : (char_length s <= String.length s)%nat.
Proof.
  induction s as [| c s IH]; simpl; [lia |]. destruct (is_continuation c); lia.
Qed.

(** A text without NUL and short enough is kept as it is. *)
Lemma to_varchar_fits n column s :
  sendable s -> (String.length s <= n)%nat -> to_varchar n column s = Ok s.
Proof.
  intros Hs Hlen. unfold to_varchar. unfold sendable in Hs. rewrite Hs.
  pose proof (char_length_le s) as Hc.
  destruct (Nat.leb_spec (char_length s) n) as [_ | Hgt]; [reflexivity | lia].
Qed.

Lemma storable_row p q :
  storable p -> built_from p q -> exists r, snapshot_row q = Ok r.
Proof.
  intros (Hnul & Hlen & Hb & Hs & Hnb & Hns) (Hpid & Hts & Hrank & l & Hnth & Hq & Ha & Ho).
  assert (Hl : In l (orders_of (p_side q) p)) by (eapply nth_error_In; eauto).
  assert (Hidx : (Z.to_nat (p_rank q - 1) < List.length (orders_of (p_side q) p))%nat).
  { apply nth_error_Some. congruence. }
  assert (Hst : storable_level l /\ Z.of_nat (List.length (orders_of (p_side q) p)) <= int_max).
  { destruct (p_side q); simpl in *; rewrite Forall_forall in Hb, Hs; auto. }
  destruct Hst as ((q' & a' & o' & Hq' & Ha' & Ho' & Hpr & Ham & Hor) & Hmax).
  rewrite Hq in Hq'. rewrite Ha in Ha'. rewrite Ho in Ho'.
  inversion Hq'; inversion Ha'; inversion Ho'; subst q' a' o'.
  unfold snapshot_row. rewrite Hpid, (to_varchar_fits _ _ _ Hnul Hlen). cbn [bind].
  rewrite to_int_fits by (unfold int_min in *; lia). cbn [bind].
  unfold to_decimal_15_2. apply Z.ltb_lt in Hpr. rewrite Hpr. cbn [bind].
  rewrite (to_bigint_fits _ _ Ham). cbn [bind].
  rewrite (to_int_fits _ _ Hor). cbn [bind]. eauto.
Qed.

(** X6.  A batch whose products have ids without NUL and of at most 50
    bytes, and whose levels carry all three fields within the ranges of
    their columns, is always stored: the store returns, whatever the
    table held. *)
Theorem storable_batch_is_stored products db :
  Forall storable products ->
  exists db1, store_order_book_snapshot products db = Ok db1.
Proof.
  intros Hall. unfold store_order_book_snapshot. destruct products as [| p0 ps]; [eauto |].
  remember (p0 :: ps) as products eqn:Ep. clear Ep. rewrite Forall_forall in Hall.
  destruct (proj2 (build_rows_complete products)) as (rows & Hb).
  { intros p Hp. destruct (Hall p Hp) as (_ & _ & Hbuy & Hsell & _).
    split; eapply Forall_impl; try eassumption;
      intros l (q & a & o & Hq & Ha & Ho & _); exists q, a, o; auto. }
  rewrite Hb. cbn [bind].
  assert (Hsend : Forall (fun q => sendable (p_product_id q)) rows).
  { apply Forall_forall. intros q Hq.
    destruct (build_rows_spec _ _ Hb _ Hq) as (p & Hp & Hpid & _).
    rewrite Hpid. apply (Hall p Hp). }
  rewrite (execute_batch_sendable _ _ Hsend).
  destruct (execute_page_total rows) with (tbl := order_book_snapshot db) as (tbl1 & ->).
  { intros q Hq. destruct (build_rows_spec _ _ Hb _ Hq) as (p & Hp & Hbuilt).
    apply (storable_row p q (Hall p Hp) Hbuilt). }
  cbn [bind]. eauto.
Qed.

Lemma storable_batch_is_stored_witness :
  Forall storable [normalized 7 "DIAMOND" deep_book] /\
  exists db1, store_order_book_snapshot [normalized 7 "DIAMOND" deep_book] sample_db = Ok db1.
Proof.
  assert (Hl : forall q a o, Z.abs (round_hundredths q) < 10 ^ 15 -> in_bigint a ->
                             int_min <= o <= int_max -> storable_level (lvl q a o)).
  { intros q a o Hq Ha Ho. exists q, a, o. auto 10. }
  assert (Hs : Forall storable [normalized 7 "DIAMOND" deep_book]).
  { constructor; [| constructor]. unfold storable, normalized, deep_book.
    cbn [product_id buy_orders sell_orders buy_summary sell_summary get firstn].
    split; [reflexivity |].
    split; [vm_compute; repeat constructor |].
    split; [repeat constructor; apply Hl; vm_compute; try split; congruence |].
    split; [repeat constructor; apply Hl; vm_compute; try split; congruence |].
    split; vm_compute; congruence. }
  split; [exact Hs | exact (storable_batch_is_stored _ sample_db Hs)].
Defined.

(** ** generate_candles: what a pass adds, counts and needs *)

Lemma cutoff_raises now interval_minutes e :
  cutoff now interval_minutes = Raise e -> e = OverflowError.
Proof.
  unfold cutoff, timedelta_minutes, timedelta, datetime_sub.
  destruct (_ || _); simpl; [intros H; inversion H; reflexivity |].
  destruct (_ || _); intros H; inversion H; reflexivity.
Qed.

Lemma generate_candles_cutoff now interval_minutes db r :
  generate_candles now interval_minutes db = Ok r ->
  exists cutoff_time, cutoff now interval_minutes = Ok cutoff_time.
Proof.
  unfold generate_candles. destruct (cutoff now interval_minutes); simpl;
    [eauto | discriminate].
Qed.

Lemma upsert_all_keys cs :
  forall tbl,
    exists added,
      map candle_key (upsert_all cs tbl) = map candle_key tbl ++ added /\
      (List.length added <= List.length cs)%nat.
Proof.
  induction cs as [| c cs IH]; intros tbl.
  - exists []. rewrite app_nil_r. split; [reflexivity | simpl; lia].
  - change (upsert_all (c :: cs) tbl) with (upsert_all cs (upsert c tbl)).
    destruct (IH (upsert c tbl)) as (added & Hk & Hl). rewrite Hk, upsert_keys.
    destruct (existsb _ tbl).
    + exists added. split; [reflexivity | simpl; lia].
    + exists (candle_key c :: added). rewrite <- app_assoc.
      split; [reflexivity | simpl; lia].
Qed.

(** X7.  A pass never deletes a candle and never changes a candle's key:
    the keys of the table after the pass are the keys before it, in the
    same order, followed by the keys of the rows it added, and it adds at
    most [candles_created] rows. *)
Theorem pass_never_deletes_candles now interval_minutes db r :
  generate_candles now interval_minutes db = Ok r ->
  exists added,
    map candle_key (candles (committed r)) = map candle_key (candles db) ++ added /\
    Z.of_nat (List.length added) <= candles_created r /\
    List.length (candles (committed r)) =
      (List.length (candles db) + List.length added)%nat.
Proof.
  intros H. destruct (generate_candles_cutoff _ _ _ _ H) as (cutoff_time & Hc).
  destruct (generate_candles_inv _ _ _ _ _ H Hc) as (cs & _ & Hr & Hn).
  rewrite Hr, Hn. cbn [candles].
  destruct (upsert_all_keys cs (candles db)) as (added & Hk & Hl).
  exists added. split; [exact Hk | split; [lia |]].
  rewrite <- (length_map candle_key), Hk, length_app, length_map. reflexivity.
Qed.

Lemma pass_never_deletes_candles_witness :
  exists added,
    map candle_key (candles (committed sample_pass)) =
    map candle_key (candles sample_db) ++ added /\
    Z.of_nat (List.length added) <= candles_created sample_pass.
Proof.
  destruct (pass_never_deletes_candles sample_now 1 sample_db sample_pass)
    as (added & Hk & Hl & _); [vm_compute; reflexivity |].
  exists added. auto.
Defined.

Lemma pass_candles_products cutoff_time snaps products :
  forall cs,
    pass_candles cutoff_time snaps products = Ok cs ->
    map Candle.product_id cs = filter (has_buy_window cutoff_time snaps) products.
Proof.
  induction products as [| pid products IH]; intros cs H; simpl in H.
  - inversion H. reflexivity.
  - ok_inv H. ok_inv H. inversion H; subst cs; clear H. cbn [filter].
    unfold has_buy_window at 1.
    destruct (window pid cutoff_time BUY snaps) as [| x w] eqn:Ew.
    + rewrite (product_candle_empty _ _ _ Ew) in Hv. inversion Hv; subst. apply IH, Hv0.
    + assert (Hne : window pid cutoff_time BUY snaps <> []) by (rewrite Ew; discriminate).
      destruct (product_candle_nonempty _ _ _ _ Hne Hv) as (c & ->).
      cbn [map]. rewrite (product_candle_pid _ _ _ _ Hv), (IH _ Hv0). reflexivity.
Qed.

(** X8.  [candles_created] is the number of distinct products that have a
    BUY rank-1 snapshot at or after the cutoff: products seen only on the
    SELL side or only at deeper ranks are counted out. *)
Theorem candles_created_counts_buyers now interval_minutes db r cutoff_time :
  generate_candles now interval_minutes db = Ok r ->
  cutoff now interval_minutes = Ok cutoff_time ->
  candles_created r =
    Z.of_nat (List.length
                (filter (has_buy_window cutoff_time (order_book_snapshot db))
                        (products_in_window cutoff_time (order_book_snapshot db)))) /\
  0 <= candles_created r <=
    Z.of_nat (List.length (products_in_window cutoff_time (order_book_snapshot db))).
Proof.
  intros H Hc. destruct (generate_candles_inv _ _ _ _ _ H Hc) as (cs & Hp & _ & Hn).
  rewrite Hn, <- (length_map Candle.product_id cs), (pass_candles_products _ _ _ _ Hp).
  split; [reflexivity |].
  pose proof (filter_length_le (has_buy_window cutoff_time (order_book_snapshot db))
                (products_in_window cutoff_time (order_book_snapshot db))).
  lia.
Qed.

Lemma candles_created_counts_buyers_witness :
  generate_candles sample_now 1 sample_db = Ok sample_pass /\
  cutoff sample_now 1 = Ok (sample_now - 60000000) /\
  candles_created sample_pass =
    Z.of_nat (List.length
                (filter (has_buy_window (sample_now - 60000000) (order_book_snapshot sample_db))
                        (products_in_window (sample_now - 60000000)
                                            (order_book_snapshot sample_db)))).
Proof.
  assert (H1 : generate_candles sample_now 1 sample_db = Ok sample_pass)
    by (vm_compute; reflexivity).
  assert (H2 : cutoff sample_now 1 = Ok (sample_now - 60000000))
    by (vm_compute; reflexivity).
  repeat (split; [assumption |]).
  exact (proj1 (candles_created_counts_buyers _ _ _ _ _ H1 H2)).
Defined.

Lemma product_candle_sound cutoff_time snaps pid c :
  product_candle cutoff_time snaps pid = Ok (Some c) ->
  candle_sound c /\ cutoff_time <= Candle.timestamp c.
Proof.
  intros H. destruct (product_candle_fields _ _ _ _ H)
    as (_ & e & l & h & lo & (He & _) & (Hl & _) & (_ & Hh) & (_ & Hlo) & ->).
  split.
  - unfold candle_sound. cbn.
    exists (Snap.price e), h, lo, (Snap.price l),
      (total_amount (window pid cutoff_time BUY snaps)),
      (total_amount (window pid cutoff_time SELL snaps)).
    pose proof (Hh _ He). pose proof (Hh _ Hl). pose proof (Hlo _ He). pose proof (Hlo _ Hl).
    repeat (split; [reflexivity |]). lia.
  - cbn. apply window_In in Hl. tauto.
Qed.

(** X9.  Every candle a pass writes has all its columns set, its low at
    most its open and close, its high at least both, and a timestamp at or
    after the cutoff; so a table of sound candles stays one. *)
Theorem pass_writes_sound_candles now interval_minutes db r cutoff_time :
  generate_candles now interval_minutes db = Ok r ->
  cutoff now interval_minutes = Ok cutoff_time ->
  (forall c, In c (candles (committed r)) ->
             In c (candles db) \/ (candle_sound c /\ cutoff_time <= Candle.timestamp c)) /\
  (Forall candle_sound (candles db) -> Forall candle_sound (candles (committed r))).
Proof.
  intros H Hc. destruct (generate_candles_inv _ _ _ _ _ H Hc) as (cs & Hp & Hr & _).
  assert (Hnew : forall c, In c (candles (committed r)) ->
                           In c (candles db) \/
                           (candle_sound c /\ cutoff_time <= Candle.timestamp c)).
  { intros c Hin. rewrite Hr in Hin. cbn [candles] in Hin.
    destruct (upsert_all_In _ _ _ Hin) as [Hcs | Hold]; [right | auto].
    apply (pass_candles_In _ _ _ _ Hp) in Hcs. destruct Hcs as (pid & _ & Hpc).
    apply (product_candle_sound _ _ _ _ Hpc). }
  split; [exact Hnew |]. rewrite !Forall_forall. intros Hall c Hin.
  destruct (Hnew c Hin) as [Hold | [Hs _]]; auto.
Qed.

Lemma pass_writes_sound_candles_witness :
  generate_candles sample_now 1 sample_db = Ok sample_pass /\
  cutoff sample_now 1 = Ok (sample_now - 60000000) /\
  Forall candle_sound (candles (committed sample_pass)).
Proof.
  assert (H1 : generate_candles sample_now 1 sample_db = Ok sample_pass)
    by (vm_compute; reflexivity).
  assert (H2 : cutoff sample_now 1 = Ok (sample_now - 60000000))
    by (vm_compute; reflexivity).
  repeat (split; [assumption |]).
  apply (proj2 (pass_writes_sound_candles _ _ _ _ _ H1 H2)). constructor.
Defined.

Lemma to_bigint_cases column v :
  (in_bigint v /\ to_bigint column v = Ok v) \/
  (~ in_bigint v /\ to_bigint column v = Raise (DataError column)).
Proof.
  unfold to_bigint, in_bigint.
  destruct (Z.leb_spec bigint_min v); destruct (Z.leb_spec v bigint_max); simpl;
    [left | right | right | right]; split; try reflexivity; lia.
Qed.

Lemma product_candle_volumes cutoff_time snaps pid :
  window pid cutoff_time BUY snaps <> [] ->
  (in_bigint (total_amount (window pid cutoff_time BUY snaps)) /\
   in_bigint (total_amount (window pid cutoff_time SELL snaps)) /\
   exists c, product_candle cutoff_time snaps pid = Ok (Some c)) \/
  ((~ in_bigint (total_amount (window pid cutoff_time BUY snaps)) \/
    ~ in_bigint (total_amount (window pid cutoff_time SELL snaps))) /\
   exists column, product_candle cutoff_time snaps pid = Raise (DataError column)).
Proof.
  intros Hne.
  destruct (ohlc_query_nonempty _ _ _ Hne) as (e & l & h & lo & _ & _ & _ & _ & Hq).
  unfold product_candle, candle_row. rewrite Hq.
  cbn [first_timestamp last_timestamp buy_volume bind to_bigint_null].
  rewrite sell_volume_query_total.
  destruct (to_bigint_cases "buy_volume" (total_amount (window pid cutoff_time BUY snaps)))
    as [[Hb ->] | [Hb ->]]; cbn [bind]; [| right; split; [auto | eauto]].
  destruct (to_bigint_cases "sell_volume" (total_amount (window pid cutoff_time SELL snaps)))
    as [[Hs ->] | [Hs ->]]; cbn [bind]; [| right; split; [auto | eauto]].
  left. eauto.
Qed.

Lemma pass_candles_buyers cutoff_time snaps products :
  (forall pid, In pid products -> window pid cutoff_time BUY snaps <> [] ->
               in_bigint (total_amount (window pid cutoff_time BUY snaps)) /\
               in_bigint (total_amount (window pid cutoff_time SELL snaps))) ->
  exists cs, pass_candles cutoff_time snaps products = Ok cs.
Proof.
  induction products as [| pid products IH]; intros Hfit; simpl; [eauto |].
  destruct IH as (cs & ->); [intros p Hp; apply Hfit; right; exact Hp |].
  destruct (window pid cutoff_time BUY snaps) as [| x w] eqn:Ew.
  - rewrite (product_candle_empty _ _ _ Ew). simpl. eauto.
  - assert (Hne : window pid cutoff_time BUY snaps <> []) by (rewrite Ew; discriminate).
    destruct (product_candle_volumes _ _ _ Hne) as [(_ & _ & c & ->) | ([Hb | Hs] & _)].
    + simpl. eauto.
    + exfalso. apply Hb, (Hfit pid (or_introl eq_refl) Hne).
    + exfalso. apply Hs, (Hfit pid (or_introl eq_refl) Hne).
Qed.

Lemma pass_candles_raises cutoff_time snaps products :
  forall e, pass_candles cutoff_time snaps products = Raise e ->
            exists column, e = DataError column.
Proof.
  induction products as [| pid products IH]; intros e H; simpl in H; [discriminate |].
  destruct (product_candle cutoff_time snaps pid) as [oc | e1] eqn:Ep; simpl in H.
  - destruct (pass_candles cutoff_time snaps products) as [cs | e2]; simpl in H;
      [discriminate |].
    inversion H; subst. apply IH. reflexivity.
  - inversion H; subst.
    destruct (window pid cutoff_time BUY snaps) as [| x w] eqn:Ew.
    + rewrite (product_candle_empty _ _ _ Ew) in Ep. discriminate.
    + assert (Hne : window pid cutoff_time BUY snaps <> []) by (rewrite Ew; discriminate).
      destruct (product_candle_volumes _ _ _ Hne) as [(_ & _ & c & Hc) | (_ & column & Hc)];
        rewrite Hc in Ep; [discriminate | inversion Ep; eauto].
Qed.

(** X10.  A pass returns exactly when its cutoff is a representable
    datetime and, for every product that gets a candle, the BUY sum and
    the SELL sum fit BIGINT.  When it raises, the exception is the
    overflow of the cutoff or a value out of range for a volume column;
    in particular the candle timestamp is never NULL. *)
Theorem pass_returns_iff_volumes_fit now interval_minutes db :
  ((exists r, generate_candles now interval_minutes db = Ok r) <->
   (exists cutoff_time,
       cutoff now interval_minutes = Ok cutoff_time /\
       buyers_fit cutoff_time (order_book_snapshot db))) /\
  (forall e, generate_candles now interval_minutes db = Raise e ->
             e = OverflowError \/ exists column, e = DataError column).
Proof.
  split; [split |].
  - intros (r & H). destruct (generate_candles_cutoff _ _ _ _ H) as (cutoff_time & Hc).
    exists cutoff_time. split; [exact Hc |]. intros pid Hne.
    destruct (generate_candles_inv _ _ _ _ _ H Hc) as (cs & Hp & _).
    pose proof (window_product_listed _ _ _ _ Hne) as Hin.
    destruct (pass_candles_no_raise _ _ _ _ Hp _ Hin) as (oc & Hoc).
    destruct (product_candle_volumes _ _ _ Hne) as [(Hb & Hs & _) | (_ & column & Hr)];
      [auto | congruence].
  - intros (cutoff_time & Hc & Hfit). unfold generate_candles. rewrite Hc. cbn [bind].
    rewrite candle_loop_pass.
    destruct (pass_candles_buyers cutoff_time (order_book_snapshot db)
                (products_in_window cutoff_time (order_book_snapshot db))) as (cs & ->).
    { intros pid _ Hne. apply Hfit, Hne. }
    cbn [bind]. eauto.
  - intros e H. unfold generate_candles in H.
    destruct (cutoff now interval_minutes) as [cutoff_time | e1] eqn:Hc; cbn [bind] in H.
    + rewrite candle_loop_pass in H.
      destruct (pass_candles _ _ _) as [cs | e2] eqn:Hp; cbn [bind] in H; [discriminate |].
      inversion H; subst. right. apply (pass_candles_raises _ _ _ _ Hp).
    + inversion H; subst. left. apply (cutoff_raises _ _ _ Hc).
Qed.

Lemma window_after_earlier_sweep pid cutoff_time later sd tbl :
  cutoff_time <= later ->
  window pid later sd (delete_older cutoff_time tbl) = window pid later sd tbl.
Proof.
  intros Hle. unfold window, delete_older. apply filter_implied. intros s.
  unfold top_of_book. rewrite !andb_true_iff, negb_true_iff, Z.leb_le, Z.ltb_ge.
  intros (((_ & H) & _) & _). lia.
Qed.

(** X11.  The sweep of a pass is invisible to every later pass whose
    cutoff is not earlier: the product list, the OHLC row and the sell
    volume such a pass reads from the swept table are those it would read
    from the table before the sweep. *)
Theorem sweep_is_invisible_to_later_passes now interval_minutes db r cutoff_time :
  generate_candles now interval_minutes db = Ok r ->
  cutoff now interval_minutes = Ok cutoff_time ->
  forall later pid,
    cutoff_time <= later ->
    products_in_window later (order_book_snapshot (committed r)) =
      products_in_window later (order_book_snapshot db) /\
    ohlc_query pid later (order_book_snapshot (committed r)) =
      ohlc_query pid later (order_book_snapshot db) /\
    sell_volume_query pid later (order_book_snapshot (committed r)) =
      sell_volume_query pid later (order_book_snapshot db).
Proof.
  intros H Hc later pid Hle.
  destruct (generate_candles_inv _ _ _ _ _ H Hc) as (cs & _ & Hr & _).
  rewrite Hr. cbn [order_book_snapshot]. split; [| split].
  - unfold products_in_window, delete_older. f_equal. f_equal. apply filter_implied.
    intros s. rewrite negb_true_iff, Z.leb_le, Z.ltb_ge. lia.
  - unfold ohlc_query, price_sequence.
    change (filter (top_of_book pid later BUY)
                   (delete_older cutoff_time (order_book_snapshot db)))
      with (window pid later BUY (delete_older cutoff_time (order_book_snapshot db))).
    rewrite (window_after_earlier_sweep _ _ _ _ _ Hle). reflexivity.
  - rewrite !sell_volume_query_total, (window_after_earlier_sweep _ _ _ _ _ Hle).
    reflexivity.
Qed.

Lemma sweep_is_invisible_to_later_passes_witness :
  generate_candles sample_now 1 sample_db = Ok sample_pass /\
  cutoff sample_now 1 = Ok (sample_now - 60000000) /\
  sample_now - 60000000 <= sample_t2 /\
  ohlc_query "X" sample_t2 (order_book_snapshot (committed sample_pass)) =
  ohlc_query "X" sample_t2 (order_book_snapshot sample_db).
Proof.
  assert (H1 : generate_candles sample_now 1 sample_db = Ok sample_pass)
    by (vm_compute; reflexivity).
  assert (H2 : cutoff sample_now 1 = Ok (sample_now - 60000000))
    by (vm_compute; reflexivity).
  assert (H3 : sample_now - 60000000 <= sample_t2) by (vm_compute; discriminate).
  repeat (split; [assumption |]).
  exact (proj1 (proj2 (sweep_is_invisible_to_later_passes _ _ _ _ _ H1 H2 sample_t2 "X" H3))).
Defined.

Lemma filter_returns_iff_priced_witness :
  priced (items_of (batch sample_items)) /\
  filter_and_extract_products 7 (batch [("COAL", unpriced_book)]) =
  Raise (KeyError "pricePerUnit").
Proof.
  split; [| reflexivity].
  apply (proj2 (proj1 (filter_returns_iff_priced 7 (batch sample_items)))).
  eexists. reflexivity.
Defined.

Lemma pass_returns_iff_volumes_fit_witness :
  exists cutoff_time,
    cutoff sample_now 1 = Ok cutoff_time /\
    buyers_fit cutoff_time (order_book_snapshot sample_db).
Proof.
  apply (proj1 (proj1 (pass_returns_iff_volumes_fit sample_now 1 sample_db))).
  exists sample_pass. vm_compute. reflexivity.
Defined.

(** ** store_order_book_snapshot then generate_candles *)

Lemma side_rows_first pid ts sd l levels start rows :
  side_rows pid ts sd (enumerate (l :: levels) start) = Ok rows ->
  exists q, In q rows /\ p_product_id q = pid /\ p_timestamp q = ts /\
            p_side q = sd /\ p_rank q = start.
Proof.
  simpl. intros H. ok_inv H. ok_inv H. ok_inv H. ok_inv H. inversion H; subst.
  eexists. split; [left; reflexivity |]. simpl. auto.
Qed.

Lemma build_rows_best_buy products :
  forall rows p,
    build_rows products = Ok rows -> In p products -> buy_orders p <> [] ->
    exists q, In q rows /\ p_product_id q = product_id p /\
              p_timestamp q = timestamp p /\ p_side q = BUY /\ p_rank q = 1.
Proof.
  induction products as [| p0 products IH]; intros rows p H Hin Hne; [destruct Hin |].
  simpl in H. ok_inv H. ok_inv H. ok_inv H. inversion H; subst; clear H.
  destruct Hin as [-> | Hin].
  - destruct (buy_orders p) as [| l levels] eqn:Eb; [congruence |].
    destruct (side_rows_first _ _ _ _ _ _ _ Hv) as (q & Hq & Hf).
    exists q. split; [apply in_app_iff; auto | exact Hf].
  - destruct (IH _ _ Hv1 Hin Hne) as (q & Hq & Hf).
    exists q. split; [rewrite !in_app_iff; auto | exact Hf].
Qed.

(** A text of at most [n] bytes is stored as it is, if at all. *)
Lemma to_varchar_short n column s s' :
  (String.length s <= n)%nat -> to_varchar n column s = Ok s' -> s' = s.
Proof.
  intros Hlen. unfold to_varchar. destruct (has_nul s); [discriminate |].
  pose proof (char_length_le s) as Hc.
  destruct (Nat.leb_spec (char_length s) n) as [_ | Hgt]; [| lia].
  intros H. inversion H. reflexivity.
Qed.

Lemma stored_best_buy products db db1 p :
  store_order_book_snapshot products db = Ok db1 ->
  In p products -> buy_orders p <> [] -> (String.length (product_id p) <= 50)%nat ->
  exists x, In x (order_book_snapshot db1) /\ Snap.product_id x = product_id p /\
            Snap.timestamp x = timestamp p /\ Snap.side x = BUY /\ Snap.rank x = 1.
Proof.
  unfold store_order_book_snapshot. intros H Hin Hne Hlen.
  destruct products as [| p0 ps]; [destruct Hin |].
  remember (p0 :: ps) as products eqn:Ep. clear Ep.
  ok_inv H. ok_inv H. inversion H; subst; clear H. cbn [order_book_snapshot].
  destruct (build_rows_best_buy _ _ _ Hv Hin Hne) as (q & Hq & Hpid & Hts & Hsd & Hrk).
  destruct (execute_batch_spec _ _ _ Hv0) as (_ & _ & Hall).
  destruct (Hall _ Hq) as (r & Hr & Hk).
  destruct (snapshot_row_spec _ _ Hr) as (Hvc & Ht & Hs & Hrank & _).
  rewrite Hpid in Hvc. pose proof (eq_sym (to_varchar_short _ _ _ _ Hlen Hvc)) as Hp.
  apply in_map_iff in Hk. destruct Hk as (x & Hx & Hxin).
  exists x. split; [exact Hxin |]. unfold snap_key in Hx. inversion Hx.
  repeat split; congruence.
Qed.

(** X12.  Snapshots stored just before a pass are aggregated by it, if
    the pass comes soon enough.  When a stored product has a buy level, an
    id of at most 50 bytes and a capture timestamp at or after the
    cutoff of the pass that follows, its best buy row survives the sweep
    and the product has a candle stamped no earlier than that capture. *)
Theorem fresh_snapshot_gets_candle products db db1 p now interval_minutes cutoff_time r :
  store_order_book_snapshot products db = Ok db1 ->
  In p products -> buy_orders p <> [] -> (String.length (product_id p) <= 50)%nat ->
  cutoff now interval_minutes = Ok cutoff_time ->
  cutoff_time <= timestamp p ->
  generate_candles now interval_minutes db1 = Ok r ->
  (exists x, In x (order_book_snapshot (committed r)) /\
             Snap.product_id x = product_id p /\ Snap.timestamp x = timestamp p /\
             Snap.side x = BUY /\ Snap.rank x = 1) /\
  (exists c, In c (candles (committed r)) /\
             Candle.product_id c = product_id p /\ timestamp p <= Candle.timestamp c).
Proof.
  intros Hs Hin Hne Hlen Hc Hle Hg.
  destruct (stored_best_buy _ _ _ _ Hs Hin Hne Hlen) as (x & Hx & Hp & Ht & Hsd & Hrk).
  assert (Hw : In x (window (product_id p) cutoff_time BUY (order_book_snapshot db1))).
  { apply window_In. repeat split; auto. lia. }
  split.
  - exists x. split; [| auto].
    destruct (generate_candles_inv _ _ _ _ _ Hg Hc) as (cs & _ & Hr & _).
    rewrite Hr. cbn [order_book_snapshot]. rewrite delete_older_keeps.
    apply filter_In. split; [exact Hx | apply Z.leb_le; lia].
  - assert (Hnonempty : window (product_id p) cutoff_time BUY (order_book_snapshot db1) <> []).
    { intros He. rewrite He in Hw. destruct Hw. }
    destruct (pass_present _ _ _ _ _ _ Hg Hc Hnonempty) as (c & Hpc & Hcin & _).
    destruct (product_candle_fields _ _ _ _ Hpc)
      as (_ & e & l & h & lo & _ & (_ & Hlmax) & _ & _ & ->).
    exists {| Candle.product_id := product_id p;
              Candle.timestamp := Snap.timestamp l;
              Candle.open := Some (Snap.price e);
              Candle.high := Some h;
              Candle.low := Some lo;
              Candle.close := Some (Snap.price l);
              Candle.buy_volume :=
                Some (total_amount (window (product_id p) cutoff_time BUY
                                           (order_book_snapshot db1)));
              Candle.sell_volume :=
                Some (total_amount (window (product_id p) cutoff_time SELL
                                           (order_book_snapshot db1))) |}.
    split; [exact Hcin | split; [reflexivity |]]. cbn. rewrite <- Ht. apply Hlmax, Hw.
Qed.

Lemma fresh_snapshot_gets_candle_witness :
  store_order_book_snapshot [fresh_product] sample_db = Ok fresh_db /\
  cutoff sample_now 1 = Ok (sample_now - 60000000) /\
  sample_now - 60000000 <= timestamp fresh_product /\
  generate_candles sample_now 1 fresh_db = Ok fresh_pass /\
  exists c, In c (candles (committed fresh_pass)) /\
            Candle.product_id c = product_id fresh_product /\
            timestamp fresh_product <= Candle.timestamp c.
Proof.
  assert (Hs : store_order_book_snapshot [fresh_product] sample_db = Ok fresh_db)
    by (vm_compute; reflexivity).
  assert (Hc : cutoff sample_now 1 = Ok (sample_now - 60000000)) by (vm_compute; reflexivity).
  assert (Hle : sample_now - 60000000 <= timestamp fresh_product)
    by (vm_compute; discriminate).
  assert (Hg : generate_candles sample_now 1 fresh_db = Ok fresh_pass)
    by (vm_compute; reflexivity).
  assert (Hin : In fresh_product [fresh_product]) by (left; reflexivity).
  assert (Hne : buy_orders fresh_product <> []) by discriminate.
  assert (Hlen : (String.length (product_id fresh_product) <= 50)%nat)
    by (apply Nat.leb_le; reflexivity).
  repeat (split; [assumption |]).
  exact (proj2 (fresh_snapshot_gets_candle _ _ _ _ _ _ _ _ Hs Hin Hne Hlen Hc Hle Hg)).
Defined.

(** ** api.py: what the endpoints answer *)

Lemma insert_sorted_perm_any A (lt : A -> A -> bool) x l :
  Permutation (insert_sorted lt x l) (x :: l).
Proof.
  induction l as [| y l IH]; simpl; [apply Permutation_refl |].
  destruct (lt x y); [apply Permutation_refl |].
  apply perm_trans with (y :: x :: l); [apply perm_skip, IH | apply perm_swap].
Qed.

Lemma order_by_perm_any A (lt : A -> A -> bool) l : Permutation (order_by lt l) l.
Proof.
  induction l as [| x l IH]; simpl; [apply perm_nil |].
  apply perm_trans with (x :: order_by lt l);
    [apply insert_sorted_perm_any | apply perm_skip, IH].
Qed.

(** X13.  On a reachable store the product list names exactly the
    products that have a candle, each once, after one connection, one
    statement and the close. *)
Theorem products_are_those_with_candles db :
  exists ids t,
    Api.get_products (Api.Reachable db) = (Api.jsonify (Api.ProductList ids), t) /\
    one_query_trace t /\
    NoDup ids /\
    forall id, In id ids <-> exists c, In c (candles db) /\ Candle.product_id c = id.
Proof.
  unfold Api.get_products. run_handler.
  eexists _, _. split; [reflexivity | split; [eexists; reflexivity | split]].
  - unfold Api.select_products.
    apply (Permutation_NoDup (Permutation_sym (order_by_perm_any _ _ _))), NoDup_nodup.
  - intros id. unfold Api.select_products. split.
    + intros Hin. apply (Permutation_in _ (order_by_perm_any _ _ _)) in Hin.
      apply nodup_In, in_map_iff in Hin. destruct Hin as (c & Hc & Hin). eauto.
    + intros (c & Hin & Hc).
      apply (Permutation_in _ (Permutation_sym (order_by_perm_any _ _ _))).
      apply nodup_In, in_map_iff. eauto.
Qed.

Lemma candles_to_json_filled rows :
  forallb candle_filled rows = true -> Api.candles_to_json rows = Ok (map candle_view rows).
Proof.
  induction rows as [| c rows IH]; simpl; [reflexivity |].
  rewrite andb_true_iff. intros [Hc Hrest]. rewrite (IH Hrest).
  unfold Api.candle_to_json, candle_view, candle_filled in *.
  destruct (Candle.open c), (Candle.high c), (Candle.low c), (Candle.close c),
    (Candle.buy_volume c), (Candle.sell_volume c); try discriminate.
  reflexivity.
Qed.

Lemma candles_to_json_null rows :
  forallb candle_filled rows = false -> Api.candles_to_json rows = Raise TypeError.
Proof.
  induction rows as [| c rows IH]; simpl; [discriminate |].
  rewrite andb_false_iff. intros Hc.
  destruct (candle_filled c) eqn:Ec.
  - destruct Hc as [Hc | Hc]; [discriminate |]. rewrite (IH Hc).
    unfold Api.candle_to_json, candle_filled in *.
    destruct (Candle.open c), (Candle.high c), (Candle.low c), (Candle.close c),
      (Candle.buy_volume c), (Candle.sell_volume c); try discriminate.
    reflexivity.
  - unfold Api.candle_to_json, candle_filled in *.
    destruct (Candle.open c), (Candle.high c), (Candle.low c), (Candle.close c),
      (Candle.buy_volume c), (Candle.sell_volume c); try discriminate; reflexivity.
Qed.

Lemma select_candles_In product cutoff_time db c :
  In c (Api.select_candles product cutoff_time db) <->
  In c (candles db) /\ candle_matches product cutoff_time c.
Proof.
  unfold Api.select_candles, candle_matches. split.
  - intros Hin. apply (Permutation_in _ (order_by_perm_any _ _ _)) in Hin.
    apply filter_In in Hin. rewrite andb_true_iff, String.eqb_eq, Z.leb_le in Hin. exact Hin.
  - intros Hin. apply (Permutation_in _ (Permutation_sym (order_by_perm_any _ _ _))).
    apply filter_In. rewrite andb_true_iff, String.eqb_eq, Z.leb_le. exact Hin.
Qed.

Lemma get_candles_runs now args p cutoff_time db :
  Api.arg_product args = Some p -> p <> "" ->
  requested_cutoff now args = Ok cutoff_time ->
  exists statement,
    Api.get_candles now args (Api.Reachable db) =
    (match Api.select_candles p cutoff_time db with
     | [] => Api.jsonify (Api.CandleSet (Some (Api.Text "No data available for this product")) [])
     | rows =>
         match Api.candles_to_json rows with
         | Ok js => Api.jsonify (Api.CandleSet None js)
         | Raise e => Api.jsonify (Api.CandleSet (Some (Api.Str e)) [])
         end
     end,
     [Api.Connect; Api.Execute statement; Api.Close]).
Proof.
  intros Hp Hne Hc. unfold Api.get_candles, requested_cutoff in *. rewrite Hp.
  rewrite (falsy_product _ Hne). run_handler.
  destruct (match Api.arg_hours args with
            | Some text => int text
            | None => Ok 1
            end) as [hours | e]; cbn [bind] in Hc; [| discriminate].
  destruct (timedelta_hours hours) as [delta | e]; cbn [bind] in Hc; [| discriminate].
  rewrite Hc. cbn [get].
  destruct (Api.select_candles p cutoff_time db) as [| row rows]; [eexists; reflexivity |].
  destruct (Api.candles_to_json (row :: rows)); eexists; reflexivity.
Qed.



(** X15.  One NULL column in one matching candle empties the whole
    answer: the conversion raises [TypeError] and the endpoint answers 200
    with that error and no candle at all. *)
Theorem null_column_empties_the_answer now args p cutoff_time db c :
  Api.arg_product args = Some p -> p <> "" ->
  requested_cutoff now args = Ok cutoff_time ->
  In c (candles db) -> candle_matches p cutoff_time c -> candle_filled c = false ->
  fst (Api.get_candles now args (Api.Reachable db)) =
  Api.jsonify (Api.CandleSet (Some (Api.Str TypeError)) []).
Proof.
  intros Hp Hne Hc Hin Hm Hnull.
  destruct (get_candles_runs now args p cutoff_time db Hp Hne Hc) as (statement & ->).
  assert (Hsel : In c (Api.select_candles p cutoff_time db))
    by (apply select_candles_In; auto).
  assert (Hall : forallb candle_filled (Api.select_candles p cutoff_time db) = false).
  { destruct (forallb candle_filled _) eqn:E; [| reflexivity].
    rewrite forallb_forall in E. rewrite (E c Hsel) in Hnull. discriminate. }
  revert Hsel Hall. cbn [fst].
  destruct (Api.select_candles p cutoff_time db) as [| row rows]; intros Hsel Hall;
    [destruct Hsel |].
  rewrite (candles_to_json_null _ Hall). reflexivity.
Qed.

Lemma null_column_empties_the_answer_witness :
  fst (Api.get_candles sample_now
         {| Api.arg_product := Some "X"; Api.arg_hours := None |}
         (Api.Reachable
            {| order_book_snapshot := [];
               candles := [sample_candle;
                           {| Candle.product_id := "X"; Candle.timestamp := sample_t2;
                              Candle.open := None; Candle.high := Some 1; Candle.low := Some 1;
                              Candle.close := Some 1; Candle.buy_volume := Some 1;
                              Candle.sell_volume := Some 1 |}] |})) =
  Api.jsonify (Api.CandleSet (Some (Api.Str TypeError)) []).
Proof.
  eapply (null_column_empties_the_answer _ _ "X" (sample_now - 3600000000)).
  - reflexivity.
  - discriminate.
  - vm_compute. reflexivity.
  - right. left. reflexivity.
  - split; [reflexivity | vm_compute; discriminate].
  - reflexivity.
Defined.

Lemma max_of_values l :
  (l = [] -> MAX (map Some l) = None) /\
  (forall m, MAX (map Some l) = Some m -> In m l /\ forall x, In x l -> x <= m).
Proof.
  destruct l as [| a l]; [split; [reflexivity | discriminate] |].
  split; [discriminate |]. intros m H. unfold MAX in H. cbn [map] in H.
  rewrite agg_Some_cons, agg_next_values in H. inversion H as [Hm].
  pose proof (fold_left_max l a) as (Hin & Hge & Hall). split.
  - destruct Hin as [-> | Hin]; [left; reflexivity | right; exact Hin].
  - intros x [<- | Hx]; [exact Hge | apply Hall, Hx].
Qed.








(** X20.  Failures are answered with status 200.  The product list always
    answers 200, and so do the two product endpoints whenever a product is
    named: an unreachable store, an unreadable or oversized [hours] and a
    NULL column all come back as 200 with an error text. *)
Theorem failures_answer_200 now args product s :
  Api.status (fst (Api.get_products s)) = 200 /\
  (Api.falsy product = false -> Api.status (fst (Api.get_orderbook product s)) = 200) /\
  (Api.falsy (Api.arg_product args) = false ->
   Api.status (fst (Api.get_candles now args s)) = 200) /\
  (Api.status (fst (Api.get_candles now args s)) = 200 \/
   Api.status (fst (Api.get_candles now args s)) = 400).
Proof.
  split; [| split; [| split]].
  - unfold Api.get_products. run_handler. destruct s; reflexivity.
  - intros Hf. unfold Api.get_orderbook. rewrite Hf. run_handler.
    destruct s; cbn [fst]; [reflexivity |].
    destruct (Api.select_latest_time _ _); reflexivity.
  - intros Hf. unfold Api.get_candles. rewrite Hf. run_handler.
    destruct (match Api.arg_hours args with
              | Some text => int text
              | None => Ok 1
              end) as [hours | e]; cbn [fst]; [| reflexivity].
    destruct s as [msg | db]; cbn [fst]; [reflexivity |].
    destruct (timedelta_hours hours) as [delta | e]; cbn [fst]; [| reflexivity].
    destruct (datetime_sub now delta) as [cutoff_time | e]; cbn [fst]; [| reflexivity].
    destruct (Api.select_candles _ _ _); cbn [fst]; [reflexivity |].
    destruct (Api.candles_to_json _); reflexivity.
  - unfold Api.get_candles. run_handler.
    destruct (match Api.arg_hours args with
              | Some text => int text
              | None => Ok 1
              end) as [hours | e]; cbn [fst]; [| left; reflexivity].
    destruct (Api.falsy (Api.arg_product args)); cbn [fst]; [right; reflexivity |].
    destruct s as [msg | db]; cbn [fst]; [left; reflexivity |].
    destruct (timedelta_hours hours) as [delta | e]; cbn [fst]; [| left; reflexivity].
    destruct (datetime_sub now delta) as [cutoff_time | e]; cbn [fst]; [| left; reflexivity].
    destruct (Api.select_candles _ _ _); cbn [fst]; [left; reflexivity |].
    destruct (Api.candles_to_json _); left; reflexivity.
Qed.

Lemma failures_answer_200_witness :
  Api.falsy (Some "X") = false /\
  Api.status (fst (Api.get_orderbook (Some "X") (Api.Unreachable "connection refused"))) = 200.
Proof.
  split; [reflexivity |].
  exact (proj1 (proj2 (failures_answer_200
                         sample_now {| Api.arg_product := None; Api.arg_hours := None |}
                         (Some "X") (Api.Unreachable "connection refused"))) eq_refl).
Defined.

(** ** store_order_book_snapshot then /api/orderbook *)

Lemma execute_page_rows rows :
  forall tbl tbl1, execute_page rows tbl = Ok tbl1 -> exists cr, snapshot_rows rows = Ok cr.
Proof.
  induction rows as [| q rows IH]; intros tbl tbl1 H; simpl in *; [eauto |].
  ok_inv H. unfold insert_snapshot in Hv. ok_inv Hv. rewrite Hv0. simpl.
  destruct (IH _ _ H) as (cr & ->). simpl. eauto.
Qed.

Lemma execute_batch_rows rows tbl tbl1 :
  execute_batch rows tbl = Ok tbl1 -> exists cr, snapshot_rows rows = Ok cr.
Proof.
  intros H. apply execute_batch_Ok in H. apply (execute_page_rows _ _ _ (proj1 H)).
Qed.

Lemma snapshot_rows_app a :
  forall b cr,
    snapshot_rows (a ++ b) = Ok cr ->
    exists ca cb, snapshot_rows a = Ok ca /\ snapshot_rows b = Ok cb /\ cr = ca ++ cb.
Proof.
  induction a as [| q a IH]; intros b cr H; simpl in *.
  - exists [], cr. auto.
  - ok_inv H. ok_inv H. inversion H; subst; clear H.
    destruct (IH _ _ Hv0) as (ca & cb & -> & Hb & ->). rewrite Hv. simpl.
    exists (v :: ca), cb. auto.
Qed.

Lemma snapshot_rows_In rows :
  forall cr r,
    snapshot_rows rows = Ok cr -> In r cr -> exists q, In q rows /\ snapshot_row q = Ok r.
Proof.
  induction rows as [| q rows IH]; intros cr r H Hin; simpl in H.
  - inversion H; subst. destruct Hin.
  - ok_inv H. ok_inv H. inversion H; subst; clear H.
    destruct Hin as [<- | Hin]; [exists q; simpl; auto |].
    destruct (IH _ _ Hv0 Hin) as (q' & Hq' & Hr). exists q'. simpl. auto.
Qed.

Lemma book_side_key product latest_time sd a b :
  snap_key a = snap_key b ->
  book_side product latest_time sd a = book_side product latest_time sd b.
Proof.
  unfold snap_key, book_side. intros H. inversion H. congruence.
Qed.

(** What a selection by key columns sees of a batch: the rows the table
    already had, then the rows of the batch, when their keys are all
    different. *)
Lemma execute_page_select (f : Snap.row -> bool) rows :
  (forall a b, snap_key a = snap_key b -> f a = f b) ->
  forall tbl tbl1 cr,
    execute_page rows tbl = Ok tbl1 ->
    snapshot_rows rows = Ok cr ->
    NoDup (map snap_key (filter f tbl ++ filter f cr)) ->
    filter f tbl1 = filter f tbl ++ filter f cr.
Proof.
  intros Hf. induction rows as [| q rows IH]; intros tbl tbl1 cr He Hc Hnd; simpl in *.
  - inversion He; inversion Hc; subst. simpl. rewrite app_nil_r. reflexivity.
  - ok_inv He. unfold insert_snapshot in Hv. ok_inv Hv. inversion Hv; subst v; clear Hv.
    ok_inv Hc. ok_inv Hc. inversion Hc; subst cr; clear Hc.
    rewrite Hv0 in Hv. inversion Hv; subst v; clear Hv.
    cbn [filter] in *. destruct (f v0) eqn:Efr.
    + assert (Hfresh : existsb (Snap.same_key v0) tbl = false).
      { destruct (existsb (Snap.same_key v0) tbl) eqn:E; [| reflexivity].
        apply existsb_exists in E. destruct E as (x & Hx & Hk).
        apply snap_same_key_iff in Hk.
        rewrite map_app in Hnd. cbn [map] in Hnd. apply NoDup_remove_2 in Hnd.
        exfalso. apply Hnd. apply in_app_iff. left. rewrite Hk.
        apply in_map, filter_In. split; [exact Hx |]. rewrite <- (Hf _ _ Hk). exact Efr. }
      rewrite Hfresh in He.
      rewrite (IH _ _ _ He Hv1).
      * rewrite filter_app. cbn [filter]. rewrite Efr, <- app_assoc. reflexivity.
      * rewrite filter_app. cbn [filter]. rewrite Efr, <- app_assoc. exact Hnd.
    + assert (Hsame : filter f (if existsb (Snap.same_key v0) tbl then tbl else tbl ++ [v0]) =
                      filter f tbl).
      { destruct (existsb _ tbl); [reflexivity |].
        rewrite filter_app. cbn [filter]. rewrite Efr. apply app_nil_r. }
      rewrite (IH _ _ _ He Hv1); rewrite Hsame; [reflexivity | exact Hnd].
Qed.

Lemma execute_batch_select (f : Snap.row -> bool) rows :
  (forall a b, snap_key a = snap_key b -> f a = f b) ->
  forall tbl tbl1 cr,
    execute_batch rows tbl = Ok tbl1 ->
    snapshot_rows rows = Ok cr ->
    NoDup (map snap_key (filter f tbl ++ filter f cr)) ->
    filter f tbl1 = filter f tbl ++ filter f cr.
Proof.
  intros Hf tbl tbl1 cr H. apply execute_batch_Ok in H.
  apply (execute_page_select f rows Hf _ _ _ (proj1 H)).
Qed.

Lemma order_by_sorted_id A (key : A -> Z) l :
  StronglySorted (key_lt key) l -> order_by (asc key) l = l.
Proof.
  induction l as [| x l IH]; intros Hs; [reflexivity |].
  inversion Hs as [| ? ? Hs' Hall]; subst. simpl. rewrite (IH Hs').
  destruct l as [| y l']; [reflexivity |]. simpl.
  inversion Hall as [| ? ? Hxy _]; subst. unfold key_lt in Hxy. unfold asc.
  apply Z.ltb_lt in Hxy. rewrite Hxy. reflexivity.
Qed.

Lemma sorted_ranks_keys l :
  StronglySorted (key_lt Snap.rank) l -> NoDup (map snap_key l).
Proof.
  induction 1 as [| x l Hs IH Hall]; simpl; constructor; [| exact IH].
  intros Hin. apply in_map_iff in Hin. destruct Hin as (y & Hk & Hy).
  rewrite Forall_forall in Hall. specialize (Hall y Hy). unfold key_lt in Hall.
  unfold snap_key in Hk. inversion Hk. lia.
Qed.

Lemma side_rows_coerced pid ts sd levels :
  forall start rs crs,
    side_rows pid ts sd (enumerate levels start) = Ok rs ->
    snapshot_rows rs = Ok crs ->
    Forall2 (fun l r => level_shown l (Api.order_to_json r)) levels crs /\
    Forall (fun r => to_varchar 50 "product_id" pid = Ok (Snap.product_id r) /\
                     Snap.timestamp r = ts /\ Snap.side r = sd /\ start <= Snap.rank r) crs /\
    StronglySorted (key_lt Snap.rank) crs.
Proof.
  induction levels as [| l levels IH]; intros start rs crs Hs Hc; simpl in Hs.
  - inversion Hs; subst. simpl in Hc. inversion Hc; subst.
    split; [constructor | split; constructor].
  - ok_inv Hs. ok_inv Hs. ok_inv Hs. ok_inv Hs. inversion Hs; subst rs; clear Hs.
    apply getitem_Ok in Hv, Hv0, Hv1.
    simpl in Hc. ok_inv Hc. ok_inv Hc. inversion Hc; subst crs; clear Hc.
    destruct (IH _ _ _ Hv2 Hv4) as (Hshown & Hcols & Hsorted).
    destruct (snapshot_row_spec _ _ Hv3) as (Hvc & Ht & Hsd & Hrk & Hpr & Ham & Hor).
    cbn in Hvc, Ht, Hsd, Hrk, Hpr, Ham, Hor.
    split; [| split].
    + constructor; [| exact Hshown]. exists v. unfold Api.order_to_json. cbn.
      rewrite Hpr, Ham, Hor. auto.
    + constructor; [repeat split; auto; lia |].
      eapply Forall_impl; [| exact Hcols]. cbn. intros r (? & ? & ? & ?).
      repeat split; auto. lia.
    + constructor; [exact Hsorted |].
      eapply Forall_impl; [| exact Hcols]. cbn. intros r (_ & _ & _ & Hr).
      unfold key_lt. lia.
Qed.

Lemma build_rows_app pre :
  forall post rows,
    build_rows (pre ++ post) = Ok rows ->
    exists r1 r2, build_rows pre = Ok r1 /\ build_rows post = Ok r2 /\ rows = r1 ++ r2.
Proof.
  induction pre as [| p pre IH]; intros post rows H; simpl in *.
  - exists [], rows. auto.
  - ok_inv H. ok_inv H. ok_inv H. inversion H; subst; clear H.
    destruct (IH _ _ Hv1) as (r1 & r2 & -> & Hpost & ->). rewrite Hv, Hv0. simpl.
    exists (v ++ v0 ++ r1), r2. rewrite <- !app_assoc. auto.
Qed.

Lemma filter_all A (f : A -> bool) l : (forall x, In x l -> f x = true) -> filter f l = l.
Proof.
  induction l as [| x l IH]; intros H; simpl; [reflexivity |].
  rewrite (H x (or_introl eq_refl)), IH; [reflexivity |]. intros y Hy. apply H. right. exact Hy.
Qed.

Lemma foreign_rows_unselected product latest_time sd products rows crs :
  build_rows products = Ok rows -> snapshot_rows rows = Ok crs ->
  ~ In product (map product_id products) ->
  (forall q, In q products -> (String.length (product_id q) <= 50)%nat) ->
  filter (book_side product latest_time sd) crs = [].
Proof.
  intros Hb Hc Hnot Hshort. apply filter_none. intros r Hr.
  destruct (snapshot_rows_In _ _ _ Hc Hr) as (q & Hq & Hrow).
  destruct (build_rows_spec _ _ Hb _ Hq) as (p' & Hp' & Hpid & _).
  destruct (snapshot_row_spec _ _ Hrow) as (Hvc & _).
  rewrite Hpid in Hvc. pose proof (eq_sym (to_varchar_short _ _ _ _ (Hshort _ Hp') Hvc)) as Heq.
  unfold book_side. replace (String.eqb (Snap.product_id r) product) with false; [reflexivity |].
  symmetry. apply String.eqb_neq. intros Hsame. apply Hnot. rewrite <- Hsame, <- Heq.
  apply in_map, Hp'.
Qed.

Lemma own_rows_selected product latest_time sd sd' levels rs crs :
  side_rows product latest_time sd' (enumerate levels 1) = Ok rs ->
  snapshot_rows rs = Ok crs ->
  (String.length product <= 50)%nat ->
  filter (book_side product latest_time sd) crs = if side_eqb sd' sd then crs else [].
Proof.
  intros Hs Hc Hshort. destruct (side_rows_coerced _ _ _ _ _ _ _ Hs Hc) as (_ & Hcols & _).
  rewrite Forall_forall in Hcols.
  assert (Hval : forall r, In r crs ->
                           book_side product latest_time sd r = side_eqb sd' sd).
  { intros r Hr. destruct (Hcols r Hr) as (Hvc & Ht & Hsd & _).
    pose proof (eq_sym (to_varchar_short _ _ _ _ Hshort Hvc)) as Hp.
    unfold book_side. rewrite <- Hp, String.eqb_refl, Ht, Z.eqb_refl, Hsd. reflexivity. }
  destruct (side_eqb sd' sd).
  - apply filter_all, Hval.
  - apply filter_none, Hval.
Qed.

(** The rows of one side of the product just stored, as the order-book
    query selects them. *)
Lemma select_after_store products db db1 p sd :
  store_order_book_snapshot products db = Ok db1 ->
  NoDup (map product_id products) ->
  (forall q, In q products -> (String.length (product_id q) <= 50)%nat) ->
  In p products ->
  (forall x, In x (order_book_snapshot db) -> Snap.product_id x = product_id p ->
             Snap.timestamp x < timestamp p) ->
  exists crs,
    filter (book_side (product_id p) (timestamp p) sd) (order_book_snapshot db1) = crs /\
    Forall2 (fun l r => level_shown l (Api.order_to_json r)) (orders_of sd p) crs /\
    StronglySorted (key_lt Snap.rank) crs.
Proof.
  unfold store_order_book_snapshot. intros H Hnd Hshort Hin Hold.
  destruct products as [| p0 ps]; [destruct Hin |].
  remember (p0 :: ps) as products eqn:Ep. clear Ep p0 ps.
  ok_inv H. ok_inv H. inversion H; subst db1; clear H. cbn [order_book_snapshot].
  destruct (in_split _ _ Hin) as (pre & post & ->).
  rewrite map_app in Hnd. cbn [map] in Hnd.
  pose proof (NoDup_remove_2 _ _ _ Hnd) as Hnot. rewrite in_app_iff in Hnot.
  destruct (build_rows_app _ _ _ Hv) as (rpre & rrest & Hpre & Hrest & ->).
  cbn [build_rows] in Hrest.
  destruct (side_rows (product_id p) (timestamp p) BUY _) as [rb |] eqn:Erb;
    cbn [bind] in Hrest; [| discriminate].
  destruct (side_rows (product_id p) (timestamp p) SELL _) as [rs |] eqn:Ers;
    cbn [bind] in Hrest; [| discriminate].
  destruct (build_rows post) as [rpost |] eqn:Erpost; cbn [bind] in Hrest; [| discriminate].
  inversion Hrest; subst rrest; clear Hrest.
  destruct (execute_batch_rows _ _ _ Hv0) as (cr & Hcr).
  destruct (snapshot_rows_app _ _ _ Hcr) as (cpre & c1 & Hcpre & Hc1 & ->).
  destruct (snapshot_rows_app _ _ _ Hc1) as (cb & c2 & Hcb & Hc2 & ->).
  destruct (snapshot_rows_app _ _ _ Hc2) as (cs & cpost & Hcs & Hcpost & ->).
  assert (Hp_short : (String.length (product_id p) <= 50)%nat).
  { apply Hshort, in_app_iff. right. left. reflexivity. }
  set (f := book_side (product_id p) (timestamp p) sd).
  assert (Hfpre : filter f cpre = []).
  { apply (foreign_rows_unselected _ _ _ pre rpre); auto.
    intros q Hq. apply Hshort, in_app_iff. auto. }
  assert (Hfpost : filter f cpost = []).
  { apply (foreign_rows_unselected _ _ _ post rpost); auto.
    intros q Hq. apply Hshort, in_app_iff. right. right. exact Hq. }
  pose proof (own_rows_selected _ _ sd BUY _ _ _ Erb Hcb Hp_short) as Hfb. fold f in Hfb.
  pose proof (own_rows_selected _ _ sd SELL _ _ _ Ers Hcs Hp_short) as Hfs. fold f in Hfs.
  assert (Hftbl : filter f (order_book_snapshot db) = []).
  { apply filter_none. intros x Hx. unfold f, book_side.
    destruct (String.eqb_spec (Snap.product_id x) (product_id p)) as [Hp | Hp];
      [| reflexivity].
    specialize (Hold x Hx Hp).
    replace (Snap.timestamp x =? timestamp p) with false; [reflexivity |].
    symmetry. apply Z.eqb_neq. lia. }
  destruct (side_rows_coerced _ _ _ _ _ _ _ Erb Hcb) as (Hshown_b & _ & Hsorted_b).
  destruct (side_rows_coerced _ _ _ _ _ _ _ Ers Hcs) as (Hshown_s & _ & Hsorted_s).
  assert (Hsel : filter f (cpre ++ cb ++ cs ++ cpost) =
                 match sd with
                 | BUY => cb
                 | SELL => cs
                 end).
  { rewrite !filter_app, Hfpre, Hfpost, Hfb, Hfs.
    destruct sd; simpl; rewrite ?app_nil_r; reflexivity. }
  exists (match sd with
          | BUY => cb
          | SELL => cs
          end).
  split; [| destruct sd; auto].
  rewrite (execute_batch_select f _ (book_side_key _ _ _) _ _ _ Hv0 Hcr).
  - rewrite Hftbl, Hsel. reflexivity.
  - rewrite Hftbl, Hsel. simpl. destruct sd; apply sorted_ranks_keys; assumption.
Qed.

Lemma latest_after_store products db db1 p :
  store_order_book_snapshot products db = Ok db1 ->
  NoDup (map product_id products) ->
  (forall q, In q products -> (String.length (product_id q) <= 50)%nat) ->
  In p products -> buy_orders p <> [] ->
  (forall x, In x (order_book_snapshot db) -> Snap.product_id x = product_id p ->
             Snap.timestamp x < timestamp p) ->
  Api.select_latest_time (product_id p) db1 = Some (timestamp p).
Proof.
  intros Hs Hnd Hshort Hin Hne Hold.
  destruct (stored_best_buy _ _ _ _ Hs Hin Hne (Hshort _ Hin)) as (x & Hx & Hxp & Hxt & _).
  assert (Hle : forall y, In y (order_book_snapshot db1) ->
                          Snap.product_id y = product_id p ->
                          Snap.timestamp y <= timestamp p).
  { intros y Hy Hyp. destruct (store_written _ _ _ Hs) as (_ & Hw).
    destruct (Hw _ Hy) as [Hyold | (p' & Hp' & Hvc & Ht & _)].
    - specialize (Hold y Hyold Hyp). lia.
    - pose proof (eq_sym (to_varchar_short _ _ _ _ (Hshort _ Hp') Hvc)) as Heq.
      assert (p' = p).
      { apply (unique_key_eq _ _ product_id products); auto. congruence. }
      subst p'. lia. }
  unfold Api.select_latest_time. rewrite <- (map_map Snap.timestamp Some).
  set (ts := map Snap.timestamp
                 (filter (fun r => String.eqb (Snap.product_id r) (product_id p))
                         (order_book_snapshot db1))).
  assert (Hts : In (timestamp p) ts).
  { unfold ts. rewrite <- Hxt. apply in_map, filter_In. split; [exact Hx |].
    apply String.eqb_eq, Hxp. }
  assert (Hall : forall t, In t ts -> t <= timestamp p).
  { unfold ts. intros t Ht. apply in_map_iff in Ht. destruct Ht as (y & <- & Hy).
    apply filter_In in Hy. rewrite String.eqb_eq in Hy. apply Hle; tauto. }
  destruct (MAX (map Some ts)) as [m |] eqn:Em.
  - destruct (proj2 (max_of_values ts) m Em) as (Hm & Hmax).
    assert (Heq : m = timestamp p)
      by (apply Z.le_antisymm; [apply Hall, Hm | apply Hmax, Hts]).
    rewrite Heq. reflexivity.
  - destruct ts as [| a ts']; [destruct Hts |].
    unfold MAX in Em. cbn [map] in Em. rewrite agg_Some_cons in Em. discriminate.
Qed.

Lemma Forall2_firstn_map A B C (R : A -> C -> Prop) (g : B -> C) n :
  forall l l',
    Forall2 (fun a b => R a (g b)) l l' -> Forall2 R (firstn n l) (map g (firstn n l')).
Proof.
  induction n as [| n IH]; intros l l' H; [constructor |].
  destruct H as [| a b l l' Hab H]; simpl; constructor; [exact Hab | apply IH, H].
Qed.

(** X17.  After a batch is stored, the order book of one of its products
    shows that product's levels: when the product ids of the batch are
    distinct and at most 50 bytes long, and the product has a buy
    level and a capture timestamp later than every snapshot the table
    held for it, the endpoint answers with its first five buy levels and
    its first five sell levels, in order, prices rounded to hundredths. *)
Theorem orderbook_shows_last_stored_batch products db db1 p :
  store_order_book_snapshot products db = Ok db1 ->
  NoDup (map product_id products) ->
  (forall q, In q products -> (String.length (product_id q) <= 50)%nat) ->
  In p products -> product_id p <> "" -> buy_orders p <> [] ->
  (forall x, In x (order_book_snapshot db) -> Snap.product_id x = product_id p ->
             Snap.timestamp x < timestamp p) ->
  exists buys sells,
    fst (Api.get_orderbook (Some (product_id p)) (Api.Reachable db1)) =
      Api.jsonify (Api.OrderBook None buys sells) /\
    Forall2 level_shown (firstn 5 (buy_orders p)) buys /\
    Forall2 level_shown (firstn 5 (sell_orders p)) sells.
Proof.
  intros Hs Hnd Hshort Hin Hpid Hne Hold.
  pose proof (latest_after_store _ _ _ _ Hs Hnd Hshort Hin Hne Hold) as Hlatest.
  destruct (select_after_store _ _ _ _ BUY Hs Hnd Hshort Hin Hold) as (cb & Hfb & Hshb & Hsb).
  destruct (select_after_store _ _ _ _ SELL Hs Hnd Hshort Hin Hold) as (cs & Hfs & Hshs & Hss).
  unfold Api.get_orderbook. rewrite (falsy_product _ Hpid). run_handler. cbn [get].
  rewrite Hlatest. cbn [fst].
  exists (map Api.order_to_json (Api.select_orders (product_id p) (timestamp p) BUY db1)),
    (map Api.order_to_json (Api.select_orders (product_id p) (timestamp p) SELL db1)).
  split; [reflexivity |]. unfold Api.select_orders.
  change (fun r : Snap.row =>
            String.eqb (Snap.product_id r) (product_id p)
            && (Snap.timestamp r =? timestamp p) && side_eqb (Snap.side r) BUY)
    with (book_side (product_id p) (timestamp p) BUY).
  change (fun r : Snap.row =>
            String.eqb (Snap.product_id r) (product_id p)
            && (Snap.timestamp r =? timestamp p) && side_eqb (Snap.side r) SELL)
    with (book_side (product_id p) (timestamp p) SELL).
  rewrite Hfb, Hfs, (order_by_sorted_id _ _ _ Hsb), (order_by_sorted_id _ _ _ Hss).
  split; apply Forall2_firstn_map; assumption.
Qed.

Lemma orderbook_shows_last_stored_batch_witness :
  store_order_book_snapshot [fresh_product] sample_db = Ok fresh_db /\
  exists buys sells,
    fst (Api.get_orderbook (Some (product_id fresh_product)) (Api.Reachable fresh_db)) =
      Api.jsonify (Api.OrderBook None buys sells) /\
    Forall2 level_shown (firstn 5 (buy_orders fresh_product)) buys.
Proof.
  assert (Hs : store_order_book_snapshot [fresh_product] sample_db = Ok fresh_db)
    by (vm_compute; reflexivity).
  split; [exact Hs |].
  destruct (orderbook_shows_last_stored_batch [fresh_product] sample_db fresh_db
              fresh_product Hs) as (buys & sells & Heq & Hb & _).
  - constructor; [intros [] | constructor].
  - intros q [<- | []]. apply Nat.leb_le. reflexivity.
  - left. reflexivity.
  - discriminate.
  - discriminate.
  - intros x Hx Hp. cbn in Hx.
    repeat (destruct Hx as [<- | Hx]; [discriminate Hp |]). destruct Hx.
  - exists buys, sells. auto.
Defined.

(** ** generate_candles then /api/candles *)

Lemma candle_sound_filled c : candle_sound c -> candle_filled c = true.
Proof.
  intros (o & h & l & cl & bv & sv & Ho & Hh & Hl & Hc & Hb & Hs & _).
  unfold candle_filled. rewrite Ho, Hh, Hl, Hc, Hb, Hs. reflexivity.
Qed.

Lemma pass_all_sound now interval_minutes db r cutoff_time :
  generate_candles now interval_minutes db = Ok r ->
  cutoff now interval_minutes = Ok cutoff_time ->
  Forall candle_sound (candles db) ->
  forall c, In c (candles (committed r)) -> candle_sound c.
Proof.
  intros H Hc Hall c Hin.
  destruct (generate_candles_inv _ _ _ _ _ H Hc) as (cs & Hp & Hr & _).
  rewrite Hr in Hin. cbn [candles] in Hin.
  destruct (upsert_all_In _ _ _ Hin) as [Hcs | Hold].
  - apply (pass_candles_In _ _ _ _ Hp) in Hcs. destruct Hcs as (pid & _ & Hpc).
    apply (product_candle_sound _ _ _ _ Hpc).
  - rewrite Forall_forall in Hall. apply Hall, Hold.
Qed.

(** X18.  A candle written by a pass is served by the candles endpoint.
    On a table of sound candles, a product with BUY rank-1 snapshots in
    the window of the pass is answered, for every request whose cutoff is
    not later than the latest of them, with a candle list that holds the
    candle of the pass: its timestamp and close from that latest snapshot
    and the two volumes the pass summed. *)
Theorem candle_is_served_after_pass
        now interval_minutes db r cutoff_time pid now' args requested :
  generate_candles now interval_minutes db = Ok r ->
  cutoff now interval_minutes = Ok cutoff_time ->
  Forall candle_sound (candles db) ->
  window pid cutoff_time BUY (order_book_snapshot db) <> [] ->
  pid <> "" -> Api.arg_product args = Some pid ->
  requested_cutoff now' args = Ok requested ->
  exists l,
    latest l (window pid cutoff_time BUY (order_book_snapshot db)) /\
    (requested <= Snap.timestamp l ->
     exists js t j,
       Api.get_candles now' args (Api.Reachable (committed r)) =
         (Api.jsonify (Api.CandleSet None js), t) /\
       In j js /\
       Api.j_timestamp j = Snap.timestamp l /\
       Api.j_close j = Snap.price l /\
       Api.j_buy_volume j =
         total_amount (window pid cutoff_time BUY (order_book_snapshot db)) /\
       Api.j_sell_volume j =
         total_amount (window pid cutoff_time SELL (order_book_snapshot db))).
Proof.
  intros H Hc Hsound Hne Hpid Hp Hreq.
  destruct (pass_present _ _ _ _ _ _ H Hc Hne) as (c & Hpc & Hin & _).
  destruct (product_candle_fields _ _ _ _ Hpc)
    as (_ & e & l & h & lo & _ & Hl & _ & _ & Hceq).
  exists l. split; [exact Hl |]. intros Hle.
  destruct (get_candles_runs now' args pid requested (committed r) Hp Hpid Hreq)
    as (statement & ->).
  assert (Hsel : In c (Api.select_candles pid requested (committed r))).
  { apply select_candles_In. split; [exact Hin |]. rewrite Hceq. split; [reflexivity | exact Hle]. }
  assert (Hall : forallb candle_filled (Api.select_candles pid requested (committed r)) = true).
  { apply forallb_forall. intros x Hx. apply select_candles_In in Hx.
    apply candle_sound_filled, (pass_all_sound _ _ _ _ _ H Hc Hsound). tauto. }
  revert Hsel Hall.
  destruct (Api.select_candles pid requested (committed r)) as [| row rows];
    intros Hsel Hall; [destruct Hsel |].
  rewrite (candles_to_json_filled _ Hall).
  eexists _, _, (candle_view c). split; [reflexivity |].
  split; [apply in_map, Hsel |]. rewrite Hceq. cbn. auto.
Qed.

Lemma candle_is_served_after_pass_witness :
  generate_candles sample_now 1 sample_db = Ok sample_pass /\
  exists l,
    latest l (window "X" (sample_now - 60000000) BUY (order_book_snapshot sample_db)).
Proof.
  assert (H1 : generate_candles sample_now 1 sample_db = Ok sample_pass)
    by (vm_compute; reflexivity).
  assert (H2 : cutoff sample_now 1 = Ok (sample_now - 60000000))
    by (vm_compute; reflexivity).
  split; [exact H1 |].
  destruct (candle_is_served_after_pass
              sample_now 1 sample_db sample_pass (sample_now - 60000000) "X"
              (sample_now + 1000000)
              {| Api.arg_product := Some "X"; Api.arg_hours := Some "1" |}
              (sample_now + 1000000 - 3600000000) H1 H2) as (l & Hl & _).
  - constructor.
  - vm_compute. discriminate.
  - discriminate.
  - reflexivity.
  - vm_compute. reflexivity.
  - exists l. exact Hl.
Defined.

